(** * rolldown-require: the module specifier resolver

    A shallow embedding of
    [packages/rolldown-require/src/plugins/resolve.ts] and the properties
    of its resolution rules.

    Layout of the development:
    - [JS]: the JavaScript string primitives the resolver uses;
    - [path]: the POSIX flavour of Node's [path] module;
    - the result type (a returned value or a thrown error);
    - the data model: options, package manifests, package descriptors,
      and the external collaborators gathered in [Env];
    - the resolver functions, in the order of the source file;
    - [Sample]: a concrete environment, with sample files and packages;
    - the vocabulary of the properties;
    - the properties, each followed or preceded by the lemmas it needs;
    - further properties of the resolver functions, and their samples. *)

From Stdlib Require Import ZArith Ascii String List Bool Lia.
From stdpp Require Import base option list strings gmap.

Set Warnings "-register-all".

Local Open Scope Z_scope.

(** ** JavaScript strings

    A JavaScript string is a sequence of UTF-16 code units; the model is a
    [string] whose characters stand for the code units. Indices are [Z]
    because [indexOf] returns [-1] and [slice] accepts negative positions. *)
Module JS.

Definition length (s : string) : Z := Z.of_nat (String.length s).

(** [s.startsWith(pre)] *)
Fixpoint startsWith (s pre : string) : bool :=
  match pre, s with
  | EmptyString, _ => true
  | String _ _, EmptyString => false
  | String a pre', String b s' =>
      if decide (a = b) then startsWith s' pre' else false
  end.

Fixpoint indexOf_from (s pat : string) (i : Z) : Z :=
  if startsWith s pat then i
  else match s with
       | EmptyString => -1
       | String _ s' => indexOf_from s' pat (i + 1)
       end.

(** [s.indexOf(pat)] *)
Definition indexOf (s pat : string) : Z := indexOf_from s pat 0.

(** [s.includes(pat)] *)
Definition includes (s pat : string) : bool := 0 <=? indexOf s pat.

(** The relative-index clamp of [String.prototype.slice]. *)
Definition clamp (len k : Z) : Z :=
  if k <? 0 then Z.max (len + k) 0 else Z.min k len.

(** [s.slice(start, end)]; [end_ = None] is the one-argument form. *)
Definition slice (s : string) (start : Z) (end_ : option Z) : string :=
  let len := length s in
  let from := clamp len start in
  let to := match end_ with None => len | Some e => clamp len e end in
  String.substring (Z.to_nat from) (Z.to_nat (to - from)) s.

(** [s.endsWith(suf)] *)
Definition endsWith (s suf : string) : bool :=
  (length suf <=? length s)
  && bool_decide (slice s (length s - length suf) None = suf).

(** [s.replace(pat, rep)] for a string pattern: the first occurrence only.
    (The replacement strings of the resolver hold no [$] pattern.) *)
Definition replace (s pat rep : string) : string :=
  let i := indexOf s pat in
  if i <? 0 then s
  else slice s 0 (Some i) +:+ rep +:+ slice s (i + length pat) None.

(** Truthiness of a [string | undefined] value. *)
Definition truthy (v : option string) : bool :=
  match v with
  | Some s => negb (bool_decide (s = EmptyString))
  | None => false
  end.

(** [list.includes(x)] on an array of strings. *)
Definition list_includes (l : list string) (x : string) : bool :=
  bool_decide (x ∈ l).

End JS.

Global Arguments JS.truthy : simpl never.

(** ** Node's [path] module, POSIX flavour *)
Module path.

Definition is_slash (c : ascii) : bool := bool_decide (c = "/"%char).
Definition is_dot (c : ascii) : bool := bool_decide (c = "."%char).

Fixpoint has_slash (s : string) : bool :=
  match s with
  | EmptyString => false
  | String c s' => is_slash c || has_slash s'
  end.

(** The pieces of [s] between the separators: [a/b] gives [a; b], and an
    empty piece stands for two adjacent separators or a separator at either
    end. *)
Fixpoint segments (s : string) : list string :=
  match s with
  | EmptyString => [EmptyString]
  | String c s' =>
      if is_slash c then EmptyString :: segments s'
      else match segments s' with
           | seg :: rest => String c seg :: rest
           | [] => [String c EmptyString]
           end
  end.

Fixpoint join_segments (l : list string) : string :=
  match l with
  | [] => EmptyString
  | [x] => x
  | x :: rest => x +:+ "/" +:+ join_segments rest
  end.

(** One step of [normalizeString]: [res] is the stack of kept segments,
    innermost first. *)
Definition normalizeStep (allowAboveRoot : bool) (res : list string)
    (seg : string) : list string :=
  if bool_decide (seg = EmptyString) || bool_decide (seg = ".") then res
  else if bool_decide (seg = "..") then
    match res with
    | last :: res' =>
        if bool_decide (last = "..")
        then (if allowAboveRoot then ".." :: res else res)
        else res'
    | [] => if allowAboveRoot then [".."] else []
    end
  else seg :: res.

Definition normalizeString (p : string) (allowAboveRoot : bool) : string :=
  join_segments
    (rev (fold_left (normalizeStep allowAboveRoot) (segments p) [])).

Definition isAbsolute (p : string) : bool :=
  match p with
  | String c _ => is_slash c
  | EmptyString => false
  end.

(** [path.posix.normalize] *)
Definition normalize (p : string) : string :=
  if bool_decide (p = EmptyString) then "."
  else
    let isAbs := isAbsolute p in
    let trailingSeparator := JS.endsWith p "/" in
    let body := normalizeString p (negb isAbs) in
    if bool_decide (body = EmptyString) then
      (if isAbs then "/" else if trailingSeparator then "./" else ".")
    else
      (if isAbs then "/" else EmptyString)
      +:+ body +:+ (if trailingSeparator then "/" else EmptyString).

(** [path.join(a, b)] (the resolver only joins two pieces). *)
Definition join (a b : string) : string :=
  let joined :=
    if bool_decide (a = EmptyString) then b
    else if bool_decide (b = EmptyString) then a
    else a +:+ "/" +:+ b in
  if bool_decide (joined = EmptyString) then "." else normalize joined.

Fixpoint stripTrailingSlashes (s : string) : string :=
  match s with
  | EmptyString => EmptyString
  | String c s' =>
      let r := stripTrailingSlashes s' in
      if is_slash c && bool_decide (r = EmptyString) then EmptyString
      else String c r
  end.

Fixpoint afterLastSlash (s : string) : string :=
  match s with
  | EmptyString => EmptyString
  | String c s' =>
      if has_slash s' then afterLastSlash s'
      else if is_slash c then s' else s
  end.

(** [path.basename(p)]: the last component, trailing separators ignored. *)
Definition basename (p : string) : string :=
  afterLastSlash (stripTrailingSlashes p).

(** The suffix of [s] that starts at its last dot. *)
Fixpoint fromLastDot (s : string) : option string :=
  match s with
  | EmptyString => None
  | String c s' =>
      match fromLastDot s' with
      | Some r => Some r
      | None => if is_dot c then Some s else None
      end
  end.

(** [path.extname(p)]: from the last dot of the last component; empty when
    there is no dot, when the dot opens the component, or when the
    component is [..]. *)
Definition extname (p : string) : string :=
  let base := basename p in
  match fromLastDot base with
  | None => EmptyString
  | Some ext =>
      if bool_decide (String.length ext = String.length base)
         || bool_decide (base = "..")
      then EmptyString else ext
  end.

(** Remove the characters after the last separator (keep the separator). *)
Fixpoint dropLastComponent (s : string) : string :=
  match s with
  | EmptyString => EmptyString
  | String c s' =>
      if has_slash s' then String c (dropLastComponent s')
      else if is_slash c then String c EmptyString else EmptyString
  end.

(** [path.dirname(p)]: the scan runs from the end of [p] down to index 1. *)
Definition dirname (p : string) : string :=
  match p with
  | EmptyString => "."
  | String c0 rest =>
      let hasRoot := is_slash c0 in
      let r2 := dropLastComponent (stripTrailingSlashes rest) in
      if bool_decide (r2 = EmptyString) then (if hasRoot then "/" else ".")
      else
        let r3 := JS.slice r2 0 (Some (-1)) in
        if hasRoot && bool_decide (r3 = EmptyString) then "//"
        else String c0 r3
  end.

End path.


(** ** Results: a returned value or a thrown error *)

(** A JavaScript [Error]: its [message] and its [code] property, when set. *)
Record Error := mkError { message : string; code : option string }.

Inductive result (A : Type) : Type :=
  | Ok (a : A)
  | Throw (e : Error).
Arguments Ok {A} a.
Arguments Throw {A} e.

Global Instance result_ret : MRet result := fun A a => Ok a.
Global Instance result_bind : MBind result := fun A B f m =>
  match m with
  | Ok a => f a
  | Throw e => Throw e
  end.

(** [try { body } catch (e) { handler e }] *)
Definition try_catch {A} (body : result A) (handler : Error → result A)
    : result A :=
  match body with
  | Ok a => Ok a
  | Throw e => handler e
  end.

(** [if ((res = first)) return res] followed by [next]: the common shape of
    the probing code, where a falsy result falls through. *)
Definition or_else (first next : result (option string))
    : result (option string) :=
  res ← first; if JS.truthy res then Ok res else next.
Infix "orelse" := or_else (at level 62, right associativity).

(** The double quote character, for messages. *)
Definition dquote : string := String (ascii_of_nat 34) EmptyString.

(** ** Constants of the source file *)

Definition ERR_RESOLVE_PACKAGE_ENTRY_FAIL : string :=
  "ERR_RESOLVE_PACKAGE_ENTRY_FAIL".
Definition browserExternalId : string := "__vite-browser-external".
Definition optionalPeerDepId : string := "__vite-optional-peer-dep".

(** ** Data model *)

(** An entry of [builtins?: (string | RegExp)[]]. *)
Inductive BuiltinPattern :=
  | BuiltinName (s : string)
  | BuiltinRE (source : string).

(** [InternalResolveOptions], the fields read by the resolver. The package
    cache handle only travels to the manifest subsystem and is part of
    [Env] below. Optional booleans keep their [undefined]. *)
Record InternalResolveOptions := {
  mainFields : list string;
  conditions : list string;
  extensions : list string;
  dedupe : list string;
  builtins : list BuiltinPattern;
  preserveSymlinks : bool;
  root : string;
  isBuild : bool;
  isProduction : bool;
  tryPrefix : option string;
  isRequire : option bool;
  scan : option bool;
  idOnly : option bool;
}.

(** Truthiness of a [boolean | undefined]. *)
Definition flag (b : option bool) : bool := default false b.

(** A value of the browser table: a replacement path or [false]. *)
Inductive BrowserValue :=
  | BrowserPath (s : string)
  | BrowserFalse.

(** The [browser] field: a string, or a table in iteration order. *)
Inductive BrowserField :=
  | BrowserString (s : string)
  | BrowserObject (m : list (string * BrowserValue)).

(** The [exports] / [imports] fields, as JSON. *)
Inductive ExportsValue :=
  | ExpString (s : string)
  | ExpNull
  | ExpArray (l : list ExportsValue)
  | ExpObject (m : list (string * ExportsValue)).

(** Truthiness of [data.exports]. *)
Definition exports_truthy (e : option ExportsValue) : bool :=
  match e with
  | None | Some ExpNull => false
  | Some (ExpString s) => negb (bool_decide (s = EmptyString))
  | Some (ExpArray _) | Some (ExpObject _) => true
  end.

(** [isObject(exportsField) && !Array.isArray(exportsField)] *)
Definition exports_is_plain_object (e : option ExportsValue) : bool :=
  match e with
  | Some (ExpObject _) => true
  | _ => false
  end.

(** An entry of [peerDependenciesMeta]. *)
Record PeerMeta := { optional : option bool }.

(** Modelled from the spec: the declaration of a parsed manifest
    ([PackageData.data], in the manifest subsystem) is not part of the
    resolver file. The spec lists the fields [name], [main], [module],
    [browser], [exports], [imports], [peerDependencies],
    [peerDependenciesMeta]; [stringFields] holds the other string-valued
    fields, which the resolver reads as [data[field]]. *)
Record PackageJson := {
  name : string;
  main : option string;
  module : option string;
  browser : option BrowserField;
  exports : option ExportsValue;
  imports : option ExportsValue;
  peerDependencies : option (gmap string string);
  peerDependenciesMeta : option (gmap string PeerMeta);
  stringFields : gmap string string;
}.

(** [typeof data[field] === 'string'], giving the string. *)
Definition stringField (data : PackageJson) (field : string) : option string :=
  if bool_decide (field = "name") then Some (name data)
  else if bool_decide (field = "main") then main data
  else if bool_decide (field = "module") then module data
  else if bool_decide (field = "browser") then
    match browser data with Some (BrowserString s) => Some s | _ => None end
  else if bool_decide (field = "exports") then
    match exports data with Some (ExpString s) => Some s | _ => None end
  else stringFields data !! field.

(** The result of [hasSideEffects]. *)
Inductive SideEffects :=
  | SideEffectsBool (b : bool)
  | SideEffectsNoTreeshake
  | SideEffectsNull.

(** Modelled from the spec: the package descriptor of the manifest
    subsystem. Its resolved-path cache is keyed by (subpath,
    condition-signature); [resolvedCache] is the current content of that
    cache. *)
Record PackageData := {
  dir : string;
  data : PackageJson;
  hasSideEffects : string → SideEffects;
  resolvedCache : gmap (string * string) string;
}.

(** What [tryStatSync] tells about a path. *)
Inductive Stats := IsFile | IsDirectory | IsOther.

(** The dependency pre-optimization subsystem, at its interface. *)
Record DepsOptimizer := {
  noDiscovery : bool;
  exclude : option (list string);
  browserHash : option string;
  (** [getOptimizedDepId(registerMissingImport(id, resolved))] *)
  registerMissingImport : string → string → string;
}.

(** [PartialResolvedId] *)
Record PartialResolvedId := {
  id : string;
  moduleSideEffects : option SideEffects;
  external : option bool;
}.

(** The external collaborators of the resolver: the filesystem, the
    manifest subsystem, the [resolve.exports] library, and the helpers and
    constants imported from [../utils], [../constants] and [../external]. *)
Record Env := {
  (* filesystem *)
  tryStatSync : string → option Stats;
  existsSync : string → bool;
  safeRealpathSync : string → result string;
  readFileSync : string → result string;
  normalizePath : string → string;
  (* manifest subsystem *)
  loadPackageData : string → result PackageData;
  findNearestPackageData : string → option PackageData;
  findNearestMainPackageData : string → option PackageData;
  resolvePackageData : string → string → bool → option PackageData;
  conditionSignature : InternalResolveOptions → string;
  (* resolve.exports: [exports(pkg, key, {conditions, unsafe: true})] *)
  resolveExports :
    PackageJson → string → list string → result (option (list string));
  resolveImports :
    PackageJson → string → list string → result (option (list string));
  (* mlly *)
  hasESMSyntax : string → bool;
  (* ../constants *)
  DEV_PROD_CONDITION : string;
  SPECIAL_QUERY_RE_test : string → bool;
  (* ../external *)
  canExternalizeFile : string → bool;
  (* ../utils *)
  bareImportRE_test : string → bool;
  (** [deepImportRE.exec(id)], giving [deepMatch[1] || deepMatch[2]] *)
  deepImportRE_exec : string → option string;
  getNpmPackageName : string → option string;
  injectQuery : string → string → string;
  isBuiltin : list BuiltinPattern → string → bool;
  isOptimizable : string → DepsOptimizer → bool;
}.

(** Modelled from the spec: [cleanUrl] of [../sharedUtils] removes the
    postfix, the trailing query-string/fragment portion of a specifier,
    which starts at the first [?] or [#]. *)
Fixpoint cleanUrl (url : string) : string :=
  match url with
  | EmptyString => EmptyString
  | String c rest =>
      if bool_decide (c = "?"%char) || bool_decide (c = "#"%char)
      then EmptyString
      else String c (cleanUrl rest)
  end.

(** Modelled from the spec: [splitFileAndPostfix] of [../sharedUtils] gives
    the path without its postfix, and the postfix. *)
Definition splitFileAndPostfix (p : string) : string * string :=
  let file := cleanUrl p in
  (file, JS.slice p (JS.length file) None).

(** Modelled from the spec: [isInNodeModules] of [../utils] tells whether a
    path lies in dependency storage, a [node_modules] directory. *)
Definition isInNodeModules (p : string) : bool := JS.includes p "node_modules".

(** [getResolvedCache(key, options)] of a descriptor. *)
Definition getResolvedCache (env : Env) (pkg : PackageData) (key : string)
    (options : InternalResolveOptions) : option string :=
  resolvedCache pkg !! (key, conditionSignature env options).

(** [setResolvedCache(key, entry, options)]: the descriptor afterwards. *)
Definition setResolvedCache (env : Env) (pkg : PackageData) (key entry : string)
    (options : InternalResolveOptions) : PackageData :=
  {| dir := dir pkg; data := data pkg; hasSideEffects := hasSideEffects pkg;
     resolvedCache :=
       <[(key, conditionSignature env options) := entry]> (resolvedCache pkg) |}.

(** ** The resolver *)

(** [fileResult] of [tryResolveRealFileOrType]: [{ path, type: 'file' }] or
    [{ type: 'directory' }]. *)
Inductive FileOrType :=
  | FileResult (realPath : string)
  | DirectoryResult.

(** [fileResult?.type === 'directory'] *)
Definition isDirectoryResult (fileResult : option FileOrType) : bool :=
  match fileResult with
  | Some DirectoryResult => true
  | _ => false
  end.

(** The [type] argument of [resolveExportsOrImports]. *)
Inductive ExportsOrImports := TypeImports | TypeExports.

(** What the first half of [resolveDeepImport] hands to the second: the
    value of [relativeId], or the early return of the browser-external id. *)
Inductive DeepTarget :=
  | DeepRelative (relativeId : option string)
  | DeepExternal.

(** A template literal prints [undefined] for a missing value. *)
Definition template (v : option string) : string := default "undefined" v.

(** [table[key]] on a browser table. *)
Fixpoint tableLookup (key : string) (table : list (string * BrowserValue))
    : option BrowserValue :=
  match table with
  | [] => None
  | (k, v) :: rest =>
      if bool_decide (k = key) then Some v else tableLookup key rest
  end.

(** Truthiness of a browser-table lookup, [string | false | undefined]. *)
Definition browser_truthy (v : option BrowserValue) : option string :=
  match v with
  | Some (BrowserPath s) => if JS.truthy (Some s) then Some s else None
  | _ => None
  end.

(** The [RangeError] the engine throws when the call stack is exhausted. *)
Definition stackOverflow : Error :=
  {| message := "Maximum call stack size exceeded"; code := None |}.

Section Resolver.
Context (env : Env).

(** *** Filesystem probes *)

Definition getRealPath (resolved : string) (preserveSymlinks : bool)
    : result string :=
  resolved' ← (if negb preserveSymlinks then safeRealpathSync env resolved
               else Ok resolved);
  Ok (normalizePath env resolved').

Definition isDirectory (p : string) : bool :=
  match tryStatSync env p with
  | Some IsDirectory => true
  | _ => false
  end.

Definition tryResolveRealFile (file : string) (preserveSymlinks : bool)
    : result (option string) :=
  match tryStatSync env file with
  | Some IsFile => p ← getRealPath file preserveSymlinks; Ok (Some p)
  | _ => Ok None
  end.

Fixpoint tryResolveRealFileWithExtensions (filePath : string)
    (extensions : list string) (preserveSymlinks : bool)
    : result (option string) :=
  match extensions with
  | [] => Ok None
  | ext :: rest =>
      tryResolveRealFile (filePath +:+ ext) preserveSymlinks
      orelse tryResolveRealFileWithExtensions filePath rest preserveSymlinks
  end.

Definition tryResolveRealFileOrType (file : string) (preserveSymlinks : bool)
    : result (option FileOrType) :=
  match tryStatSync env file with
  | Some IsFile =>
      p ← getRealPath file preserveSymlinks; Ok (Some (FileResult p))
  | Some IsDirectory => Ok (Some DirectoryResult)
  | _ => Ok None
  end.

(** [knownTsOutputRE]: a dot, then [js], [mjs], [cjs] or [jsx], at the end
    of the string. *)
Definition isPossibleTsOutput (url : string) : bool :=
  JS.endsWith url ".js" || JS.endsWith url ".mjs"
  || JS.endsWith url ".cjs" || JS.endsWith url ".jsx".

(** *** Conditions and the export map *)

Definition getConditions (conditions : list string) (isProduction : bool)
    (isRequire : option bool) : list string :=
  let resolvedConditions :=
    (λ condition,
       if bool_decide (condition = DEV_PROD_CONDITION env)
       then (if isProduction then "production" else "development")
       else condition) <$> conditions in
  if flag isRequire then resolvedConditions ++ ["require"]
  else resolvedConditions ++ ["import"].

Definition resolveExportsOrImports (pkg : PackageJson) (key : string)
    (options : InternalResolveOptions) (type : ExportsOrImports)
    : result (option string) :=
  let conditions :=
    getConditions (conditions options) (isProduction options)
      (isRequire options) in
  let fn := match type with
            | TypeImports => resolveImports env
            | TypeExports => resolveExports env
            end in
  result ← fn pkg key conditions;
  Ok (match result with Some l => head l | None => None end).

(** *** The browser table *)

Definition equalWithoutSuffix (path key suffix : string) : bool :=
  JS.endsWith key suffix
  && bool_decide (JS.slice key 0 (Some (- JS.length suffix)) = path).

(** The [for (const key in map)] loop; a table holds each key once, so the
    value paired with [key] is [map[key]]. *)
Fixpoint mapWithBrowserField_loop (normalizedPath : string)
    (map : list (string * BrowserValue)) : option BrowserValue :=
  match map with
  | [] => None
  | (key, value) :: rest =>
      let normalizedKey := path.normalize key in
      if bool_decide (normalizedPath = normalizedKey)
         || equalWithoutSuffix normalizedPath normalizedKey ".js"
         || equalWithoutSuffix normalizedPath normalizedKey "/index.js"
      then Some value
      else mapWithBrowserField_loop normalizedPath rest
  end.

Definition mapWithBrowserField (relativePathInPkgDir : string)
    (map : list (string * BrowserValue)) : option BrowserValue :=
  mapWithBrowserField_loop (path.normalize relativePathInPkgDir) map.

(** [packageEntryFailure] always throws. *)
Definition packageEntryFailure {A} (id : string) (details : option string)
    : result A :=
  Throw {|
    message :=
      "Failed to resolve entry for package " +:+ dquote +:+ id +:+ dquote
      +:+ ". The package may have incorrect main/module/exports specified in its package.json"
      +:+ (if JS.truthy details then ": " +:+ template details else ".");
    code := Some ERR_RESOLVE_PACKAGE_ENTRY_FAIL |}.

(** *** The mutually recursive core

    [tryCleanFsResolve] calls [resolvePackageEntry] for a directory that
    holds a package manifest, and [resolvePackageEntry] probes its
    candidates with [tryFsResolve]. The functions below take the nested
    [resolvePackageEntry] as [resolveEntry]; the knot is tied after the
    section. *)
Section WithEntryResolver.
Variable resolveEntry :
  string → PackageData → InternalResolveOptions → result (option string).

Definition tryCleanFsResolve_with (file : string)
    (options : InternalResolveOptions) (tryIndex skipPackageJson : bool)
    : result (option string) :=
  let extensions_ := extensions options in
  let preserveSymlinks_ := preserveSymlinks options in
  fileResult ← tryResolveRealFileOrType file (preserveSymlinks options);
  match fileResult with
  | Some (FileResult p) => Ok (Some p)
  | _ => Ok None
  end
  orelse
  (let possibleJsToTs := isPossibleTsOutput file in
   if possibleJsToTs
      || negb (bool_decide (extensions options = []))
      || JS.truthy (tryPrefix options)
   then
     let dirPath := path.dirname file in
     if isDirectory dirPath then
       (if possibleJsToTs then
          let fileExt := path.extname file in
          let fileName := JS.slice file 0 (Some (- JS.length fileExt)) in
          tryResolveRealFile (fileName +:+ JS.replace fileExt "js" "ts")
            preserveSymlinks_
          orelse
          (if bool_decide (fileExt = ".js")
           then tryResolveRealFile (fileName +:+ ".tsx") preserveSymlinks_
           else Ok None)
        else Ok None)
       orelse
       tryResolveRealFileWithExtensions file extensions_ preserveSymlinks_
       orelse
       (if JS.truthy (tryPrefix options) then
          let prefixed :=
            dirPath +:+ "/" +:+ template (tryPrefix options)
            +:+ path.basename file in
          tryResolveRealFile prefixed preserveSymlinks_
          orelse
          tryResolveRealFileWithExtensions prefixed extensions_
            preserveSymlinks_
        else Ok None)
     else Ok None
   else Ok None)
  orelse
  (if tryIndex && isDirectoryResult fileResult then
     let dirPath := file in
     (* [Some r]: the manifest branch returned [r]; [None]: go on *)
     returned ←
       (if negb skipPackageJson then
          let pkgPath := dirPath +:+ "/package.json" in
          try_catch
            (if existsSync env pkgPath then
               pkgPath' ← (if negb (preserveSymlinks options)
                           then safeRealpathSync env pkgPath
                           else Ok pkgPath);
               pkg ← loadPackageData env pkgPath';
               r ← resolveEntry dirPath pkg options;
               Ok (Some r)
             else Ok None)
            (λ e,
               if bool_decide (code e ≠ Some ERR_RESOLVE_PACKAGE_ENTRY_FAIL)
                  && bool_decide (code e ≠ Some "ENOENT")
               then Throw e else Ok None)
        else Ok None);
     match returned with
     | Some r => Ok r
     | None =>
         tryResolveRealFileWithExtensions (dirPath +:+ "/index")
           extensions_ preserveSymlinks_
         orelse
         (if JS.truthy (tryPrefix options) then
            tryResolveRealFileWithExtensions
              (dirPath +:+ "/" +:+ template (tryPrefix options) +:+ "index")
              extensions_ preserveSymlinks_
          else Ok None)
         orelse Ok None
     end
   else Ok None).

(** The branch of [tryFsResolve] for a [#] in a dependency path is taken
    when this holds. *)
Definition hashIsFileName (fsPath : string) : bool :=
  let hashIndex := JS.indexOf fsPath "#" in
  let queryIndex := JS.indexOf fsPath "?" in
  (0 <=? hashIndex) && isInNodeModules fsPath
  && ((queryIndex <? 0) || (hashIndex <? queryIndex)).

Definition tryFsResolve_with (fsPath : string)
    (options : InternalResolveOptions) (tryIndex skipPackageJson : bool)
    : result (option string) :=
  let hashIndex := JS.indexOf fsPath "#" in
  (if (0 <=? hashIndex) && isInNodeModules fsPath then
     let queryIndex := JS.indexOf fsPath "?" in
     if (queryIndex <? 0) || (hashIndex <? queryIndex) then
       let file := if hashIndex <? queryIndex
                   then JS.slice fsPath 0 (Some queryIndex) else fsPath in
       res ← tryCleanFsResolve_with file options tryIndex skipPackageJson;
       if JS.truthy res
       then Ok (Some (template res
                      +:+ JS.slice fsPath (JS.length file) None))
       else Ok None
     else Ok None
   else Ok None)
  orelse
  (let '(file, postfix) := splitFileAndPostfix fsPath in
   res ← tryCleanFsResolve_with file options tryIndex skipPackageJson;
   if JS.truthy res then Ok (Some (template res +:+ postfix))
   else Ok None).

(** *** Package entry *)

Definition tryResolveBrowserEntry_with (dir : string) (data : PackageJson)
    (options : InternalResolveOptions) : result (option string) :=
  let browserEntry :=
    match browser data with
    | Some (BrowserString s) => Some s
    | Some (BrowserObject m) => browser_truthy (tableLookup "." m)
    | None => None
    end in
  if JS.truthy browserEntry then
    if negb (flag (isRequire options))
       && JS.list_includes (mainFields options) "module"
       && bool_decide (is_Some (module data))
       && negb (bool_decide (module data = browserEntry))
    then
      resolvedBrowserEntry ←
        tryFsResolve_with (path.join dir (template browserEntry)) options
          true false;
      if JS.truthy resolvedBrowserEntry then
        content ← readFileSync env (template resolvedBrowserEntry);
        if hasESMSyntax env content then Ok browserEntry
        else Ok (module data)
      else Ok None
    else Ok browserEntry
  else Ok None.

(** The [for (const field of options.mainFields)] loop; [entryPoint] is
    the value of the variable so far. *)
Fixpoint mainFieldsLoop (dir : string) (data : PackageJson)
    (options : InternalResolveOptions) (fields : list string)
    (entryPoint : option string) : result (option string) :=
  match fields with
  | [] => Ok entryPoint
  | field :: rest =>
      if bool_decide (field = "browser") then
        entryPoint' ← tryResolveBrowserEntry_with dir data options;
        if JS.truthy entryPoint' then Ok entryPoint'
        else mainFieldsLoop dir data options rest entryPoint'
      else
        match stringField data field with
        | Some s => Ok (Some s)
        | None => mainFieldsLoop dir data options rest entryPoint
        end
  end.

(** The entry string chosen by the first part of the [try] block. *)
Definition selectEntryPoint (dir : string) (data : PackageJson)
    (options : InternalResolveOptions) : result (option string) :=
  entryPoint ← (if exports_truthy (exports data)
                then resolveExportsOrImports data "." options TypeExports
                else Ok None);
  entryPoint ← (if negb (JS.truthy entryPoint)
                then mainFieldsLoop dir data options (mainFields options)
                       entryPoint
                else Ok entryPoint);
  Ok (if JS.truthy entryPoint then entryPoint else main data).

(** The head of the body of [for (let entry of entryPoints)]: the entry
    that is probed, and [skipPackageJson]. *)
Definition entryCandidate (data : PackageJson)
    (options : InternalResolveOptions) (entry : string) : string * bool :=
  if bool_decide (head (mainFields options) = Some "sass")
     && negb (JS.list_includes (extensions options) (path.extname entry))
  then (EmptyString, true)
  else
    match browser data with
    | Some (BrowserObject browserField) =>
        if JS.list_includes (mainFields options) "browser" then
          (default entry
             (browser_truthy (mapWithBrowserField entry browserField)),
           false)
        else (entry, false)
    | _ => (entry, false)
    end.

Definition probeEntry (dir : string) (data : PackageJson)
    (options : InternalResolveOptions) (entry : string)
    : result (option string) :=
  let '(entry', skipPackageJson) := entryCandidate data options entry in
  let entryPointPath := path.join dir entry' in
  tryFsResolve_with entryPointPath options true skipPackageJson.

(** The [for (let entry of entryPoints)] loop: the first truthy
    [resolvedEntryPoint]. *)
Fixpoint entryPointsLoop (dir : string) (data : PackageJson)
    (options : InternalResolveOptions) (entryPoints : list string)
    : result (option string) :=
  match entryPoints with
  | [] => Ok None
  | entry :: rest =>
      probeEntry dir data options entry
      orelse entryPointsLoop dir data options rest
  end.

Definition entryPointsOf (entryPoint : option string) : list string :=
  if JS.truthy entryPoint then [template entryPoint]
  else ["index.js"; "index.json"; "index.node"].

(** The body of the [try] block, up to the [return]. *)
Definition resolvePackageEntry_try (pkg : PackageData)
    (options : InternalResolveOptions) : result (option string) :=
  entryPoint ← selectEntryPoint (dir pkg) (data pkg) options;
  entryPointsLoop (dir pkg) (data pkg) options (entryPointsOf entryPoint).

(** [resolvePackageEntry]: the result, and the descriptor afterwards. *)
Definition resolvePackageEntry_with (id : string) (pkg : PackageData)
    (options : InternalResolveOptions)
    : result (option string) * PackageData :=
  let '(idWithoutPostfix, postfix) := splitFileAndPostfix id in
  let cached := getResolvedCache env pkg "." options in
  if JS.truthy cached then (Ok (Some (template cached +:+ postfix)), pkg)
  else
    match resolvePackageEntry_try pkg options with
    | Ok resolvedEntryPoint =>
        if JS.truthy resolvedEntryPoint then
          (Ok (Some (template resolvedEntryPoint +:+ postfix)),
           setResolvedCache env pkg "." (template resolvedEntryPoint)
             options)
        else (packageEntryFailure id None, pkg)
    | Throw e => (packageEntryFailure id (Some (message e)), pkg)
    end.

(** *** Deep imports *)

(** The error of a subpath that the export map does not expose. *)
Definition subpathNotExported (relativeId : option string) (dir : string)
    : Error :=
  {| message :=
       "Package subpath '" +:+ template relativeId
       +:+ "' is not defined by " +:+ dquote +:+ "exports" +:+ dquote
       +:+ " in " +:+ path.join dir "package.json" +:+ ".";
     code := None |}.

(** The first half of [resolveDeepImport], after the cache miss. *)
Definition resolveDeepImport_relativeId (id : string) (pkg : PackageData)
    (options : InternalResolveOptions) : result DeepTarget :=
  let exportsField := exports (data pkg) in
  if exports_truthy exportsField then
    relativeId ←
      (if exports_is_plain_object exportsField then
         let '(file, postfix) := splitFileAndPostfix id in
         exportsId ←
           resolveExportsOrImports (data pkg) file options TypeExports;
         Ok (match exportsId with
             | Some e => Some (e +:+ postfix)
             | None => None
             end)
       else Ok None);
    if negb (JS.truthy relativeId)
    then Throw (subpathNotExported relativeId (dir pkg))
    else Ok (DeepRelative relativeId)
  else
    match browser (data pkg) with
    | Some (BrowserObject browserField) =>
        if JS.list_includes (mainFields options) "browser" then
          let '(file, postfix) := splitFileAndPostfix id in
          let mapped := mapWithBrowserField file browserField in
          match browser_truthy mapped with
          | Some m => Ok (DeepRelative (Some (m +:+ postfix)))
          | None =>
              match mapped with
              | Some BrowserFalse => Ok DeepExternal
              | _ => Ok (DeepRelative (Some id))
              end
          end
        else Ok (DeepRelative (Some id))
    | _ => Ok (DeepRelative (Some id))
    end.

(** [resolveDeepImport]: the result, and the descriptor afterwards. *)
Definition resolveDeepImport_with (id : string) (pkg : PackageData)
    (options : InternalResolveOptions)
    : result (option string) * PackageData :=
  let cache := getResolvedCache env pkg id options in
  if JS.truthy cache then (Ok cache, pkg)
  else
    match resolveDeepImport_relativeId id pkg options with
    | Throw e => (Throw e, pkg)
    | Ok DeepExternal =>
        (Ok (Some browserExternalId),
         setResolvedCache env pkg id browserExternalId options)
    | Ok (DeepRelative relativeId) =>
        if JS.truthy relativeId then
          match tryFsResolve_with
                  (path.join (dir pkg) (template relativeId)) options
                  (negb (exports_truthy (exports (data pkg)))) false with
          | Throw e => (Throw e, pkg)
          | Ok resolved =>
              if JS.truthy resolved
              then (Ok resolved,
                    setResolvedCache env pkg id (template resolved) options)
              else (Ok None, pkg)
          end
        else (Ok None, pkg)
    end.

End WithEntryResolver.

(** The nested [resolvePackageEntry] under a call stack that allows
    [depth] more nested package manifests: when the stack is exhausted the
    engine throws. The descriptor of a nested call is the fresh one that
    [loadPackageData] built, so its cache write is not observable. *)
Fixpoint resolvePackageEntry_nested (depth : nat) (id : string)
    (pkg : PackageData) (options : InternalResolveOptions)
    : result (option string) :=
  match depth with
  | O => Throw stackOverflow
  | S d =>
      fst (resolvePackageEntry_with (resolvePackageEntry_nested d) id pkg
             options)
  end.

Definition tryCleanFsResolve (depth : nat) :=
  tryCleanFsResolve_with (resolvePackageEntry_nested depth).
Definition tryFsResolve (depth : nat) :=
  tryFsResolve_with (resolvePackageEntry_nested depth).
Definition resolvePackageEntry (depth : nat) :=
  resolvePackageEntry_with (resolvePackageEntry_nested depth).
Definition resolveDeepImport (depth : nat) :=
  resolveDeepImport_with (resolvePackageEntry_nested depth).
Definition tryResolveBrowserEntry (depth : nat) :=
  tryResolveBrowserEntry_with (resolvePackageEntry_nested depth).

(** *** The bare specifier orchestrator *)

(** [pkgId]: the package name, without postfix. *)
Definition tryNodeResolve_pkgId (id : string) : string :=
  match deepImportRE_exec env id with
  | Some name => name
  | None => cleanUrl id
  end.

Definition tryNodeResolve_basedir (id : string) (importer : option string)
    (options : InternalResolveOptions) : string :=
  let pkgId := tryNodeResolve_pkgId id in
  if JS.list_includes (dedupe options) pkgId then root options
  else if JS.truthy importer
          && path.isAbsolute (template importer)
          && (JS.endsWith (template importer) "*"
              || existsSync env (cleanUrl (template importer)))
  then path.dirname (template importer)
  else root options.

Definition isModuleBuiltin (options : InternalResolveOptions) (id : string)
    : bool :=
  isBuiltin env (builtins options) id.

(** The NUL character, [\0]. *)
Definition nul : string := String (ascii_of_nat 0) EmptyString.

(** [selfPkg]: the nearest manifest, when the specifier names it. *)
Definition tryNodeResolve_selfPkg (id : string) (importer : option string)
    (options : InternalResolveOptions) : option PackageData :=
  let pkgId := tryNodeResolve_pkgId id in
  let basedir := tryNodeResolve_basedir id importer options in
  if negb (isModuleBuiltin options id) && negb (JS.includes id nul)
     && bareImportRE_test env id
  then
    match findNearestPackageData env basedir with
    | Some selfPackageData =>
        if exports_truthy (exports (data selfPackageData))
           && bool_decide (name (data selfPackageData) = pkgId)
        then Some selfPackageData else None
    | None => None
    end
  else None.

(** [pkg = selfPkg || resolvePackageData(...)] *)
Definition tryNodeResolve_pkg (id : string) (importer : option string)
    (options : InternalResolveOptions) : option PackageData :=
  match tryNodeResolve_selfPkg id importer options with
  | Some selfPkg => Some selfPkg
  | None =>
      resolvePackageData env (tryNodeResolve_pkgId id)
        (tryNodeResolve_basedir id importer options)
        (preserveSymlinks options)
  end.

(** [mainPkg.peerDependencies?.[pkgName]], as a condition *)
Definition peerDependencyListed (mainPkg : PackageJson) (pkgName : string)
    : bool :=
  match peerDependencies mainPkg with
  | Some deps => JS.truthy (deps !! pkgName)
  | None => false
  end.

(** [mainPkg.peerDependenciesMeta?.[pkgName]?.optional], as a condition *)
Definition peerDependencyOptional (mainPkg : PackageJson) (pkgName : string)
    : bool :=
  match peerDependenciesMeta mainPkg with
  | Some meta =>
      match meta !! pkgName with
      | Some m => flag (optional m)
      | None => false
      end
  | None => false
  end.

(** The [if (!pkg)] block: the optional peer dependency, or not found. *)
Definition tryNodeResolve_noPkg (id : string) (importer : option string)
    (options : InternalResolveOptions) : option PartialResolvedId :=
  let basedir := tryNodeResolve_basedir id importer options in
  if bool_decide (basedir ≠ root options)
     && negb (isModuleBuiltin options id)
     && negb (JS.includes id nul)
     && bareImportRE_test env id
  then
    match findNearestMainPackageData env basedir with
    | Some mainPackageData =>
        let mainPkg := data mainPackageData in
        match getNpmPackageName env id with
        | Some pkgName =>
            if peerDependencyListed mainPkg pkgName
               && peerDependencyOptional mainPkg pkgName
            then Some {| id := optionalPeerDepId +:+ ":" +:+ id +:+ ":"
                               +:+ name mainPkg;
                         moduleSideEffects := None; external := None |}
            else None
        | None => None
        end
    | None => None
    end
  else None.

(** The local function [processResult]. *)
Definition processResult (id_ : string) (deepMatch : bool)
    (pkg : PackageData) (externalize : option bool)
    (resolved : PartialResolvedId) : PartialResolvedId :=
  if negb (flag externalize) then resolved
  else if negb (canExternalizeFile env (id resolved)) then resolved
  else
    let resolvedId :=
      if deepMatch && negb (exports_truthy (exports (data pkg)))
         && negb (bool_decide
                    (path.extname id_ = path.extname (id resolved)))
      then
        let index := JS.indexOf (id resolved) id_ in
        if -1 <? index then JS.slice (id resolved) index None else id_
      else id_ in
    {| id := resolvedId; moduleSideEffects := moduleSideEffects resolved;
       external := Some true |}.

(** The tail of [tryNodeResolve], once [resolved] is a path. *)
Definition tryNodeResolve_finish (id_ : string) (importer : option string)
    (options : InternalResolveOptions) (depsOptimizer : option DepsOptimizer)
    (externalize : option bool) (pkg : PackageData) (resolved : string)
    : PartialResolvedId :=
  let plain r :=
    {| id := r; moduleSideEffects := None; external := None |} in
  let deepMatch := bool_decide (is_Some (deepImportRE_exec env id_)) in
  let pkgId := tryNodeResolve_pkgId id_ in
  if negb (flag (idOnly options))
     && ((negb (flag (scan options)) && isBuild options) || flag externalize)
  then
    processResult id_ deepMatch pkg externalize
      {| id := resolved;
         moduleSideEffects := Some (hasSideEffects pkg resolved);
         external := None |}
  else
    match depsOptimizer with
    | None => plain resolved
    | Some optimizer =>
        if negb (isInNodeModules resolved) || flag (scan options)
        then plain resolved
        else
          let isJsType := isOptimizable env resolved optimizer in
          let skipOptimization :=
            noDiscovery optimizer
            || negb isJsType
            || (JS.truthy importer && isInNodeModules (template importer))
            || default false
                 (flip JS.list_includes pkgId <$> exclude optimizer)
            || default false
                 (flip JS.list_includes id_ <$> exclude optimizer)
            || SPECIAL_QUERY_RE_test env resolved in
          if skipOptimization then
            if JS.truthy (browserHash optimizer) && isJsType
            then plain (injectQuery env resolved
                          ("v=" +:+ template (browserHash optimizer)))
            else plain resolved
          else plain (registerMissingImport optimizer id_ resolved)
    end.

(** [tryNodeResolve] from the package [pkg] on: the entry or deep import
    resolver, then the tail. *)
Definition tryNodeResolve_inPkg (depth : nat) (id_ : string)
    (importer : option string) (options : InternalResolveOptions)
    (depsOptimizer : option DepsOptimizer) (externalize : option bool)
    (pkg : PackageData)
    : result (option PartialResolvedId) * option PackageData :=
  let deepMatch := deepImportRE_exec env id_ in
  let pkgId := tryNodeResolve_pkgId id_ in
  let '(resolved, pkg') :=
    match deepMatch with
    | Some _ =>
        resolveDeepImport depth
          ("." +:+ JS.slice id_ (JS.length pkgId) None) pkg options
    | None => resolvePackageEntry depth id_ pkg options
    end in
  match resolved with
  | Throw e => (Throw e, Some pkg')
  | Ok resolved =>
      if negb (JS.truthy resolved) then (Ok None, Some pkg')
      else
        (Ok (Some (tryNodeResolve_finish id_ importer options
                     depsOptimizer externalize pkg (template resolved))),
         Some pkg')
  end.

(** [tryNodeResolve]: the result, and the descriptor of the resolved
    package afterwards (its cache may have been written). *)
Definition tryNodeResolve (depth : nat) (id_ : string)
    (importer : option string) (options : InternalResolveOptions)
    (depsOptimizer : option DepsOptimizer) (externalize : option bool)
    : result (option PartialResolvedId) * option PackageData :=
  match tryNodeResolve_pkg id_ importer options with
  | None => (Ok (tryNodeResolve_noPkg id_ importer options), None)
  | Some pkg =>
      tryNodeResolve_inPkg depth id_ importer options depsOptimizer
        externalize pkg
  end.

End Resolver.

(** ** A sample environment

    A small in-memory instance of the collaborators, used to run the
    resolver on concrete inputs: a filesystem given by a table of paths, and
    a manifest subsystem given by a table of package descriptors. *)
Module Sample.

Definition ENOENT (p : string) : Error :=
  {| message := "ENOENT: no such file or directory, open '" +:+ p +:+ "'";
     code := Some "ENOENT" |}.

Fixpoint assoc {A} (k : string) (l : list (string * A)) : option A :=
  match l with
  | [] => None
  | (k', v) :: rest => if bool_decide (k = k') then Some v else assoc k rest
  end.

(** [d] is [p] or one of its ancestors. *)
Definition isWithin (p d : string) : bool :=
  bool_decide (p = d) || JS.startsWith p (d +:+ "/").

Definition findNearest (pkgs : list PackageData) (basedir : string)
    : option PackageData :=
  head (filter (λ pkg, isWithin basedir (dir pkg) = true) pkgs).

Definition findNearestMain (pkgs : list PackageData) (basedir : string)
    : option PackageData :=
  head (filter (λ pkg, isWithin basedir (dir pkg) = true
                       ∧ name (data pkg) ≠ EmptyString) pkgs).

(** The package [pkgId] in a [node_modules] directory at [basedir] or
    above it. *)
Definition resolvePackage (pkgs : list PackageData) (pkgId basedir : string)
    (preserveSymlinks : bool) : option PackageData :=
  let suffix := "/node_modules/" +:+ pkgId in
  head (filter (λ pkg,
          JS.endsWith (dir pkg) suffix = true
          ∧ isWithin basedir
              (JS.slice (dir pkg) 0 (Some (- JS.length suffix))) = true)
        pkgs).

(** A target of an export map under a condition list: a string, or the
    first branch of a condition object that is listed (or [default]). *)
Definition exportTarget (conditions : list string) (v : ExportsValue)
    : option string :=
  match v with
  | ExpString s => Some s
  | ExpObject branches =>
      head (omap (λ kv,
              match kv with
              | (cond, ExpString s) =>
                  if JS.list_includes conditions cond
                     || bool_decide (cond = "default")
                  then Some s else None
              | _ => None
              end) branches)
  | _ => None
  end.

Definition lookupExports (field : PackageJson → option ExportsValue)
    (pkg : PackageJson) (key : string) (conditions : list string)
    : result (option (list string)) :=
  match field pkg with
  | Some (ExpObject m) =>
      Ok (match assoc key m with
          | Some v => (λ s, [s]) <$> exportTarget conditions v
          | None => None
          end)
  | Some (ExpString s) => Ok (if bool_decide (key = ".") then Some [s] else None)
  | _ => Ok None
  end.

Definition isWordChar (c : ascii) : bool :=
  let n := nat_of_ascii c in
  ((48 <=? n) && (n <=? 57))%nat || ((65 <=? n) && (n <=? 90))%nat
  || ((97 <=? n) && (n <=? 122))%nat || bool_decide (n = 95%nat).

(** The bare specifiers: a word character or [@] first, no scheme. *)
Definition bareImport (id : string) : bool :=
  match id with
  | String c rest =>
      (isWordChar c || bool_decide (c = "@"%char))
      && negb (JS.startsWith rest ":") && negb (JS.includes rest "://")
  | EmptyString => false
  end.

(** The package name of a deep import: [name/...] or [@scope/name/...]. *)
Definition deepImport (id : string) : option string :=
  match path.segments id with
  | scope :: pkgName :: _ :: _ =>
      if JS.startsWith scope "@" then
        (if bool_decide (scope ≠ "@") && bool_decide (pkgName ≠ EmptyString)
         then Some (scope +:+ "/" +:+ pkgName) else None)
      else if bool_decide (scope = EmptyString) then None else Some scope
  | first :: _ :: _ =>
      if JS.startsWith first "@" || bool_decide (first = EmptyString)
      then None else Some first
  | _ => None
  end.

Definition npmPackageName (importPath : string) : option string :=
  match path.segments importPath with
  | scope :: rest =>
      if JS.startsWith scope "@" then
        match rest with
        | pkgName :: _ =>
            if bool_decide (pkgName = EmptyString) then None
            else Some (scope +:+ "/" +:+ pkgName)
        | [] => None
        end
      else Some scope
  | [] => None
  end.

Definition env (files : list (string * Stats)) (pkgs : list PackageData)
    : Env :=
  {| tryStatSync := λ p, assoc p files;
     existsSync := λ p, bool_decide (is_Some (assoc p files));
     safeRealpathSync := λ p, Ok p;
     readFileSync := λ p,
       match assoc p files with
       | Some IsFile => Ok EmptyString
       | _ => Throw (ENOENT p)
       end;
     normalizePath := path.normalize;
     loadPackageData := λ pkgPath,
       match head (filter (λ pkg, dir pkg +:+ "/package.json" = pkgPath) pkgs) with
       | Some pkg => Ok pkg
       | None => Throw (ENOENT pkgPath)
       end;
     findNearestPackageData := findNearest pkgs;
     findNearestMainPackageData := findNearestMain pkgs;
     resolvePackageData := resolvePackage pkgs;
     conditionSignature := λ options, path.join_segments (conditions options);
     resolveExports := lookupExports exports;
     resolveImports := lookupExports imports;
     hasESMSyntax := λ content, JS.includes content "export";
     DEV_PROD_CONDITION := "development|production";
     SPECIAL_QUERY_RE_test := λ _, false;
     canExternalizeFile := λ _, true;
     bareImportRE_test := bareImport;
     deepImportRE_exec := deepImport;
     getNpmPackageName := npmPackageName;
     injectQuery := λ url query, url +:+ "?" +:+ query;
     isBuiltin := λ patterns id_,
       existsb (λ pat, match pat with
                       | BuiltinName s => bool_decide (s = id_)
                       | BuiltinRE _ => false
                       end) patterns;
     isOptimizable := λ _ _, true |}.

Definition options : InternalResolveOptions :=
  {| mainFields := ["browser"; "module"; "jsnext:main"; "jsnext"];
     conditions := ["module"; "development|production"];
     extensions := [".mjs"; ".js"; ".mts"; ".ts"; ".jsx"; ".tsx"; ".json"];
     dedupe := [];
     builtins := [BuiltinName "fs"; BuiltinName "path"];
     preserveSymlinks := false;
     root := "/proj";
     isBuild := false;
     isProduction := false;
     tryPrefix := None;
     isRequire := None;
     scan := None;
     idOnly := None |}.

Definition manifest (name_ : string) : PackageJson :=
  {| name := name_; main := None; module := None; browser := None;
     exports := None; imports := None; peerDependencies := None;
     peerDependenciesMeta := None; stringFields := ∅ |}.

Definition package (dir_ : string) (data_ : PackageJson) : PackageData :=
  {| dir := dir_; data := data_;
     hasSideEffects := λ _, SideEffectsBool true;
     resolvedCache := ∅ |}.

End Sample.

(** ** The vocabulary of the properties *)

(** A normalized key matches a normalized subpath when they are equal, or
    equal once a trailing [.js] or a trailing [/index.js] is dropped from
    the key. *)
Definition browserKeyMatches (normalizedPath normalizedKey : string) : Prop :=
  normalizedKey = normalizedPath
  ∨ normalizedKey = normalizedPath +:+ ".js"
  ∨ normalizedKey = normalizedPath +:+ "/index.js".

(** A postfix is empty or starts with [?] or [#]. *)
Definition isPostfix (postfix : string) : Prop :=
  postfix = EmptyString
  ∨ JS.startsWith postfix "?" = true ∨ JS.startsWith postfix "#" = true.

(** A bare path holds neither [?] nor [#]. *)
Definition isBare (file : string) : Prop :=
  JS.includes file "?" = false ∧ JS.includes file "#" = false.

Definition single (c : ascii) : string := String c EmptyString.

(** The position of the first [c] in [s]. *)
Fixpoint firstIndex (c : ascii) (s : string) : option nat :=
  match s with
  | EmptyString => None
  | String x s' => if decide (c = x) then Some 0%nat else S <$> firstIndex c s'
  end.

(** Reattach [postfix] to the path of a result. *)
Definition withPostfix (r : result (option string)) (postfix : string)
    : result (option string) :=
  match r with
  | Ok (Some resolved) => Ok (Some (resolved +:+ postfix))
  | Ok None => Ok None
  | Throw e => Throw e
  end.

(** The typed-source extension of a compiled-output extension. *)
Definition tsExtension (ext : string) : option string :=
  if bool_decide (ext = ".js") then Some ".ts"
  else if bool_decide (ext = ".mjs") then Some ".mts"
  else if bool_decide (ext = ".cjs") then Some ".cts"
  else if bool_decide (ext = ".jsx") then Some ".tsx"
  else None.

(** The last code unit of a string. *)
Fixpoint lastChar (s : string) : option ascii :=
  match s with
  | EmptyString => None
  | String c s' =>
      match lastChar s' with
      | Some l => Some l
      | None => Some c
      end
  end.

(** The text of a package entry failure, around the specifier. *)
Definition entryFailurePrefix : string :=
  "Failed to resolve entry for package " +:+ dquote.
Definition entryFailureAdvice : string :=
  dquote
  +:+ ". The package may have incorrect main/module/exports specified in its package.json".

Section Vocabulary.
Context (env : Env).

(** Resolve [file] and reattach [postfix] to a truthy result. *)
Definition reattach (depth : nat) (options : InternalResolveOptions)
    (tryIndex skipPackageJson : bool) (file postfix : string)
    : result (option string) :=
  res ← tryCleanFsResolve env depth file options tryIndex skipPackageJson;
  Ok (if JS.truthy res then Some (template res +:+ postfix) else None).

(** The file-name reading of a [#] in [s +:+ t] plays no part: either it
    does not apply, or it applies to [s +:+ t] only and finds nothing. *)
Definition literalReadingIdle (depth : nat) (options : InternalResolveOptions)
    (tryIndex skipPackageJson : bool) (s t : string) : Prop :=
  hashIsFileName (s +:+ t) = false
  ∨ (hashIsFileName s = false
     ∧ ∃ res,
         tryCleanFsResolve env depth
           (if JS.indexOf (s +:+ t) "#" <? JS.indexOf (s +:+ t) "?"
            then JS.slice (s +:+ t) 0 (Some (JS.indexOf (s +:+ t) "?"))
            else s +:+ t)
           options tryIndex skipPackageJson = Ok res
         ∧ JS.truthy res = false).


End Vocabulary.

(** ** The vocabulary of the further properties *)

(** [browserEntry] of [tryResolveBrowserEntry]: the [browser] field when it
    is a string, its entry for [.] when it is a table. *)
Definition browserEntryOf (data : PackageJson) : option string :=
  match browser data with
  | Some (BrowserString s) => Some s
  | Some (BrowserObject m) => browser_truthy (tableLookup "." m)
  | None => None
  end.

Section Phases.
Context (env : Env).

(** An extension whose probe finds nothing. *)
Definition probeMisses (filePath : string) (preserveSymlinks : bool)
    (ext : string) : Prop :=
  ∃ res, tryResolveRealFile env (filePath +:+ ext) preserveSymlinks = Ok res
         ∧ JS.truthy res = false.

(** Resolving symbolic links cannot fail: they are preserved, or
    [safeRealpathSync] returns for every path. *)
Definition realpathNeverFails (options : InternalResolveOptions) : Prop :=
  preserveSymlinks options = true ∨ ∀ p, ∃ q, safeRealpathSync env p = Ok q.

(** The probes of [tryCleanFsResolve] beside [file], in its parent
    directory: the typed-source swap, the extensions, the prefix. *)
Definition siblingProbes (file : string) (options : InternalResolveOptions)
    : result (option string) :=
  let possibleJsToTs := isPossibleTsOutput file in
  if possibleJsToTs
     || negb (bool_decide (extensions options = []))
     || JS.truthy (tryPrefix options)
  then
    let dirPath := path.dirname file in
    if isDirectory env dirPath then
      (if possibleJsToTs then
         let fileExt := path.extname file in
         let fileName := JS.slice file 0 (Some (- JS.length fileExt)) in
         tryResolveRealFile env (fileName +:+ JS.replace fileExt "js" "ts")
           (preserveSymlinks options)
         orelse
         (if bool_decide (fileExt = ".js")
          then tryResolveRealFile env (fileName +:+ ".tsx")
                 (preserveSymlinks options)
          else Ok None)
       else Ok None)
      orelse
      tryResolveRealFileWithExtensions env file (extensions options)
        (preserveSymlinks options)
      orelse
      (if JS.truthy (tryPrefix options) then
         let prefixed :=
           dirPath +:+ "/" +:+ template (tryPrefix options)
           +:+ path.basename file in
         tryResolveRealFile env prefixed (preserveSymlinks options)
         orelse
         tryResolveRealFileWithExtensions env prefixed (extensions options)
           (preserveSymlinks options)
       else Ok None)
    else Ok None
  else Ok None.

(** The index file of the directory [dirPath], plain and then prefixed. *)
Definition indexProbes (dirPath : string) (options : InternalResolveOptions)
    : result (option string) :=
  tryResolveRealFileWithExtensions env (dirPath +:+ "/index")
    (extensions options) (preserveSymlinks options)
  orelse
  (if JS.truthy (tryPrefix options) then
     tryResolveRealFileWithExtensions env
       (dirPath +:+ "/" +:+ template (tryPrefix options) +:+ "index")
       (extensions options) (preserveSymlinks options)
   else Ok None)
  orelse Ok None.

(** The body of the [try] of [tryCleanFsResolve] for a manifest that
    exists: its real path, the descriptor, the package entry. *)
Definition manifestEntry
    (resolveEntry :
       string → PackageData → InternalResolveOptions → result (option string))
    (dirPath : string) (options : InternalResolveOptions)
    : result (option string) :=
  let pkgPath := dirPath +:+ "/package.json" in
  pkgPath' ← (if negb (preserveSymlinks options)
              then safeRealpathSync env pkgPath else Ok pkgPath);
  pkg ← loadPackageData env pkgPath';
  resolveEntry dirPath pkg options.

(** A main field that yields no entry: the [browser] field when
    [tryResolveBrowserEntry] gives nothing, another field when the manifest
    holds no string under it. *)
Definition mainFieldMisses (depth : nat) (dir : string) (data : PackageJson)
    (options : InternalResolveOptions) (field : string) : Prop :=
  if bool_decide (field = "browser")
  then ∃ v, tryResolveBrowserEntry env depth dir data options = Ok v
            ∧ JS.truthy v = false
  else stringField data field = None.

(** A main field that ends the search with the entry [v]. *)
Definition mainFieldYields (depth : nat) (dir : string) (data : PackageJson)
    (options : InternalResolveOptions) (field : string) (v : option string)
    : Prop :=
  if bool_decide (field = "browser")
  then tryResolveBrowserEntry env depth dir data options = Ok v
       ∧ JS.truthy v = true
  else ∃ s, stringField data field = Some s ∧ v = Some s.

End Phases.

(** ** Sample files and packages *)

Definition swapFiles : list (string * Stats) :=
  [("/proj/src", IsDirectory);
   ("/proj/src/x.ts", IsFile);
   ("/proj/src/x.js.js", IsFile)].

Definition hashFiles : list (string * Stats) :=
  [("/proj/node_modules/pkg", IsDirectory);
   ("/proj/node_modules/pkg/a", IsFile);
   ("/proj/node_modules/pkg/a#b.js", IsFile)].

Definition exportsManifest : PackageJson :=
  {| name := "pkg"; main := None; module := None; browser := None;
     exports := Some (ExpObject [(".", ExpString "./index.js");
                                 ("./sub", ExpString "./src/sub.js")]);
     imports := None; peerDependencies := None;
     peerDependenciesMeta := None; stringFields := ∅ |}.

(** A dependency with an export map that lists [.] and [./sub]. *)
Definition exportsPackage : PackageData :=
  Sample.package "/proj/node_modules/pkg" exportsManifest.

Definition exportsFiles : list (string * Stats) :=
  [("/proj/node_modules/pkg", IsDirectory);
   ("/proj/node_modules/pkg/index.js", IsFile);
   ("/proj/node_modules/pkg/src", IsDirectory);
   ("/proj/node_modules/pkg/src/sub.js", IsFile)].

(** A dependency whose [main] names a file that does not exist. *)
Definition brokenPackage : PackageData :=
  Sample.package "/proj/node_modules/broken"
    {| name := "broken"; main := Some "missing.js"; module := None;
       browser := None; exports := None; imports := None;
       peerDependencies := None; peerDependenciesMeta := None;
       stringFields := ∅ |}.

(** The consuming package [foo] declares [bar] as an optional peer. *)
Definition consumerPackage : PackageData :=
  Sample.package "/proj/node_modules/foo"
    {| name := "foo"; main := Some "index.js"; module := None;
       browser := None; exports := None; imports := None;
       peerDependencies := Some {["bar" := "*"]};
       peerDependenciesMeta := Some {["bar" := {| optional := Some true |}]};
       stringFields := ∅ |}.

Definition consumerFiles : list (string * Stats) :=
  [("/proj/node_modules/foo", IsDirectory);
   ("/proj/node_modules/foo/index.js", IsFile)].

(** A workspace package that imports its own subpath [pkg/sub]. *)
Definition selfPackage : PackageData :=
  Sample.package "/proj/packages/pkg" exportsManifest.

Definition selfFiles : list (string * Stats) :=
  [("/proj/packages/pkg", IsDirectory);
   ("/proj/packages/pkg/src", IsDirectory);
   ("/proj/packages/pkg/src/main.js", IsFile);
   ("/proj/packages/pkg/src/sub.js", IsFile)].

(** A dependency whose browser table maps its root entry to [false]. *)
Definition shimPackage : PackageData :=
  Sample.package "/proj/node_modules/shim"
    {| name := "shim"; main := Some "index.js"; module := None;
       browser := Some (BrowserObject [("./index.js", BrowserFalse)]);
       exports := None; imports := None; peerDependencies := None;
       peerDependenciesMeta := None; stringFields := ∅ |}.

Definition shimFiles : list (string * Stats) :=
  [("/proj/node_modules/shim", IsDirectory);
   ("/proj/node_modules/shim/index.js", IsFile)].

(** A dependency directory with a manifest and an index file. *)
Definition dirFiles : list (string * Stats) :=
  [("/proj/node_modules", IsDirectory);
   ("/proj/node_modules/broken", IsDirectory);
   ("/proj/node_modules/broken/package.json", IsFile);
   ("/proj/node_modules/broken/index.js", IsFile)].

(** Sass partials: the prefix [_] and the extension [.scss]. *)
Definition partialOptions : InternalResolveOptions :=
  {| mainFields := ["sass"; "style"];
     conditions := ["sass"; "style"];
     extensions := [".scss"; ".sass"; ".css"];
     dedupe := [];
     builtins := [];
     preserveSymlinks := false;
     root := "/proj";
     isBuild := false;
     isProduction := false;
     tryPrefix := Some "_";
     isRequire := None;
     scan := None;
     idOnly := None |}.

Definition partialFiles : list (string * Stats) :=
  [("/proj/src", IsDirectory);
   ("/proj/src/_part.scss", IsFile)].

(** The options of a project that dedupes [pkg]. *)
Definition dedupeOptions : InternalResolveOptions :=
  {| mainFields := ["browser"; "module"; "jsnext:main"; "jsnext"];
     conditions := ["module"; "development|production"];
     extensions := [".mjs"; ".js"; ".mts"; ".ts"; ".jsx"; ".tsx"; ".json"];
     dedupe := ["pkg"];
     builtins := [BuiltinName "fs"; BuiltinName "path"];
     preserveSymlinks := false;
     root := "/proj";
     isBuild := false;
     isProduction := false;
     tryPrefix := None;
     isRequire := None;
     scan := None;
     idOnly := None |}.

(** A dependency whose export map sends [./lib] to a directory. *)
Definition libPackage : PackageData :=
  Sample.package "/proj/node_modules/pkg"
    {| name := "pkg"; main := None; module := None; browser := None;
       exports := Some (ExpObject [("./lib", ExpString "./lib")]);
       imports := None; peerDependencies := None;
       peerDependenciesMeta := None; stringFields := ∅ |}.

Definition libFiles : list (string * Stats) :=
  [("/proj/node_modules/pkg", IsDirectory);
   ("/proj/node_modules/pkg/lib", IsDirectory);
   ("/proj/node_modules/pkg/lib/index.js", IsFile)].

(** A dependency with a [browser] and a [module] entry. *)
Definition dualPackage : PackageData :=
  Sample.package "/proj/node_modules/dual"
    {| name := "dual"; main := Some "main.js"; module := Some "module.js";
       browser := Some (BrowserString "browser.js");
       exports := None; imports := None; peerDependencies := None;
       peerDependenciesMeta := None; stringFields := ∅ |}.

Definition dualFiles : list (string * Stats) :=
  [("/proj/node_modules/dual", IsDirectory);
   ("/proj/node_modules/dual/main.js", IsFile);
   ("/proj/node_modules/dual/module.js", IsFile);
   ("/proj/node_modules/dual/browser.js", IsFile)].

(** A dependency with a script entry and a style sheet as index. *)
Definition sassPackage : PackageData :=
  Sample.package "/proj/node_modules/ui"
    {| name := "ui"; main := Some "index.js"; module := None;
       browser := None; exports := None; imports := None;
       peerDependencies := None; peerDependenciesMeta := None;
       stringFields := ∅ |}.

Definition sassFiles : list (string * Stats) :=
  [("/proj/node_modules", IsDirectory);
   ("/proj/node_modules/ui", IsDirectory);
   ("/proj/node_modules/ui/package.json", IsFile);
   ("/proj/node_modules/ui/index.js", IsFile);
   ("/proj/node_modules/ui/index.scss", IsFile)].

(** * Properties *)

(** ** The string and path models on samples *)

Example path_samples :
  path.normalize "./foo/index.js" = "foo/index.js"
  ∧ path.normalize "./foo" = "foo"
  ∧ path.normalize "/a/./b/../c//d/" = "/a/c/d/"
  ∧ path.normalize "../../a/.." = "../.."
  ∧ path.normalize "/../a" = "/a"
  ∧ path.join "/p/pkg" "./lib/x.js?a/../b" = "/p/pkg/lib/b"
  ∧ path.dirname "/a/b/c.js" = "/a/b"
  ∧ path.dirname "/a" = "/"
  ∧ path.dirname "a//b" = "a/"
  ∧ path.dirname "//a" = "//"
  ∧ path.dirname "a/" = "."
  ∧ path.basename "/a/b.js//" = "b.js"
  ∧ path.extname "/a/b.test.js" = ".js"
  ∧ path.extname "/a/.js" = ""
  ∧ path.extname "/a/.." = ""
  ∧ path.extname "a.js/" = ".js"
  ∧ path.extname "a." = ".".
Proof. repeat split; reflexivity. Qed.

Example js_samples :
  JS.indexOf "a#b?c" "#" = 1
  ∧ JS.indexOf "abc" "?" = -1
  ∧ JS.slice "abcdef" 0 (Some (-2)) = "abcd"
  ∧ JS.slice "abcdef" 0 (Some (-0)) = ""
  ∧ JS.slice "abcdef" 4 None = "ef"
  ∧ JS.replace ".mjs" "js" "ts" = ".mts"
  ∧ JS.endsWith "x.jsx" ".jsx" = true
  ∧ JS.endsWith "sx" ".jsx" = false.
Proof. repeat split; reflexivity. Qed.

(** ** Strings *)

Section StringFacts.

Lemma append_nil (b : string) : EmptyString +:+ b = b.
Proof. reflexivity. Qed.

Lemma append_cons (c : ascii) (a b : string) :
  String c a +:+ b = String c (a +:+ b).
Proof. reflexivity. Qed.

Lemma length_append (a b : string) :
  String.length (a +:+ b) = (String.length a + String.length b)%nat.
Proof.
  induction a as [|c a IH]; [done|].
  rewrite append_cons. simpl. by rewrite IH.
Qed.

Lemma append_empty_r (a : string) : a +:+ EmptyString = a.
Proof.
  induction a as [|c a IH]; [done|]. by rewrite append_cons, IH.
Qed.

Lemma append_assoc (a b c : string) : (a +:+ b) +:+ c = a +:+ b +:+ c.
Proof.
  induction a as [|x a IH]; [done|]. by rewrite !append_cons, IH.
Qed.

Lemma substring_zero_zero (s : string) : String.substring 0 0 s = EmptyString.
Proof. by destruct s. Qed.

Lemma substring_whole (s : string) :
  String.substring 0 (String.length s) s = s.
Proof. induction s as [|c s IH]; simpl; [done | by rewrite IH]. Qed.

Lemma substring_prefix (a b : string) :
  String.substring 0 (String.length a) (a +:+ b) = a.
Proof.
  induction a as [|c a IH].
  - apply substring_zero_zero.
  - rewrite append_cons. simpl. by rewrite IH.
Qed.

Lemma substring_suffix (a b : string) :
  String.substring (String.length a) (String.length b) (a +:+ b) = b.
Proof.
  induction a as [|c a IH]; [apply substring_whole|].
  rewrite append_cons. simpl. done.
Qed.

Lemma substring_split (n : nat) (s : string) :
  (n ≤ String.length s)%nat →
  s = String.substring 0 n s +:+ String.substring n (String.length s - n) s.
Proof.
  revert s; induction n as [|n IH]; intros s Hn.
  - rewrite substring_zero_zero, Nat.sub_0_r, substring_whole. done.
  - destruct s as [|c s]; simpl in *; [lia|].
    rewrite append_cons. f_equal. apply IH. lia.
Qed.

(** [s.slice(n)] drops the first [n] code units. *)
Lemma slice_from_length (a b : string) :
  JS.slice (a +:+ b) (JS.length a) None = b.
Proof.
  unfold JS.slice, JS.clamp, JS.length. rewrite length_append.
  destruct (Z.ltb_spec (Z.of_nat (String.length a)) 0); [lia|].
  rewrite Z.min_l by lia.
  replace (Z.to_nat (Z.of_nat (String.length a))) with (String.length a) by lia.
  replace (Z.to_nat _) with (String.length b) by lia.
  apply substring_suffix.
Qed.

(** [s.endsWith(suf)] holds when [suf] ends [s]. *)
Lemma endsWith_spec (s suf : string) :
  JS.endsWith s suf = true ↔ ∃ pre, s = pre +:+ suf.
Proof.
  unfold JS.endsWith. rewrite andb_true_iff, bool_decide_eq_true, Z.leb_le.
  unfold JS.length. split.
  - intros [Hlen Hsl].
    exists (String.substring 0 (String.length s - String.length suf) s).
    unfold JS.slice, JS.clamp, JS.length in Hsl.
    destruct (Z.ltb_spec
                (Z.of_nat (String.length s) - Z.of_nat (String.length suf)) 0)
      as [?|_]; [lia|].
    rewrite Z.min_l in Hsl by lia.
    assert (Z.to_nat (Z.of_nat (String.length s)
                      - Z.of_nat (String.length suf))
            = (String.length s - String.length suf)%nat) as E1 by lia.
    assert (Z.to_nat (Z.of_nat (String.length s)
                      - (Z.of_nat (String.length s)
                         - Z.of_nat (String.length suf)))
            = (String.length s - (String.length s - String.length suf))%nat)
      as E2 by lia.
    rewrite E1, E2 in Hsl.
    etrans; [apply (substring_split
                      (String.length s - String.length suf) s); lia|].
    f_equal. exact Hsl.
  - intros [pre ->]. rewrite length_append. split; [lia|].
    replace (Z.of_nat (String.length pre + String.length suf)
             - Z.of_nat (String.length suf))
      with (JS.length pre) by (unfold JS.length; lia).
    apply slice_from_length.
Qed.

(** [s.slice(0, -suf.length)] removes a suffix that is not empty. *)
Lemma slice_drop_suffix (pre suf : string) :
  suf ≠ EmptyString →
  JS.slice (pre +:+ suf) 0 (Some (- JS.length suf)) = pre.
Proof.
  intros Hsuf. unfold JS.slice, JS.clamp, JS.length. rewrite length_append.
  assert (0 < String.length suf)%nat by (destruct suf; [done | simpl; lia]).
  destruct (Z.ltb_spec (- Z.of_nat (String.length suf)) 0); [|lia].
  change (0 <? 0) with false. cbv iota. rewrite Z.min_l by lia.
  rewrite Z.max_l by lia. change (Z.to_nat 0) with 0%nat.
  replace (Z.to_nat _) with (String.length pre) by lia.
  apply substring_prefix.
Qed.

Lemma append_inj_r (a b1 b2 : string) : a +:+ b1 = a +:+ b2 → b1 = b2.
Proof.
  induction a as [|c a IH]; [done|]. rewrite !append_cons. intros [= ?]; auto.
Qed.

Lemma append_inj_l (a1 a2 b : string) : a1 +:+ b = a2 +:+ b → a1 = a2.
Proof.
  revert a2; induction a1 as [|c a1 IH]; intros a2 Heq.
  - destruct a2 as [|d a2]; [done|].
    apply (f_equal String.length) in Heq.
    rewrite append_nil, length_append in Heq. simpl in Heq. lia.
  - destruct a2 as [|d a2].
    + apply (f_equal String.length) in Heq.
      rewrite append_nil, length_append in Heq. simpl in Heq. lia.
    + rewrite !append_cons in Heq. injection Heq as -> Heq.
      f_equal. by apply IH.
Qed.

(** The test of [equalWithoutSuffix] for a suffix that is not empty. *)
Lemma equalWithoutSuffix_spec (p key suffix : string) :
  suffix ≠ EmptyString →
  equalWithoutSuffix p key suffix = true ↔ key = p +:+ suffix.
Proof.
  intros Hsuf. unfold equalWithoutSuffix.
  rewrite andb_true_iff, bool_decide_eq_true, endsWith_spec. split.
  - intros [[pre ->] Hsl]. rewrite slice_drop_suffix in Hsl by done.
    by subst.
  - intros ->. split; [by eexists|]. by apply slice_drop_suffix.
Qed.

End StringFacts.

(** ** The condition list *)

Section Conditions.
Context (env : Env).

(** C4. [getConditions] keeps the configured conditions in their order,
    with the placeholder condition replaced by [production] when
    [isProduction] holds and by [development] otherwise, and appends
    exactly one entry, [require] when [isRequire] holds and [import]
    otherwise: the result is one longer than the input, its last entry is
    [require] exactly when [isRequire] holds, and an entry that is not the
    placeholder is found unchanged at its position. *)
Theorem getConditions_order (conditions : list string) (isProduction : bool)
    (isRequire : option bool) :
  let resolved := getConditions env conditions isProduction isRequire in
  length resolved = S (length conditions)
  ∧ last resolved = Some (if flag isRequire then "require" else "import")
  ∧ (last resolved = Some "require" ↔ flag isRequire = true)
  ∧ (∀ (i : nat) (condition : string),
       conditions !! i = Some condition →
       resolved !! i
       = Some (if bool_decide (condition = DEV_PROD_CONDITION env)
               then (if isProduction then "production" else "development")
               else condition))
  ∧ (∀ (i : nat) (condition : string),
       conditions !! i = Some condition →
       condition ≠ DEV_PROD_CONDITION env →
       resolved !! i = Some condition).
Proof.
  cbn zeta. unfold getConditions.
  set (f := λ condition : string, _).
  assert (∀ x, length ((f <$> conditions) ++ [x]) = S (length conditions)) as Hlen.
  { intros x. rewrite length_app, length_fmap. simpl. lia. }
  assert (∀ x (i : nat) condition, conditions !! i = Some condition →
            ((f <$> conditions) ++ [x]) !! i = Some (f condition)) as Hnth.
  { intros x i condition Hi. rewrite lookup_app_l.
    - by rewrite list_lookup_fmap, Hi.
    - rewrite length_fmap. by eapply lookup_lt_Some. }
  destruct (flag isRequire); rewrite last_snoc;
    (split; [apply Hlen|]); (split; [done|]);
    (split; [split; [done || intros [=] | done || intros [=]]|]);
    (split; [intros i c Hi; by rewrite (Hnth _ _ _ Hi) |]);
    intros i c Hi Hne; rewrite (Hnth _ _ _ Hi); unfold f;
    by rewrite bool_decide_eq_false_2.
Qed.

End Conditions.

(** ** The browser table *)

Section BrowserField.

Lemma mapWithBrowserField_test (normalizedPath normalizedKey : string) :
  bool_decide (normalizedPath = normalizedKey)
  || equalWithoutSuffix normalizedPath normalizedKey ".js"
  || equalWithoutSuffix normalizedPath normalizedKey "/index.js" = true
  ↔ browserKeyMatches normalizedPath normalizedKey.
Proof.
  unfold browserKeyMatches.
  rewrite !orb_true_iff, bool_decide_eq_true, !equalWithoutSuffix_spec by done.
  intuition congruence.
Qed.

Lemma mapWithBrowserField_loop_Some (normalizedPath : string)
    (map : list (string * BrowserValue)) (value : BrowserValue) :
  mapWithBrowserField_loop normalizedPath map = Some value
  ↔ ∃ before key after,
      map = before ++ (key, value) :: after
      ∧ browserKeyMatches normalizedPath (path.normalize key)
      ∧ Forall (λ kv, ¬ browserKeyMatches normalizedPath
                        (path.normalize kv.1)) before.
Proof.
  induction map as [|[key v] rest IH]; simpl.
  - split; [done|]. intros (before & k & after & Heq & _).
    by destruct before.
  - destruct (_ || _ || _) eqn:Htest.
    + apply mapWithBrowserField_test in Htest. split.
      * intros [= ->]. exists [], key, rest. by repeat split.
      * intros (before & k & after & Heq & Hk & Hbefore).
        destruct before as [|[k' v'] before]; simplify_eq/=; [done|].
        by inversion Hbefore.
    + assert (¬ browserKeyMatches normalizedPath (path.normalize key)) as Hno.
      { rewrite <- mapWithBrowserField_test, Htest. done. }
      rewrite IH. split.
      * intros (before & k & after & -> & Hk & Hbefore).
        exists ((key, v) :: before), k, after. repeat split; [done|].
        by constructor.
      * intros (before & k & after & Heq & Hk & Hbefore).
        destruct before as [|[k' v'] before]; simplify_eq/=; [done|].
        exists before, k, after. repeat split; [done|].
        by inversion Hbefore.
Qed.

Lemma mapWithBrowserField_loop_None (normalizedPath : string)
    (map : list (string * BrowserValue)) :
  mapWithBrowserField_loop normalizedPath map = None
  ↔ Forall (λ kv, ¬ browserKeyMatches normalizedPath (path.normalize kv.1))
      map.
Proof.
  induction map as [|[key v] rest IH]; simpl; [done|].
  destruct (_ || _ || _) eqn:Htest.
  - apply mapWithBrowserField_test in Htest. split; [done|].
    by inversion 1.
  - rewrite IH. split.
    + intros Hrest. constructor; [|done]. simpl.
      rewrite <- mapWithBrowserField_test, Htest. done.
    + by inversion 1.
Qed.

(** C8. [mapWithBrowserField] normalizes the subpath and each key, and
    returns the value of the first key of the table, in iteration order,
    whose normalized form is the normalized subpath, or is it once a
    trailing [.js] or a trailing [/index.js] is dropped from the key; it
    returns no mapping exactly when no key matches. The key
    [./foo/index.js] matches the subpath [./foo]. *)
Theorem mapWithBrowserField_first_match (relativePathInPkgDir : string)
    (map : list (string * BrowserValue)) :
  (∀ value,
     mapWithBrowserField relativePathInPkgDir map = Some value
     ↔ ∃ before key after,
         map = before ++ (key, value) :: after
         ∧ browserKeyMatches (path.normalize relativePathInPkgDir)
             (path.normalize key)
         ∧ Forall (λ kv, ¬ browserKeyMatches
                           (path.normalize relativePathInPkgDir)
                           (path.normalize kv.1)) before)
  ∧ (mapWithBrowserField relativePathInPkgDir map = None
     ↔ Forall (λ kv, ¬ browserKeyMatches
                       (path.normalize relativePathInPkgDir)
                       (path.normalize kv.1)) map)
  ∧ (∀ value after,
       mapWithBrowserField "./foo" (("./foo/index.js", value) :: after)
       = Some value).
Proof.
  split; [|split].
  - intros value. apply mapWithBrowserField_loop_Some.
  - apply mapWithBrowserField_loop_None.
  - done.
Qed.

End BrowserField.

(** ** Probing the filesystem *)

Section OrElse.

Lemma or_else_truthy (first next : result (option string)) r :
  first = Ok r → JS.truthy r = true → first orelse next = Ok r.
Proof. intros -> Hr. unfold or_else. simpl. by rewrite Hr. Qed.

Lemma or_else_falsy (first next : result (option string)) r :
  first = Ok r → JS.truthy r = false → first orelse next = next.
Proof. intros -> Hr. unfold or_else. simpl. by rewrite Hr. Qed.

Lemma or_else_throw (first next : result (option string)) e :
  first = Throw e → first orelse next = Throw e.
Proof. by intros ->. Qed.

Lemma truthy_Some (s : string) : JS.truthy (Some s) = true ↔ s ≠ EmptyString.
Proof.
  unfold JS.truthy. rewrite negb_true_iff, bool_decide_eq_false. done.
Qed.

Lemma truthy_template (v : option string) :
  JS.truthy v = true → v = Some (template v).
Proof. by destruct v. Qed.

End OrElse.

(** ** Postfixes *)

Section Postfix.

Lemma startsWith_empty (s : string) : JS.startsWith s EmptyString = true.
Proof. by destruct s. Qed.

Lemma indexOf_from_firstIndex (s : string) (c : ascii) (i : Z) :
  JS.indexOf_from s (single c) i
  = match firstIndex c s with Some n => i + Z.of_nat n | None => -1 end.
Proof.
  revert i; induction s as [|x s IH]; intros i; [done|].
  simpl. destruct (decide (c = x)) as [->|Hne].
  - rewrite startsWith_empty. lia.
  - rewrite IH. destruct (firstIndex c s); simpl; lia.
Qed.

Lemma indexOf_firstIndex (s : string) (c : ascii) :
  JS.indexOf s (single c)
  = match firstIndex c s with Some n => Z.of_nat n | None => -1 end.
Proof.
  unfold JS.indexOf. rewrite indexOf_from_firstIndex.
  by destruct (firstIndex c s).
Qed.

Lemma includes_firstIndex (s : string) (c : ascii) :
  JS.includes s (single c) = bool_decide (is_Some (firstIndex c s)).
Proof.
  unfold JS.includes. rewrite indexOf_firstIndex.
  destruct (firstIndex c s) as [n|].
  - rewrite bool_decide_eq_true_2 by eauto. apply Z.leb_le. lia.
  - rewrite bool_decide_eq_false_2; [done|]. by intros [? [=]].
Qed.

Lemma firstIndex_app (c : ascii) (a b : string) :
  firstIndex c (a +:+ b)
  = match firstIndex c a with
    | Some n => Some n
    | None => (λ n, String.length a + n)%nat <$> firstIndex c b
    end.
Proof.
  induction a as [|x a IH].
  - rewrite append_nil. simpl. by destruct (firstIndex c b).
  - rewrite append_cons. simpl. destruct (decide (c = x)); [done|].
    rewrite IH. destruct (firstIndex c a); [done|].
    by destruct (firstIndex c b).
Qed.

(** A first occurrence splits the string around it. *)
Lemma firstIndex_split (c : ascii) (s : string) (n : nat) :
  firstIndex c s = Some n →
  ∃ pre post, s = pre +:+ String c post
              ∧ String.length pre = n ∧ firstIndex c pre = None.
Proof.
  revert n; induction s as [|x s IH]; intros n; [done|].
  simpl. destruct (decide (c = x)) as [->|Hne].
  - intros [= <-]. by exists EmptyString, s.
  - destruct (firstIndex c s) as [m|] eqn:Hm; [|done].
    intros [= <-]. destruct (IH m eq_refl) as (pre & post & -> & Hlen & Hpre).
    exists (String x pre), post. rewrite append_cons. simpl.
    rewrite Hlen, Hpre. by destruct (decide (c = x)).
Qed.

Lemma isBare_firstIndex (file : string) :
  isBare file
  ↔ firstIndex "?"%char file = None ∧ firstIndex "#"%char file = None.
Proof.
  unfold isBare.
  change "?" with (single "?"). change "#" with (single "#").
  rewrite !includes_firstIndex, !bool_decide_eq_false.
  rewrite <- !eq_None_not_Some. done.
Qed.

Lemma startsWith_single (s : string) (c : ascii) :
  JS.startsWith s (single c) = true ↔ ∃ rest, s = String c rest.
Proof.
  destruct s as [|x s]; simpl.
  - split; [done | by intros [? [=]]].
  - destruct (decide (c = x)) as [->|Hne].
    + split; [by eexists | by destruct s].
    + split; [done | intros [? [=]]; congruence].
Qed.

(** [cleanUrl] cuts at the first [?] or [#]. *)
Lemma cleanUrl_split (p : string) :
  ∃ postfix,
    p = cleanUrl p +:+ postfix ∧ isPostfix postfix ∧ isBare (cleanUrl p).
Proof.
  setoid_rewrite isBare_firstIndex.
  induction p as [|x p (postfix & Hp & Hpost & Hq & Hh)].
  - exists EmptyString. repeat split; by left.
  - simpl. destruct (bool_decide (x = "?"%char) || bool_decide (x = "#"%char))
      eqn:Hx.
    + exists (String x p). rewrite append_nil. repeat split.
      apply orb_true_iff in Hx as [Hx|Hx]; apply bool_decide_eq_true in Hx;
        subst x; [right; left | right; right];
        apply (startsWith_single _ _); by eexists.
    + apply orb_false_iff in Hx as [Hx1 Hx2].
      apply bool_decide_eq_false in Hx1, Hx2.
      exists postfix. rewrite append_cons, <- Hp. simpl. rewrite Hq, Hh.
      repeat split; [done| |]; by rewrite decide_False.
Qed.

(** A bare path followed by a postfix is cut back to the bare path. *)
Lemma cleanUrl_bare (file postfix : string) :
  isBare file → isPostfix postfix → cleanUrl (file +:+ postfix) = file.
Proof.
  rewrite isBare_firstIndex. intros [Hq Hh] Hpost.
  induction file as [|x file IH].
  - rewrite append_nil.
    destruct Hpost as [->|[Hpost|Hpost]]; [done| |];
      apply (startsWith_single _ _) in Hpost as [rest ->]; done.
  - rewrite append_cons. simpl in *.
    destruct (decide ("?"%char = x)) as [|Hx1]; [done|].
    destruct (decide ("#"%char = x)) as [|Hx2]; [done|].
    rewrite !bool_decide_eq_false_2 by congruence. simpl.
    rewrite IH; [done| |].
    + by destruct (firstIndex "?" file).
    + by destruct (firstIndex "#" file).
Qed.

Lemma splitFileAndPostfix_spec (p : string) :
  ∃ file postfix,
    splitFileAndPostfix p = (file, postfix)
    ∧ p = file +:+ postfix ∧ isBare file ∧ isPostfix postfix.
Proof.
  destruct (cleanUrl_split p) as (postfix & Hp & Hpost & Hbare).
  exists (cleanUrl p), postfix. split; [|done].
  unfold splitFileAndPostfix. f_equal.
  rewrite Hp at 1. apply slice_from_length.
Qed.

Lemma splitFileAndPostfix_bare (file postfix : string) :
  isBare file → isPostfix postfix →
  splitFileAndPostfix (file +:+ postfix) = (file, postfix).
Proof.
  intros Hbare Hpost. unfold splitFileAndPostfix.
  rewrite cleanUrl_bare by done. f_equal. apply slice_from_length.
Qed.

End Postfix.

Section PostfixFacts.

Lemma slice_at_length (s : string) :
  JS.slice s (JS.length s) None = EmptyString.
Proof.
  rewrite <- (append_empty_r s) at 1. apply slice_from_length.
Qed.

Lemma slice_prefix (pre rest : string) :
  JS.slice (pre +:+ rest) 0 (Some (JS.length pre)) = pre.
Proof.
  unfold JS.slice, JS.clamp, JS.length. rewrite length_append.
  change (0 <? 0) with false. cbv iota.
  destruct (Z.ltb_spec (Z.of_nat (String.length pre)) 0); [lia|].
  rewrite !Z.min_l by lia. change (Z.to_nat 0) with 0%nat.
  replace (Z.to_nat _) with (String.length pre) by lia.
  apply substring_prefix.
Qed.

Lemma truthy_append (a b : string) :
  JS.truthy (Some a) = true → JS.truthy (Some (a +:+ b)) = true.
Proof. rewrite !truthy_Some. by destruct a. Qed.

(** The file-name reading of a [#]: the path up to its first [?], when the
    first [#] comes before it. *)
Lemma hash_literal (fsPath : string) :
  let hashIndex := JS.indexOf fsPath "#" in
  let queryIndex := JS.indexOf fsPath "?" in
  let literal := if hashIndex <? queryIndex
                 then JS.slice fsPath 0 (Some queryIndex) else fsPath in
  let remainder := JS.slice fsPath (JS.length literal) None in
  0 ≤ hashIndex → queryIndex < 0 ∨ hashIndex < queryIndex →
  fsPath = literal +:+ remainder
  ∧ JS.includes literal "#" = true
  ∧ JS.includes literal "?" = false
  ∧ (remainder = EmptyString ∨ JS.startsWith remainder "?" = true).
Proof.
  intros hashIndex queryIndex literal remainder Hhash Hquery.
  subst literal remainder.
  destruct (Z.ltb_spec hashIndex queryIndex) as [Hlt|Hge].
  - subst hashIndex queryIndex.
    change "?" with (single "?") in *. change "#" with (single "#") in *.
    rewrite !indexOf_firstIndex in *.
    destruct (firstIndex "?" fsPath) as [q|] eqn:Hq; [|lia].
    destruct (firstIndex_split _ _ _ Hq) as (pre & post & -> & <- & Hpre).
    change (Z.of_nat (String.length pre)) with (JS.length pre).
    rewrite slice_prefix, slice_from_length. repeat split.
    + rewrite !includes_firstIndex.
      rewrite firstIndex_app in Hhash, Hlt.
      destruct (firstIndex "#" pre) as [h|]; [by apply bool_decide_eq_true_2|].
      destruct (firstIndex "#" (String "?" post)); simpl in *; lia.
    + rewrite includes_firstIndex, Hpre. done.
    + right. apply (startsWith_single _ _). by eexists.
  - assert (queryIndex < 0) as Hq by lia.
    rewrite slice_at_length, append_empty_r. repeat split.
    + unfold JS.includes. by apply Z.leb_le.
    + unfold JS.includes. by apply Z.leb_gt.
    + by left.
Qed.

End PostfixFacts.

Section HashHandling.
Context (env : Env).

(** When the branch for a [#] in a dependency path does not apply, the
    path is split at its first [?] or [#]. *)
Lemma tryFsResolve_split (depth : nat) (fsPath : string)
    (options : InternalResolveOptions) (tryIndex skipPackageJson : bool) :
  hashIsFileName fsPath = false →
  tryFsResolve env depth fsPath options tryIndex skipPackageJson
  = reattach env depth options tryIndex skipPackageJson
      (splitFileAndPostfix fsPath).1 (splitFileAndPostfix fsPath).2.
Proof.
  unfold hashIsFileName, tryFsResolve, tryFsResolve_with, reattach.
  intros Hno. destruct (splitFileAndPostfix fsPath) as [file postfix]. simpl.
  destruct ((0 <=? JS.indexOf fsPath "#") && isInNodeModules fsPath);
    simpl in Hno; [rewrite Hno|];
    (erewrite (or_else_falsy _ _ None); [|done..]);
    unfold tryCleanFsResolve;
    by destruct (tryCleanFsResolve_with _ _ _ _ _ _) as [res|];
      [simpl; destruct (JS.truthy res)|].
Qed.

(** When the branch applies, the literal reading comes first. *)
Lemma tryFsResolve_literal (depth : nat) (fsPath : string)
    (options : InternalResolveOptions) (tryIndex skipPackageJson : bool) :
  let hashIndex := JS.indexOf fsPath "#" in
  let queryIndex := JS.indexOf fsPath "?" in
  let literal := if hashIndex <? queryIndex
                 then JS.slice fsPath 0 (Some queryIndex) else fsPath in
  let remainder := JS.slice fsPath (JS.length literal) None in
  hashIsFileName fsPath = true →
  tryFsResolve env depth fsPath options tryIndex skipPackageJson
  = match tryCleanFsResolve env depth literal options tryIndex
            skipPackageJson with
    | Ok res =>
        if JS.truthy res then Ok (Some (template res +:+ remainder))
        else reattach env depth options tryIndex skipPackageJson
               (splitFileAndPostfix fsPath).1 (splitFileAndPostfix fsPath).2
    | Throw e => Throw e
    end.
Proof.
  intros hashIndex queryIndex literal remainder.
  unfold hashIsFileName, tryFsResolve, tryFsResolve_with, reattach.
  fold hashIndex queryIndex.
  intros [[Hhash Hnm]%andb_true_iff Hq]%andb_true_iff.
  rewrite Hhash, Hnm, Hq. simpl. fold literal. fold remainder.
  unfold tryCleanFsResolve.
  destruct (tryCleanFsResolve_with _ _ literal _ _ _) as [res|e]; [|done].
  simpl. destruct (JS.truthy res) eqn:Hres.
  - apply or_else_truthy; [done|].
    apply truthy_append. by rewrite <- truthy_template.
  - erewrite (or_else_falsy _ _ None); [|done..].
    destruct (splitFileAndPostfix fsPath) as [file postfix]. simpl.
    by destruct (tryCleanFsResolve_with _ _ _ _ _ _) as [res'|];
      [simpl; destruct (JS.truthy res')|].
Qed.

(** C10. For a path inside [node_modules] that holds a [#] with no [?]
    before it, [tryFsResolve] first resolves the path up to its first [?]
    (the [#] included) as a file name and reattaches the remainder to a
    truthy result; only when that finds nothing does it split the path at
    its first [?] or [#] and treat the rest as postfix. For a path outside
    [node_modules] the split is the only reading: the resolved file name
    holds no [#], and the [#] and what follows it belong to the postfix. *)
Theorem tryFsResolve_hash_handling (depth : nat) (fsPath : string)
    (options : InternalResolveOptions) (tryIndex skipPackageJson : bool) :
  let hashIndex := JS.indexOf fsPath "#" in
  let queryIndex := JS.indexOf fsPath "?" in
  let literal := if hashIndex <? queryIndex
                 then JS.slice fsPath 0 (Some queryIndex) else fsPath in
  let remainder := JS.slice fsPath (JS.length literal) None in
  let file := (splitFileAndPostfix fsPath).1 in
  let postfix := (splitFileAndPostfix fsPath).2 in
  (fsPath = file +:+ postfix ∧ isBare file ∧ isPostfix postfix)
  ∧ (isInNodeModules fsPath = true →
     0 ≤ hashIndex → queryIndex < 0 ∨ hashIndex < queryIndex →
     fsPath = literal +:+ remainder
     ∧ JS.includes literal "#" = true
     ∧ JS.includes literal "?" = false
     ∧ (remainder = EmptyString ∨ JS.startsWith remainder "?" = true)
     ∧ tryFsResolve env depth fsPath options tryIndex skipPackageJson
       = match tryCleanFsResolve env depth literal options tryIndex
                 skipPackageJson with
         | Ok res =>
             if JS.truthy res
             then Ok (Some (template res +:+ remainder))
             else reattach env depth options tryIndex skipPackageJson
                    file postfix
         | Throw e => Throw e
         end)
  ∧ (isInNodeModules fsPath = false →
     tryFsResolve env depth fsPath options tryIndex skipPackageJson
     = reattach env depth options tryIndex skipPackageJson file postfix).
Proof.
  intros hashIndex queryIndex literal remainder file postfix.
  destruct (splitFileAndPostfix_spec fsPath)
    as (file' & postfix' & Hsplit & Hpath & Hbare & Hpost).
  subst file postfix. rewrite Hsplit. simpl.
  split; [done|]. split.
  - intros Hnm Hhash Hquery.
    destruct (hash_literal fsPath Hhash Hquery) as (H1 & H2 & H3 & H4).
    repeat (split; [done|]).
    rewrite tryFsResolve_literal, Hsplit; [done|].
    unfold hashIsFileName. fold hashIndex queryIndex. rewrite Hnm.
    apply andb_true_iff. split; [apply andb_true_iff; split; [|done]|].
    + by apply Z.leb_le.
    + apply orb_true_iff. destruct Hquery; [left | right]; by apply Z.ltb_lt.
  - intros Hnm. rewrite tryFsResolve_split, Hsplit; [done|].
    unfold hashIsFileName. rewrite Hnm. by rewrite andb_false_r.
Qed.

End HashHandling.

(** ** Postfix preservation *)

Section PostfixAppend.

Lemma cleanUrl_app_postfix (s t : string) :
  isPostfix t → cleanUrl (s +:+ t) = cleanUrl s.
Proof.
  intros Ht. induction s as [|x s IH].
  - rewrite append_nil.
    destruct Ht as [->|[Ht|Ht]]; [done| |];
      apply (startsWith_single _ _) in Ht as [rest ->]; done.
  - rewrite append_cons. simpl. by rewrite IH.
Qed.

Lemma splitFileAndPostfix_app (s t : string) :
  isPostfix t →
  splitFileAndPostfix (s +:+ t)
  = ((splitFileAndPostfix s).1, (splitFileAndPostfix s).2 +:+ t).
Proof.
  intros Ht. unfold splitFileAndPostfix. simpl.
  rewrite cleanUrl_app_postfix by done. f_equal.
  destruct (cleanUrl_split s) as (p0 & Hs & _).
  rewrite Hs at 1 3. rewrite append_assoc, !slice_from_length. done.
Qed.

Lemma startsWith_app (s t pat : string) :
  JS.startsWith s pat = true → JS.startsWith (s +:+ t) pat = true.
Proof.
  revert s; induction pat as [|a pat IH]; intros s.
  { intros _. apply startsWith_empty. }
  destruct s as [|b s]; [done|]. rewrite append_cons. simpl.
  destruct (decide (a = b)); [apply IH | done].
Qed.

Lemma indexOf_from_app (s t pat : string) (i : Z) :
  0 ≤ i → 0 ≤ JS.indexOf_from s pat i → 0 ≤ JS.indexOf_from (s +:+ t) pat i.
Proof.
  revert i; induction s as [|x s IH]; intros i Hi.
  - rewrite append_nil. destruct pat as [|a pat]; [|simpl; lia].
    intros _. destruct t; simpl; lia.
  - intros Hs. rewrite append_cons.
    change (JS.indexOf_from (String x (s +:+ t)) pat i)
      with (if JS.startsWith (String x (s +:+ t)) pat then i
            else JS.indexOf_from (s +:+ t) pat (i + 1)).
    change (JS.indexOf_from (String x s) pat i)
      with (if JS.startsWith (String x s) pat then i
            else JS.indexOf_from s pat (i + 1)) in Hs.
    destruct (JS.startsWith (String x (s +:+ t)) pat) eqn:Hst; [done|].
    destruct (JS.startsWith (String x s) pat) eqn:Hpat.
    + pose proof (startsWith_app (String x s) t pat Hpat) as Happ.
      rewrite append_cons in Happ. congruence.
    + apply IH; [lia | done].
Qed.

Lemma includes_app (s t pat : string) :
  JS.includes s pat = true → JS.includes (s +:+ t) pat = true.
Proof.
  unfold JS.includes, JS.indexOf. rewrite !Z.leb_le.
  by apply indexOf_from_app.
Qed.

Lemma firstIndex_lt (c : ascii) (s : string) (n : nat) :
  firstIndex c s = Some n → (n < String.length s)%nat.
Proof.
  intros (pre & post & -> & <- & _)%firstIndex_split.
  rewrite length_append. simpl. lia.
Qed.

(** A postfix never switches the file-name reading of a [#] off. *)
Lemma hashIsFileName_app (s t : string) :
  hashIsFileName s = true → hashIsFileName (s +:+ t) = true.
Proof.
  unfold hashIsFileName, isInNodeModules.
  intros [[Hhash Hnm]%andb_true_iff Hq]%andb_true_iff.
  rewrite (includes_app _ _ _ Hnm), andb_true_r.
  change "?" with (single "?") in *. change "#" with (single "#") in *.
  rewrite !indexOf_firstIndex, !firstIndex_app in *.
  destruct (firstIndex "#" s) as [h|] eqn:Hh; [|done].
  apply firstIndex_lt in Hh. rewrite Hhash. simpl.
  destruct (firstIndex "?" s) as [q|]; [done|].
  destruct (firstIndex "?" t) as [q|]; simpl; [|done].
  apply orb_true_iff. right. apply Z.ltb_lt. lia.
Qed.

End PostfixAppend.

Section PostfixLaw.
Context (env : Env).

Lemma reattach_truthy depth options tryIndex skipPackageJson file postfix r :
  reattach env depth options tryIndex skipPackageJson file postfix
  = Ok (Some r) →
  r ≠ EmptyString.
Proof.
  unfold reattach.
  destruct (tryCleanFsResolve _ _ _ _ _ _) as [res|]; [|done]. simpl.
  destruct (JS.truthy res) eqn:Hres; [|done]. intros [= <-].
  apply truthy_Some, truthy_append. by rewrite <- truthy_template.
Qed.

(** [tryFsResolve] gives a path that is not empty, or nothing. *)
Lemma tryFsResolve_truthy depth fsPath options tryIndex skipPackageJson r :
  tryFsResolve env depth fsPath options tryIndex skipPackageJson
  = Ok (Some r) →
  r ≠ EmptyString.
Proof.
  destruct (hashIsFileName fsPath) eqn:Hhash.
  - rewrite tryFsResolve_literal by done.
    destruct (tryCleanFsResolve _ _ _ _ _ _) as [res|]; [|done].
    destruct (JS.truthy res) eqn:Hres; [|apply reattach_truthy].
    intros [= <-]. apply truthy_Some, truthy_append.
    by rewrite <- truthy_template.
  - rewrite tryFsResolve_split by done. apply reattach_truthy.
Qed.

Lemma reattach_append depth options tryIndex skipPackageJson file p0 t :
  reattach env depth options tryIndex skipPackageJson file (p0 +:+ t)
  = withPostfix
      (reattach env depth options tryIndex skipPackageJson file p0) t.
Proof.
  unfold reattach, withPostfix.
  destruct (tryCleanFsResolve _ _ _ _ _ _) as [res|]; [|done]. simpl.
  destruct (JS.truthy res); [|done]. simpl. by rewrite append_assoc.
Qed.

(** Outside the file-name reading of a [#], [tryFsResolve] commutes with
    appending a postfix. *)
Lemma tryFsResolve_postfix depth (s t : string) options tryIndex
    skipPackageJson :
  isPostfix t →
  hashIsFileName (s +:+ t) = false →
  tryFsResolve env depth (s +:+ t) options tryIndex skipPackageJson
  = withPostfix
      (tryFsResolve env depth s options tryIndex skipPackageJson) t.
Proof.
  intros Ht Hhash.
  assert (hashIsFileName s = false) as Hs.
  { destruct (hashIsFileName s) eqn:Hs; [|done].
    apply (hashIsFileName_app s t) in Hs. congruence. }
  rewrite !tryFsResolve_split by done.
  rewrite splitFileAndPostfix_app by done. simpl.
  apply reattach_append.
Qed.

End PostfixLaw.

Section PostfixPreservation.
Context (env : Env).

Lemma tryFsResolve_postfix_idle depth (s t : string) options tryIndex
    skipPackageJson :
  isPostfix t →
  literalReadingIdle env depth options tryIndex skipPackageJson s t →
  tryFsResolve env depth (s +:+ t) options tryIndex skipPackageJson
  = withPostfix
      (tryFsResolve env depth s options tryIndex skipPackageJson) t.
Proof.
  intros Ht [Hidle | (Hs & res & Hres & Hfalsy)].
  - by apply tryFsResolve_postfix.
  - destruct (hashIsFileName (s +:+ t)) eqn:Hst;
      [|by apply tryFsResolve_postfix].
    rewrite tryFsResolve_literal, Hres, Hfalsy by done.
    rewrite tryFsResolve_split by done.
    rewrite splitFileAndPostfix_app by done. simpl.
    apply reattach_append.
Qed.

Lemma splitFileAndPostfix_bare_id (file : string) :
  isBare file → splitFileAndPostfix file = (file, EmptyString).
Proof.
  intros Hbare. rewrite <- (append_empty_r file) at 1.
  apply splitFileAndPostfix_bare; [done | by left].
Qed.

(** The root entry of a package carries the postfix of the specifier. *)
Lemma resolvePackageEntry_postfix depth (id_ postfix : string)
    (pkg pkg' : PackageData) options (r : string) :
  isBare id_ → isPostfix postfix →
  resolvePackageEntry env depth id_ pkg options = (Ok (Some r), pkg') →
  resolvePackageEntry env depth (id_ +:+ postfix) pkg options
  = (Ok (Some (r +:+ postfix)), pkg').
Proof.
  intros Hbare Hpost.
  unfold resolvePackageEntry, resolvePackageEntry_with.
  rewrite splitFileAndPostfix_bare, splitFileAndPostfix_bare_id by done.
  destruct (JS.truthy (getResolvedCache env pkg "." options)).
  - rewrite append_empty_r. by intros [= <- <-].
  - destruct (resolvePackageEntry_try _ _ _ _) as [resolved|e]; [|done].
    destruct (JS.truthy resolved); [|done].
    rewrite append_empty_r. by intros [= <- <-].
Qed.

(** The subpath that a deep import maps to carries the postfix. *)
Lemma resolveDeepImport_relativeId_postfix (file postfix rel : string)
    (pkg : PackageData) options :
  isBare file → isPostfix postfix → rel ≠ EmptyString →
  resolveDeepImport_relativeId env file pkg options
  = Ok (DeepRelative (Some rel)) →
  resolveDeepImport_relativeId env (file +:+ postfix) pkg options
  = Ok (DeepRelative (Some (rel +:+ postfix))).
Proof.
  intros Hbare Hpost Hrel. unfold resolveDeepImport_relativeId.
  rewrite splitFileAndPostfix_bare, splitFileAndPostfix_bare_id by done.
  destruct (exports_truthy _).
  - destruct (exports_is_plain_object _); [|by simpl].
    destruct (resolveExportsOrImports _ _ _ _ _) as [[e|]|];
      cbn [mbind result_bind]; [|by simpl..].
    rewrite append_empty_r.
    destruct (JS.truthy (Some e)) eqn:He; cbn [negb]; [|done].
    intros [= <-]. by rewrite truthy_append.
  - destruct (browser (data pkg)) as [[?|browserField]|];
      [by intros [= <-]| |by intros [= <-]].
    destruct (JS.list_includes _ _); [|by intros [= <-]].
    destruct (browser_truthy _) as [m|].
    + rewrite append_empty_r. by intros [= <-].
    + destruct (mapWithBrowserField _ _) as [[]|]; try done;
        by intros [= <-].
Qed.

(** A deep import that maps to a subpath carries the postfix through the
    filesystem resolution, when joining the subpath to the package
    directory leaves the postfix as it is. *)
Lemma resolveDeepImport_postfix depth (file postfix rel : string)
    (pkg : PackageData) options :
  isBare file → isPostfix postfix → rel ≠ EmptyString →
  JS.truthy (getResolvedCache env pkg file options) = false →
  JS.truthy (getResolvedCache env pkg (file +:+ postfix) options) = false →
  resolveDeepImport_relativeId env file pkg options
  = Ok (DeepRelative (Some rel)) →
  path.join (dir pkg) (rel +:+ postfix) = path.join (dir pkg) rel +:+ postfix →
  literalReadingIdle env depth options
    (negb (exports_truthy (exports (data pkg)))) false
    (path.join (dir pkg) rel) postfix →
  (resolveDeepImport env depth (file +:+ postfix) pkg options).1
  = withPostfix (resolveDeepImport env depth file pkg options).1 postfix.
Proof.
  intros Hbare Hpost Hrel Hmiss Hmiss' Hmap Hjoin Hidle.
  unfold resolveDeepImport, resolveDeepImport_with.
  rewrite Hmiss, Hmiss', Hmap.
  rewrite (resolveDeepImport_relativeId_postfix _ _ _ _ _ Hbare Hpost Hrel Hmap).
  assert (JS.truthy (Some rel) = true) as Hrel' by by apply truthy_Some.
  rewrite Hrel', (truthy_append _ _ Hrel'). simpl. rewrite Hjoin.
  fold (tryFsResolve env depth).
  rewrite (tryFsResolve_postfix_idle _ _ _ _ _ _ Hpost Hidle).
  destruct (tryFsResolve env depth (path.join (dir pkg) rel) _ _ _)
    as [[resolved|]|e] eqn:Hres; simpl; [|done..].
  apply tryFsResolve_truthy, truthy_Some in Hres.
  by rewrite Hres, (truthy_append _ _ Hres).
Qed.

(** C1, amended. A postfix (empty, or starting with [?] or [#]) is
    carried through resolution unchanged in these cases.
    - [tryFsResolve (s +:+ t)] is [tryFsResolve s] with [t] reattached,
      unless the file-name reading of a [#] inside [node_modules]
      applies to [s +:+ t] and finds a file (or applies to [s] itself).
    - When [resolvePackageEntry] succeeds on a bare specifier, it gives
      the same path with the postfix reattached on the specifier that
      carries the postfix.
    - On a cache miss, when the bare deep import maps to a subpath [rel]
      that is not empty, joining [rel +:+ postfix] to the package
      directory leaves the postfix as it is, and the file-name reading of
      a [#] plays no part, [resolveDeepImport] gives the result for the
      bare specifier with the postfix reattached. *)
Theorem postfix_preservation (depth : nat) (options : InternalResolveOptions) :
  (∀ (s t : string) (tryIndex skipPackageJson : bool),
     isPostfix t →
     literalReadingIdle env depth options tryIndex skipPackageJson s t →
     tryFsResolve env depth (s +:+ t) options tryIndex skipPackageJson
     = withPostfix
         (tryFsResolve env depth s options tryIndex skipPackageJson) t)
  ∧ (∀ (id_ postfix : string) (pkg pkg' : PackageData) (r : string),
       isBare id_ → isPostfix postfix →
       resolvePackageEntry env depth id_ pkg options = (Ok (Some r), pkg') →
       resolvePackageEntry env depth (id_ +:+ postfix) pkg options
       = (Ok (Some (r +:+ postfix)), pkg'))
  ∧ (∀ (file postfix rel : string) (pkg : PackageData),
       isBare file → isPostfix postfix → rel ≠ EmptyString →
       JS.truthy (getResolvedCache env pkg file options) = false →
       JS.truthy (getResolvedCache env pkg (file +:+ postfix) options)
       = false →
       resolveDeepImport_relativeId env file pkg options
       = Ok (DeepRelative (Some rel)) →
       path.join (dir pkg) (rel +:+ postfix)
       = path.join (dir pkg) rel +:+ postfix →
       literalReadingIdle env depth options
         (negb (exports_truthy (exports (data pkg)))) false
         (path.join (dir pkg) rel) postfix →
       (resolveDeepImport env depth (file +:+ postfix) pkg options).1
       = withPostfix (resolveDeepImport env depth file pkg options).1
           postfix).
Proof.
  split; [|split].
  - intros. by apply tryFsResolve_postfix_idle.
  - intros. by apply resolvePackageEntry_postfix.
  - intros. by eapply resolveDeepImport_postfix.
Qed.

End PostfixPreservation.

(** C1, as stated, fails. In [node_modules], with the files [a] and
    [a#b.js] on disk, the specifier [a#b] has the postfix [#b]; the bare
    specifier [a] resolves to the file [a], so the law gives [a#b], but
    [tryFsResolve] reads the [#] as part of a file name and resolves to
    [a#b.js]. *)
Lemma postfix_law_fails_for_hash_in_node_modules :
  splitFileAndPostfix "/proj/node_modules/pkg/a#b"
  = ("/proj/node_modules/pkg/a", "#b")
  ∧ tryFsResolve (Sample.env hashFiles []) 1 "/proj/node_modules/pkg/a"
      Sample.options true false
    = Ok (Some "/proj/node_modules/pkg/a")
  ∧ tryFsResolve (Sample.env hashFiles []) 1 "/proj/node_modules/pkg/a#b"
      Sample.options true false
    = Ok (Some "/proj/node_modules/pkg/a#b.js")
  ∧ tryFsResolve (Sample.env hashFiles []) 1 "/proj/node_modules/pkg/a#b"
      Sample.options true false
    ≠ withPostfix
        (tryFsResolve (Sample.env hashFiles []) 1 "/proj/node_modules/pkg/a"
           Sample.options true false) "#b".
Proof. repeat split; [reflexivity..|]. vm_compute. discriminate. Qed.

(** Outside [node_modules] the postfix [?q#h] of [x.js?q#h] is reattached
    to the file that [x.js] resolves to; the root entry of [pkg?inline] and
    the deep import [pkg/sub?raw] carry their postfixes. *)
Lemma postfix_preservation_example :
  tryFsResolve (Sample.env swapFiles []) 1 ("/proj/src/x.js" +:+ "?q#h")
    Sample.options true false
  = Ok (Some "/proj/src/x.ts?q#h")
  ∧ (resolvePackageEntry (Sample.env exportsFiles [exportsPackage]) 1
       ("pkg" +:+ "?inline") exportsPackage Sample.options).1
    = Ok (Some "/proj/node_modules/pkg/index.js?inline")
  ∧ (resolveDeepImport (Sample.env exportsFiles [exportsPackage]) 1
       ("./sub" +:+ "?raw") exportsPackage Sample.options).1
    = Ok (Some "/proj/node_modules/pkg/src/sub.js?raw").
Proof.
  split; [|split].
  - rewrite (proj1 (postfix_preservation (Sample.env swapFiles []) 1
                      Sample.options) "/proj/src/x.js" "?q#h" true false).
    + reflexivity.
    + right. left. reflexivity.
    + left. reflexivity.
  - rewrite (proj1 (proj2 (postfix_preservation
                             (Sample.env exportsFiles [exportsPackage]) 1
                             Sample.options))
               "pkg" "?inline" exportsPackage
               (setResolvedCache (Sample.env exportsFiles [exportsPackage])
                  exportsPackage "." "/proj/node_modules/pkg/index.js"
                  Sample.options)
               "/proj/node_modules/pkg/index.js").
    + reflexivity.
    + split; reflexivity.
    + right. left. reflexivity.
    + reflexivity.
  - rewrite (proj2 (proj2 (postfix_preservation
                             (Sample.env exportsFiles [exportsPackage]) 1
                             Sample.options))
               "./sub" "?raw" "./src/sub.js" exportsPackage).
    + reflexivity.
    + split; reflexivity.
    + right. left. reflexivity.
    + discriminate.
    + reflexivity.
    + reflexivity.
    + reflexivity.
    + reflexivity.
    + left. reflexivity.
Defined.

(** ** Errors of the package resolvers *)

Section Includes.

Lemma startsWith_prefix (b c : string) : JS.startsWith (b +:+ c) b = true.
Proof.
  induction b as [|x b IH]; [apply startsWith_empty|].
  rewrite append_cons. simpl. by rewrite decide_True.
Qed.

Lemma indexOf_from_unfold (s pat : string) (i : Z) :
  JS.indexOf_from s pat i
  = if JS.startsWith s pat then i
    else match s with
         | EmptyString => -1
         | String _ s' => JS.indexOf_from s' pat (i + 1)
         end.
Proof. by destruct s. Qed.

Lemma indexOf_from_middle (a b c : string) (i : Z) :
  0 ≤ i → 0 ≤ JS.indexOf_from (a +:+ b +:+ c) b i.
Proof.
  revert i; induction a as [|x a IH]; intros i Hi.
  - rewrite append_nil, indexOf_from_unfold, startsWith_prefix. done.
  - rewrite append_cons, indexOf_from_unfold.
    destruct (JS.startsWith _ _); [done|]. apply IH. lia.
Qed.

(** A string includes each of its infixes. *)
Lemma includes_middle (a b c : string) :
  JS.includes (a +:+ b +:+ c) b = true.
Proof.
  unfold JS.includes, JS.indexOf. apply Z.leb_le.
  by apply indexOf_from_middle.
Qed.

End Includes.

Section PackageErrors.
Context (env : Env).

Lemma packageEntryFailure_message (id_ : string) (details : option string) :
  @packageEntryFailure (option string) id_ details
  = Throw {| message :=
               entryFailurePrefix +:+ id_ +:+ entryFailureAdvice
               +:+ (if JS.truthy details then ": " +:+ template details
                    else ".");
             code := Some ERR_RESOLVE_PACKAGE_ENTRY_FAIL |}.
Proof.
  unfold packageEntryFailure, entryFailurePrefix, entryFailureAdvice.
  by rewrite !append_assoc.
Qed.

Lemma entryPointsLoop_all_fail resolveEntry dir_ data_ options entryPoints :
  Forall (λ entry,
            ∃ res, probeEntry env resolveEntry dir_ data_ options entry
                   = Ok res
                   ∧ JS.truthy res = false) entryPoints →
  entryPointsLoop env resolveEntry dir_ data_ options entryPoints = Ok None.
Proof.
  induction 1 as [|entry rest (res & Hres & Hfalsy) _ IH]; [done|].
  simpl. by erewrite or_else_falsy.
Qed.

(** C3. [resolvePackageEntry] returns a path or throws; it never returns
    [undefined]. Every error it throws has the code
    [ERR_RESOLVE_PACKAGE_ENTRY_FAIL] and a message that carries the
    specifier. On a cache miss, when every candidate entry point fails to
    resolve on the filesystem, it throws that error with the plain
    message; when selecting or probing a candidate throws an error, it
    throws that error with the message of the underlying one appended. *)
Theorem resolvePackageEntry_success_or_throw (depth : nat) (id_ : string)
    (pkg : PackageData) (options : InternalResolveOptions) :
  let nested := resolvePackageEntry_nested env depth in
  let result := (resolvePackageEntry env depth id_ pkg options).1 in
  let cached := getResolvedCache env pkg "." options in
  result ≠ Ok None
  ∧ (∀ e, result = Throw e →
       code e = Some ERR_RESOLVE_PACKAGE_ENTRY_FAIL
       ∧ JS.includes (message e) id_ = true
       ∧ ∃ suffix,
           message e
           = entryFailurePrefix +:+ id_ +:+ entryFailureAdvice +:+ suffix
           ∧ (suffix = "."
              ∨ ∃ e0, resolvePackageEntry_try env nested pkg options
                      = Throw e0
                      ∧ suffix = ": " +:+ message e0))
  ∧ (JS.truthy cached = false →
     ∀ entryPoint,
       selectEntryPoint env nested (dir pkg) (data pkg) options
       = Ok entryPoint →
       Forall (λ entry,
                 ∃ res, probeEntry env nested (dir pkg) (data pkg) options
                          entry = Ok res
                        ∧ JS.truthy res = false)
         (entryPointsOf entryPoint) →
       result = packageEntryFailure id_ None)
  ∧ (JS.truthy cached = false →
     ∀ e0, resolvePackageEntry_try env nested pkg options = Throw e0 →
           result = packageEntryFailure id_ (Some (message e0))).
Proof.
  intros nested result cached. subst result.
  unfold resolvePackageEntry, resolvePackageEntry_with.
  fold nested. fold cached.
  destruct (splitFileAndPostfix id_) as [idWithoutPostfix postfix].
  destruct (JS.truthy cached) eqn:Hcached; simpl.
  { repeat split; done. }
  destruct (resolvePackageEntry_try env nested pkg options)
    as [resolved|e0] eqn:Htry.
  - destruct (JS.truthy resolved) eqn:Hresolved; simpl.
    + repeat split; try done.
      intros _ entryPoint Hselect Hfail.
      unfold resolvePackageEntry_try in Htry. rewrite Hselect in Htry.
      simpl in Htry. rewrite (entryPointsLoop_all_fail _ _ _ _ _ Hfail) in Htry.
      by simplify_eq.
    + split; [done|]. split; [|done].
      intros e. rewrite packageEntryFailure_message. intros [= <-]. simpl.
      split; [done|]. split; [apply includes_middle|].
      exists ".". split; [done | by left].
  - split; [done|]. split; [|split; [|by intros _ ? [= <-]]].
    + intros e. rewrite packageEntryFailure_message. intros [= <-]. simpl.
      split; [done|]. split; [apply includes_middle|].
      destruct (JS.truthy (Some (message e0))); eexists; (split; [done|]).
      * right. by exists e0.
      * by left.
    + intros _ entryPoint Hselect Hfail.
      unfold resolvePackageEntry_try in Htry. rewrite Hselect in Htry.
      simpl in Htry. by rewrite (entryPointsLoop_all_fail _ _ _ _ _ Hfail) in Htry.
Qed.

End PackageErrors.

(** ** The manifest path of a normalized package directory *)

Section ManifestPath.




Lemma lastChar_app (a b : string) :
  b ≠ EmptyString → lastChar (a +:+ b) = lastChar b.
Proof.
  intros Hb. induction a as [|c a IH]; [done|].
  rewrite append_cons. simpl. rewrite IH.
  destruct b as [|x b]; [done|]. simpl. by destruct (lastChar b).
Qed.






End ManifestPath.

(** ** The name of the typed-source swap *)

Section SwapName.

Lemma stripTrailingSlashes_id (s : string) :
  lastChar s ≠ Some "/"%char → path.stripTrailingSlashes s = s.
Proof.
  induction s as [|c s IH]; [done|]. simpl. intros Hlast.
  destruct (lastChar s) as [l|] eqn:Hl.
  - rewrite IH by done. destruct s; [done|]. by rewrite andb_false_r.
  - destruct s; [|by simpl in Hl; destruct (lastChar s)]. simpl.
    unfold path.is_slash. rewrite bool_decide_eq_false_2; [done|]. congruence.
Qed.

Lemma has_slash_app (a b : string) :
  path.has_slash (a +:+ b) = path.has_slash a || path.has_slash b.
Proof.
  induction a as [|c a IH]; [done|]. rewrite append_cons. simpl.
  by rewrite IH, orb_assoc.
Qed.

Lemma afterLastSlash_no_slash (b : string) :
  path.has_slash b = false → path.afterLastSlash b = b.
Proof.
  destruct b as [|c b]; [done|]. simpl.
  intros [-> ->]%orb_false_iff. done.
Qed.

Lemma afterLastSlash_app (a b : string) :
  path.has_slash b = false →
  path.afterLastSlash (a +:+ b) = path.afterLastSlash a +:+ b.
Proof.
  intros Hb. induction a as [|c a IH].
  - by apply afterLastSlash_no_slash.
  - rewrite append_cons. simpl. rewrite has_slash_app, Hb, orb_false_r.
    destruct (path.has_slash a); [done|]. by destruct (path.is_slash c).
Qed.

Lemma fromLastDot_app (a e : string) :
  path.fromLastDot e = None →
  path.fromLastDot (a +:+ String "." e) = Some (String "." e).
Proof.
  intros He. induction a as [|c a IH].
  - rewrite append_nil. simpl. by rewrite He.
  - rewrite append_cons. simpl. by rewrite IH.
Qed.

(** For a file name [stem +:+ ext] with a compiled-output extension, whose
    last component is more than the extension, the name probed by the swap
    in [tryCleanFsResolve] is [stem] with the typed-source extension. *)
Lemma tsSwap_name (stem ext ext' : string) :
  tsExtension ext = Some ext' →
  path.basename stem ≠ EmptyString → lastChar stem ≠ Some "/"%char →
  isPossibleTsOutput (stem +:+ ext) = true
  ∧ path.extname (stem +:+ ext) = ext
  ∧ JS.slice (stem +:+ ext) 0
      (Some (- JS.length (path.extname (stem +:+ ext))))
    +:+ JS.replace (path.extname (stem +:+ ext)) "js" "ts"
    = stem +:+ ext'.
Proof.
  intros Hext Hbase Hlast.
  assert (∃ e, ext = String "." e ∧ path.fromLastDot e = None
               ∧ path.has_slash ext = false
               ∧ lastChar ext ≠ Some "/"%char
               ∧ (2 < String.length ext)%nat
               ∧ JS.replace ext "js" "ts" = ext'
               ∧ isPossibleTsOutput (stem +:+ ext) = true)
    as (e & He & Hdot & Hslash & Hl & Hlen & Hreplace & Hposs).
  { unfold tsExtension in Hext.
    repeat case_bool_decide; simplify_eq.
    all: eexists; split; [reflexivity|]; split; [reflexivity|];
      split; [reflexivity|]; split; [by vm_compute|]; split; [simpl; lia|];
      split; [reflexivity|].
    all: unfold isPossibleTsOutput; rewrite !orb_true_iff, !endsWith_spec;
      eauto 10. }
  assert (ext ≠ EmptyString) as Hne by (by rewrite He).
  assert (path.extname (stem +:+ ext) = ext) as Hextname.
  { unfold path.extname, path.basename.
    rewrite stripTrailingSlashes_id by (by rewrite lastChar_app).
    rewrite afterLastSlash_app by done.
    unfold path.basename in Hbase.
    rewrite stripTrailingSlashes_id in Hbase by done.
    rewrite He at 1. rewrite fromLastDot_app by done. rewrite <- He.
    rewrite bool_decide_eq_false_2.
    - rewrite bool_decide_eq_false_2; [done|].
      intros Heq%(f_equal String.length). rewrite length_append in Heq.
      simpl in Heq. lia.
    - rewrite length_append.
      destruct (path.afterLastSlash stem); [done|]. simpl. lia. }
  split; [done|]. split; [done|].
  by rewrite Hextname, slice_drop_suffix, Hreplace.
Qed.

End SwapName.

(** ** The typed-source swap comes first *)

Section SwapPriority.
Context (env : Env).

(** C5. Let [file] end in [.js], [.mjs], [.cjs] or [.jsx], not be a file
    itself, and have an existing parent directory. [tryCleanFsResolve]
    first probes the typed-source swap, the name with [js] replaced by
    [ts] in its extension, and, when that is no file and the extension is
    [.js], the [.tsx] variant; the first of these that is a file is the
    result, whatever the configured extensions and prefix are and whatever
    other files exist. For [file = stem +:+ ext], with a last component
    that is more than the extension, the swap is [stem] with [.ts], [.mts],
    [.cts] or [.tsx]. *)
Theorem tryCleanFsResolve_swap_priority (depth : nat) (file : string)
    (options : InternalResolveOptions) (tryIndex skipPackageJson : bool)
    (r : string) :
  let fileExt := path.extname file in
  let fileName := JS.slice file 0 (Some (- JS.length fileExt)) in
  let swapped := fileName +:+ JS.replace fileExt "js" "ts" in
  isPossibleTsOutput file = true →
  tryStatSync env file ≠ Some IsFile →
  isDirectory env (path.dirname file) = true →
  r ≠ EmptyString →
  (tryResolveRealFile env swapped (preserveSymlinks options) = Ok (Some r)
   ∨ (∃ res, tryResolveRealFile env swapped (preserveSymlinks options) = Ok res
             ∧ JS.truthy res = false)
     ∧ fileExt = ".js"
     ∧ tryResolveRealFile env (fileName +:+ ".tsx") (preserveSymlinks options)
       = Ok (Some r) →
   tryCleanFsResolve env depth file options tryIndex skipPackageJson
   = Ok (Some r))
  ∧ (∀ stem ext ext',
       file = stem +:+ ext →
       tsExtension ext = Some ext' →
       path.basename stem ≠ EmptyString →
       lastChar stem ≠ Some "/"%char →
       tryResolveRealFile env (stem +:+ ext') (preserveSymlinks options)
       = Ok (Some r)
       ∨ (∃ res, tryResolveRealFile env (stem +:+ ext')
                   (preserveSymlinks options) = Ok res
                 ∧ JS.truthy res = false)
         ∧ ext = ".js"
         ∧ tryResolveRealFile env (stem +:+ ".tsx") (preserveSymlinks options)
           = Ok (Some r) →
       tryCleanFsResolve env depth file options tryIndex skipPackageJson
       = Ok (Some r)).
Proof.
  intros fileExt fileName swapped Hts Hnofile Hdir Hr.
  assert (tryResolveRealFile env swapped (preserveSymlinks options)
          = Ok (Some r)
          ∨ (∃ res, tryResolveRealFile env swapped (preserveSymlinks options)
                    = Ok res
                    ∧ JS.truthy res = false)
            ∧ fileExt = ".js"
            ∧ tryResolveRealFile env (fileName +:+ ".tsx")
                (preserveSymlinks options) = Ok (Some r) →
          tryCleanFsResolve env depth file options tryIndex skipPackageJson
          = Ok (Some r)) as Hgeneral.
  { intros Hswap. apply truthy_Some in Hr.
    unfold tryCleanFsResolve, tryCleanFsResolve_with.
    assert (∃ fileResult,
              tryResolveRealFileOrType env file (preserveSymlinks options)
              = Ok fileResult
              ∧ match fileResult with
                | Some (FileResult _) => False
                | _ => True
                end) as (fileResult & -> & HfileResult).
    { unfold tryResolveRealFileOrType.
      destruct (tryStatSync env file) as [[]|]; try done; by eexists. }
    simpl.
    erewrite (or_else_falsy _ _ None);
      [|by destruct fileResult as [[]|] | done].
    rewrite Hts, Hdir. simpl.
    apply (or_else_truthy _ _ (Some r)); [|done].
    apply (or_else_truthy _ _ (Some r)); [|done].
    fold fileExt. fold fileName. fold swapped.
    destruct Hswap as [Hswap | ((res & Hswap & Hres) & Hext & Htsx)].
    - by apply or_else_truthy.
    - erewrite or_else_falsy by done.
      rewrite Hext in *. by rewrite bool_decide_eq_true_2. }
  split; [done|].
  intros stem ext ext' -> Hext Hbase Hlast Hswap. apply Hgeneral.
  destruct (tsSwap_name stem ext ext' Hext Hbase Hlast)
    as (_ & Hextname & Hname).
  subst swapped fileName fileExt. rewrite Hname.
  destruct Hswap as [Hswap | (Hswap & -> & Htsx)]; [by left|].
  right. split; [done|]. split; [done|].
  by rewrite Hextname, slice_drop_suffix.
Qed.

End SwapPriority.

(** For [x.js], with both [x.ts] and [x.js.js] on disk and [.js] among the
    configured extensions, the swap [x.ts] is the result. *)
Lemma tryCleanFsResolve_swap_priority_example :
  tryCleanFsResolve (Sample.env swapFiles []) 1 "/proj/src/x.js"
    Sample.options true false
  = Ok (Some "/proj/src/x.ts").
Proof.
  apply (proj2 (tryCleanFsResolve_swap_priority (Sample.env swapFiles []) 1
                  "/proj/src/x.js" Sample.options true false "/proj/src/x.ts"
                  eq_refl ltac:(vm_compute; discriminate) eq_refl
                  ltac:(discriminate))
           "/proj/src/x" ".js" ".ts").
  - reflexivity.
  - reflexivity.
  - discriminate.
  - vm_compute. discriminate.
  - left. reflexivity.
Defined.

(** Without [x.ts], plain extension probing finds [x.js.js]. *)
Example tryCleanFsResolve_plain_probe :
  tryCleanFsResolve
    (Sample.env [("/proj/src", IsDirectory); ("/proj/src/x.js.js", IsFile)] [])
    1 "/proj/src/x.js" Sample.options true false
  = Ok (Some "/proj/src/x.js.js").
Proof. reflexivity. Qed.


Section DeepImportErrors.
Context (env : Env).



End DeepImportErrors.

(** ** The bare specifier orchestrator *)

Section BareSpecifier.
Context (env : Env).





(** C7. Let the bare specifier [id_] name the package of the nearest
    manifest upward from the chosen base directory. [tryNodeResolve]
    takes that manifest as the package, without the external lookup
    [resolvePackageData], exactly when the manifest declares an export map
    and the specifier is no builtin and holds no null byte; otherwise the
    self manifest is ignored and the package is the result of the external
    lookup. *)
Theorem tryNodeResolve_self_reference (depth : nat) (id_ : string)
    (importer : option string) (options : InternalResolveOptions)
    (depsOptimizer : option DepsOptimizer) (externalize : option bool)
    (selfPackageData : PackageData) :
  let basedir := tryNodeResolve_basedir env id_ importer options in
  let pkgId := tryNodeResolve_pkgId env id_ in
  let honored :=
    exports_truthy (exports (data selfPackageData))
    && negb (isModuleBuiltin env options id_)
    && negb (JS.includes id_ nul) in
  bareImportRE_test env id_ = true →
  findNearestPackageData env basedir = Some selfPackageData →
  name (data selfPackageData) = pkgId →
  (tryNodeResolve_selfPkg env id_ importer options = Some selfPackageData
   ↔ honored = true)
  ∧ (honored = true →
     tryNodeResolve_pkg env id_ importer options = Some selfPackageData
     ∧ tryNodeResolve env depth id_ importer options depsOptimizer
         externalize
       = tryNodeResolve_inPkg env depth id_ importer options depsOptimizer
           externalize selfPackageData)
  ∧ (honored = false →
     tryNodeResolve_selfPkg env id_ importer options = None
     ∧ tryNodeResolve_pkg env id_ importer options
       = resolvePackageData env pkgId basedir (preserveSymlinks options)).
Proof.
  intros basedir pkgId honored Hbare Hnearest Hname.
  assert (tryNodeResolve_selfPkg env id_ importer options
          = if honored then Some selfPackageData else None) as Hself.
  { unfold tryNodeResolve_selfPkg. fold basedir. fold pkgId.
    rewrite Hbare, Hnearest, Hname, andb_true_r.
    rewrite (bool_decide_eq_true_2 (pkgId = pkgId)) by done.
    rewrite andb_true_r. subst honored.
    destruct (isModuleBuiltin env options id_), (JS.includes id_ nul),
      (exports_truthy _); done. }
  unfold tryNodeResolve, tryNodeResolve_pkg. rewrite Hself.
  destruct honored; repeat split; done.
Qed.

End BareSpecifier.

(** ** The browser table and the root entry *)

Section RootEntryBrowser.
Context (env : Env).

Lemma or_else_Some (first next : result (option string)) (r : option string) :
  first orelse next = Ok r →
  (first = Ok r ∧ JS.truthy r = true)
  ∨ ((∃ res, first = Ok res ∧ JS.truthy res = false) ∧ next = Ok r).
Proof.
  unfold or_else. destruct first as [res|e]; [|done]. simpl.
  destruct (JS.truthy res) eqn:Hres.
  - intros [= <-]. by left.
  - intros Hnext. right. split; [by exists res | done].
Qed.

(** A truthy result of the loop over the entry points comes from probing
    one of them. *)
Lemma entryPointsLoop_truthy resolveEntry dir_ data_ options entryPoints res :
  entryPointsLoop env resolveEntry dir_ data_ options entryPoints = Ok res →
  JS.truthy res = true →
  ∃ entry, entry ∈ entryPoints
           ∧ probeEntry env resolveEntry dir_ data_ options entry = Ok res.
Proof.
  induction entryPoints as [|entry rest IH]; simpl.
  - by intros [= <-].
  - intros [[Hfirst _] | [_ Hnext]]%or_else_Some Hres.
    + exists entry. split; [left | done].
    + destruct (IH Hnext Hres) as (entry' & Hin & Hprobe).
      exists entry'. split; [by right | done].
Qed.

(** C9. In [resolvePackageEntry], when the browser table maps a root
    entry candidate to [false] or to the empty string, the mapping is
    discarded and the candidate itself is joined to the package directory
    and probed. A path returned by [resolvePackageEntry] is the cached one
    or the filesystem resolution of a candidate, with the postfix; there
    is no branch that returns the browser-external id. In
    [resolveDeepImport], for a package without export map, a subpath
    mapped to [false] gives the browser-external id. *)
Theorem resolvePackageEntry_falsy_browser_mapping (depth : nat)
    (id_ : string) (pkg : PackageData) (options : InternalResolveOptions) :
  let nested := resolvePackageEntry_nested env depth in
  (∀ entry browserField,
     browser (data pkg) = Some (BrowserObject browserField) →
     mapWithBrowserField entry browserField = Some BrowserFalse
     ∨ mapWithBrowserField entry browserField
       = Some (BrowserPath EmptyString) →
     bool_decide (head (mainFields options) = Some "sass")
     && negb (JS.list_includes (extensions options) (path.extname entry))
     = false →
     entryCandidate (data pkg) options entry = (entry, false)
     ∧ probeEntry env nested (dir pkg) (data pkg) options entry
       = tryFsResolve env depth (path.join (dir pkg) entry) options true
           false)
  ∧ (∀ s,
       (resolvePackageEntry env depth id_ pkg options).1 = Ok (Some s) →
       (∃ cached,
          getResolvedCache env pkg "." options = Some cached
          ∧ s = cached +:+ (splitFileAndPostfix id_).2)
       ∨ (∃ entry skipPackageJson resolved,
            tryFsResolve env depth (path.join (dir pkg) entry) options true
              skipPackageJson = Ok (Some resolved)
            ∧ resolved ≠ EmptyString
            ∧ s = resolved +:+ (splitFileAndPostfix id_).2))
  ∧ (∀ subpath browserField,
       JS.truthy (getResolvedCache env pkg subpath options) = false →
       exports_truthy (exports (data pkg)) = false →
       browser (data pkg) = Some (BrowserObject browserField) →
       JS.list_includes (mainFields options) "browser" = true →
       mapWithBrowserField (splitFileAndPostfix subpath).1 browserField
       = Some BrowserFalse →
       (resolveDeepImport env depth subpath pkg options).1
       = Ok (Some browserExternalId)).
Proof.
  intros nested. split; [|split].
  - intros entry browserField Hbrowser Hmapped Hsass.
    assert (entryCandidate (data pkg) options entry = (entry, false)) as Hc.
    { unfold entryCandidate. rewrite Hsass, Hbrowser.
      destruct (JS.list_includes (mainFields options) "browser"); [|done].
      by destruct Hmapped as [-> | ->]. }
    split; [done|]. unfold probeEntry. by rewrite Hc.
  - intros s. unfold resolvePackageEntry, resolvePackageEntry_with.
    fold nested.
    destruct (splitFileAndPostfix id_) as [idWithoutPostfix postfix]. simpl.
    destruct (JS.truthy (getResolvedCache env pkg "." options)) eqn:Hcached.
    { intros [= <-]. left. apply truthy_template in Hcached.
      by exists (template (getResolvedCache env pkg "." options)). }
    destruct (resolvePackageEntry_try env nested pkg options)
      as [resolved|e] eqn:Htry; [|done].
    destruct (JS.truthy resolved) eqn:Hresolved; [|done].
    intros [= <-]. right.
    unfold resolvePackageEntry_try in Htry.
    destruct (selectEntryPoint _ _ _ _ _) as [entryPoint|]; [|done].
    simpl in Htry.
    destruct (entryPointsLoop_truthy _ _ _ _ _ _ Htry Hresolved)
      as (entry & _ & Hprobe).
    unfold probeEntry in Hprobe.
    destruct (entryCandidate (data pkg) options entry)
      as [entry' skipPackageJson].
    exists entry', skipPackageJson, (template resolved).
    rewrite <- truthy_template by done. split; [done|]. split; [|done].
    apply truthy_Some. by rewrite <- truthy_template.
  - intros subpath browserField Hmiss Hexports Hbrowser Hfield Hmapped.
    unfold resolveDeepImport, resolveDeepImport_with,
      resolveDeepImport_relativeId.
    rewrite Hmiss, Hexports, Hbrowser, Hfield.
    destruct (splitFileAndPostfix subpath) as [file postfix].
    simpl in Hmapped. by rewrite Hmapped.
Qed.

End RootEntryBrowser.

(** ** The properties on sample packages *)


Lemma resolvePackageEntry_success_or_throw_example :
  (resolvePackageEntry (Sample.env [] [brokenPackage]) 1 "broken"
     brokenPackage Sample.options).1
  = Throw {| message :=
               "Failed to resolve entry for package " +:+ dquote +:+ "broken"
               +:+ dquote
               +:+ ". The package may have incorrect main/module/exports specified in its package.json.";
             code := Some "ERR_RESOLVE_PACKAGE_ENTRY_FAIL" |}.
Proof.
  rewrite (proj1 (proj2 (proj2 (resolvePackageEntry_success_or_throw
                                  (Sample.env [] [brokenPackage]) 1 "broken"
                                  brokenPackage Sample.options)))
             eq_refl (Some "missing.js") eq_refl).
  - reflexivity.
  - repeat constructor. exists None. split; reflexivity.
Defined.


(** From the project root the same specifier is not found. *)
Example tryNodeResolve_peer_from_root :
  tryNodeResolve (Sample.env consumerFiles [consumerPackage]) 1 "bar" None
    Sample.options None None
  = (Ok None, None).
Proof. reflexivity. Qed.

Lemma tryNodeResolve_self_reference_example :
  (tryNodeResolve (Sample.env selfFiles [selfPackage]) 1 "pkg/sub"
     (Some "/proj/packages/pkg/src/main.js") Sample.options None None).1
  = Ok (Some {| id := "/proj/packages/pkg/src/sub.js";
                moduleSideEffects := None; external := None |})
  ∧ resolvePackageData (Sample.env selfFiles [selfPackage]) "pkg"
      "/proj/packages/pkg/src" false = None.
Proof.
  split; [|reflexivity].
  rewrite (proj2 (proj1 (proj2 (tryNodeResolve_self_reference
                                  (Sample.env selfFiles [selfPackage]) 1
                                  "pkg/sub"
                                  (Some "/proj/packages/pkg/src/main.js")
                                  Sample.options None None selfPackage
                                  eq_refl eq_refl eq_refl)) eq_refl)).
  reflexivity.
Defined.

Lemma resolvePackageEntry_falsy_browser_mapping_example :
  probeEntry (Sample.env shimFiles [shimPackage])
    (resolvePackageEntry_nested (Sample.env shimFiles [shimPackage]) 1)
    (dir shimPackage) (data shimPackage) Sample.options "index.js"
  = Ok (Some "/proj/node_modules/shim/index.js")
  ∧ (resolvePackageEntry (Sample.env shimFiles [shimPackage]) 1 "shim"
       shimPackage Sample.options).1
    = Ok (Some "/proj/node_modules/shim/index.js")
  ∧ (resolveDeepImport (Sample.env shimFiles [shimPackage]) 1 "./index.js"
       shimPackage Sample.options).1
    = Ok (Some browserExternalId).
Proof.
  pose proof (resolvePackageEntry_falsy_browser_mapping
                (Sample.env shimFiles [shimPackage]) 1 "shim" shimPackage
                Sample.options) as (Hroot & _ & Hdeep).
  split; [|split].
  - rewrite (proj2 (Hroot "index.js" [("./index.js", BrowserFalse)] eq_refl
                      (or_introl eq_refl) eq_refl)).
    reflexivity.
  - reflexivity.
  - apply (Hdeep "./index.js" [("./index.js", BrowserFalse)]); reflexivity.
Defined.

(** In [node_modules], [a#b] is first read as a file name and found as
    [a#b.js]; outside, the [#h] of [x.js#h] is a postfix. *)
Lemma tryFsResolve_hash_handling_example :
  tryFsResolve (Sample.env hashFiles []) 1 "/proj/node_modules/pkg/a#b"
    Sample.options true false
  = Ok (Some "/proj/node_modules/pkg/a#b.js")
  ∧ tryFsResolve (Sample.env swapFiles []) 1 "/proj/src/x.js#h"
      Sample.options true false
    = Ok (Some "/proj/src/x.ts#h").
Proof.
  split.
  - pose proof (proj1 (proj2 (tryFsResolve_hash_handling
                                (Sample.env hashFiles []) 1
                                "/proj/node_modules/pkg/a#b" Sample.options
                                true false))
                  eq_refl ltac:(vm_compute; discriminate) (or_introl eq_refl))
      as (_ & _ & _ & _ & ->).
    reflexivity.
  - rewrite (proj2 (proj2 (tryFsResolve_hash_handling
                             (Sample.env swapFiles []) 1 "/proj/src/x.js#h"
                             Sample.options true false)) eq_refl).
    reflexivity.
Defined.

(** * Further properties of the resolver *)

(** ** Probing the filesystem, case by case *)

Section OrElseCases.

Lemma or_else_cases (first next R : result (option string)) :
  first orelse next = R
  ↔ (∃ r, first = Ok r ∧ JS.truthy r = true ∧ R = Ok r)
    ∨ (∃ e, first = Throw e ∧ R = Throw e)
    ∨ ((∃ res, first = Ok res ∧ JS.truthy res = false) ∧ next = R).
Proof.
  unfold or_else. destruct first as [res|e]; cbn [mbind result_bind].
  - destruct (JS.truthy res) eqn:Hres; split.
    + intros <-. left. by exists res.
    + intros [(r & [= <-] & _ & ->) | [(e & [=] & _) | [(r & [= <-] & Hr) _]]];
        [done | congruence].
    + intros <-. right. right. split; [by exists res | done].
    + intros [(r & [= <-] & Hr & ->) | [(e & [=] & _) | [_ Hnext]]];
        [congruence | done].
  - split.
    + intros <-. right. left. by exists e.
    + intros [(r & [=] & _) | [(e' & [= <-] & ->) | [(r & [=] & _) _]]]. done.
Qed.

Lemma truthy_nonempty (r : string) :
  JS.truthy (Some r) = true → r ≠ EmptyString.
Proof. by intros ?%truthy_Some. Qed.

Lemma truthy_is_Some (v : option string) :
  JS.truthy v = true ↔ ∃ r, v = Some r ∧ r ≠ EmptyString.
Proof.
  destruct v as [r|]; simpl.
  - rewrite truthy_Some. split; [by exists r | by intros (? & [= <-] & ?)].
  - split; [done | by intros (? & [=] & _)].
Qed.

End OrElseCases.

Section PhaseSplit.
Context (env : Env).

Lemma tryCleanFsResolve_phases resolveEntry file options tryIndex
    skipPackageJson :
  tryCleanFsResolve_with env resolveEntry file options tryIndex skipPackageJson
  = (fileResult ← tryResolveRealFileOrType env file (preserveSymlinks options);
     match fileResult with
     | Some (FileResult p) => Ok (Some p)
     | _ => Ok None
     end
     orelse siblingProbes env file options
     orelse
     (if tryIndex && isDirectoryResult fileResult then
        returned ←
          (if negb skipPackageJson then
             try_catch
               (if existsSync env (file +:+ "/package.json") then
                  r ← manifestEntry env resolveEntry file options; Ok (Some r)
                else Ok None)
               (λ e,
                  if bool_decide (code e ≠ Some ERR_RESOLVE_PACKAGE_ENTRY_FAIL)
                     && bool_decide (code e ≠ Some "ENOENT")
                  then Throw e else Ok None)
           else Ok None);
        match returned with
        | Some r => Ok r
        | None => indexProbes env file options
        end
      else Ok None)).
Proof.
  unfold tryCleanFsResolve_with, siblingProbes, indexProbes, manifestEntry.
  destruct (tryResolveRealFileOrType env file (preserveSymlinks options))
    as [fileResult|e]; [|done].
  cbn [mbind result_bind].
  f_equal. f_equal.
  destruct (tryIndex && isDirectoryResult fileResult); [|done].
  destruct (negb skipPackageJson); [|done].
  destruct (existsSync env (file +:+ "/package.json")); [|done].
  destruct (negb (preserveSymlinks options)).
  - destruct (safeRealpathSync env _) as [p|]; [|done]. cbn [mbind result_bind].
    destruct (loadPackageData env p) as [pkg|]; [|done].
    cbn [mbind result_bind]. done.
  - cbn [mbind result_bind].
    destruct (loadPackageData env _) as [pkg|]; [|done].
    cbn [mbind result_bind]. done.
Qed.

End PhaseSplit.

Section ExtensionProbes.
Context (env : Env).

Lemma tryResolveRealFileWithExtensions_cases filePath extensions ps R :
  tryResolveRealFileWithExtensions env filePath extensions ps = R
  ↔ (Forall (probeMisses env filePath ps) extensions ∧ R = Ok None)
    ∨ ∃ before ext after,
        extensions = before ++ ext :: after
        ∧ Forall (probeMisses env filePath ps) before
        ∧ tryResolveRealFile env (filePath +:+ ext) ps = R
        ∧ ((∃ r, R = Ok (Some r) ∧ r ≠ EmptyString) ∨ ∃ e, R = Throw e).
Proof.
  induction extensions as [|ext rest IH]; simpl.
  - split.
    + intros <-. left. done.
    + intros [[_ ->] | (before & ? & ? & Heq & _)]; [done|]. by destruct before.
  - rewrite or_else_cases, IH. split.
    + intros [(r & Hfirst & Hr & ->) | [(e & Hfirst & ->) | [Hmiss Hrest]]].
      * right. exists [], ext, rest. split; [done|]. split; [done|].
        split; [done|].
        left. apply truthy_is_Some in Hr as (r' & -> & Hr'). eauto.
      * right. exists [], ext, rest. split; [done|]. split; [done|].
        split; [done|]. eauto.
      * destruct Hrest
          as [[Hall ->] | (before & ext' & after & -> & Hbefore & Hprobe & HR)].
        -- left. split; [by constructor | done].
        -- right. exists (ext :: before), ext', after.
           split; [done|]. split; [by constructor|]. done.
    + intros [[Hall ->]
             | (before & ext' & after & Heq & Hbefore & Hprobe & HR)].
      * inversion Hall; subst. right. right. split; [done|]. by left.
      * destruct before as [|b before]; simplify_eq/=.
        -- destruct HR as [(r & -> & Hr) | (e & ->)].
           ++ left. exists (Some r). split; [done|].
              split; [by apply truthy_Some | done].
           ++ right. left. by exists e.
        -- inversion Hbefore; subst. right. right. split; [done|].
           right. by exists before, ext', after.
Qed.

(** X1. [tryResolveRealFileWithExtensions] tries the extensions in their
    order. It returns a path exactly when some extension's probe finds a
    file after probes that all found nothing, and the path is the one of
    that first find, never empty; it throws exactly when the first probe
    that does not miss throws; and it returns [undefined] exactly when
    every probe misses, as for an empty list of extensions. *)
Theorem tryResolveRealFileWithExtensions_first_match (filePath : string)
    (extensions : list string) (preserveSymlinks : bool) :
  let probe ext := tryResolveRealFile env (filePath +:+ ext) preserveSymlinks in
  let found := tryResolveRealFileWithExtensions env filePath extensions
                 preserveSymlinks in
  (∀ r, found = Ok (Some r)
        ↔ r ≠ EmptyString
          ∧ ∃ before ext after,
              extensions = before ++ ext :: after
              ∧ Forall (probeMisses env filePath preserveSymlinks) before
              ∧ probe ext = Ok (Some r))
  ∧ (∀ e, found = Throw e
          ↔ ∃ before ext after,
              extensions = before ++ ext :: after
              ∧ Forall (probeMisses env filePath preserveSymlinks) before
              ∧ probe ext = Throw e)
  ∧ (found = Ok None
     ↔ Forall (probeMisses env filePath preserveSymlinks) extensions).
Proof.
  intros probe found. subst probe found. split; [|split].
  - intros r. rewrite tryResolveRealFileWithExtensions_cases. split.
    + intros [[_ [=]] | (before & ext & after & -> & Hbefore & Hprobe & HR)].
      destruct HR as [(r' & [= <-] & Hr) | (e & [=])]. split; [done|].
      by exists before, ext, after.
    + intros (Hr & before & ext & after & -> & Hbefore & Hprobe).
      right. exists before, ext, after. split; [done|]. split; [done|].
      split; [done|]. left. eauto.
  - intros e. rewrite tryResolveRealFileWithExtensions_cases. split.
    + intros [[_ [=]] | (before & ext & after & -> & Hbefore & Hprobe & HR)].
      by exists before, ext, after.
    + intros (before & ext & after & -> & Hbefore & Hprobe).
      right. exists before, ext, after. split; [done|]. split; [done|].
      split; [done|]. right. eauto.
  - rewrite tryResolveRealFileWithExtensions_cases. split.
    + intros [[Hall _] | (before & ext & after & -> & Hbefore & Hprobe & HR)];
        [done|].
      destruct HR as [(r' & [=] & _) | (e & [=])].
    + intros Hall. by left.
Qed.

End ExtensionProbes.

Section NoThrow.
Context (env : Env).

Lemma or_else_returns (first next : result (option string)) :
  (∃ r, first = Ok r) → (∃ r, next = Ok r) → ∃ r, first orelse next = Ok r.
Proof.
  intros [r ->] [r' ->]. unfold or_else. cbn [mbind result_bind].
  destruct (JS.truthy r); eauto.
Qed.

Lemma getRealPath_returns options resolved :
  realpathNeverFails env options →
  ∃ q, getRealPath env resolved (preserveSymlinks options) = Ok q.
Proof.
  unfold getRealPath. intros [-> | Hreal]; [by eexists|].
  destruct (preserveSymlinks options); [by eexists|]. simpl.
  destruct (Hreal resolved) as [q ->]. by eexists.
Qed.

Lemma tryResolveRealFile_returns options file :
  realpathNeverFails env options →
  ∃ r, tryResolveRealFile env file (preserveSymlinks options) = Ok r.
Proof.
  intros Hreal. unfold tryResolveRealFile.
  destruct (tryStatSync env file) as [[]|]; try by eexists.
  destruct (getRealPath_returns options file Hreal) as [q ->]. by eexists.
Qed.

Lemma tryResolveRealFileWithExtensions_returns options filePath extensions :
  realpathNeverFails env options →
  ∃ r, tryResolveRealFileWithExtensions env filePath extensions
         (preserveSymlinks options) = Ok r.
Proof.
  intros Hreal. induction extensions as [|ext rest IH]; [by eexists|].
  simpl. apply or_else_returns; [by apply tryResolveRealFile_returns | done].
Qed.

Lemma siblingProbes_returns options file :
  realpathNeverFails env options → ∃ r, siblingProbes env file options = Ok r.
Proof.
  intros Hreal. unfold siblingProbes.
  destruct (_ || _ || _); [|by eexists].
  destruct (isDirectory env _); [|by eexists].
  repeat apply or_else_returns.
  - destruct (isPossibleTsOutput file); [|by eexists].
    apply or_else_returns; [by apply tryResolveRealFile_returns|].
    destruct (bool_decide _); [by apply tryResolveRealFile_returns | by eexists].
  - by apply tryResolveRealFileWithExtensions_returns.
  - destruct (JS.truthy _); [|by eexists].
    apply or_else_returns; [by apply tryResolveRealFile_returns|].
    by apply tryResolveRealFileWithExtensions_returns.
Qed.

Lemma indexProbes_returns options dirPath :
  realpathNeverFails env options → ∃ r, indexProbes env dirPath options = Ok r.
Proof.
  intros Hreal. unfold indexProbes.
  repeat apply or_else_returns.
  - by apply tryResolveRealFileWithExtensions_returns.
  - destruct (JS.truthy _); [|by eexists].
    by apply tryResolveRealFileWithExtensions_returns.
  - by eexists.
Qed.

Lemma tryCleanFsResolve_with_returns resolveEntry options file tryIndex
    skipPackageJson :
  realpathNeverFails env options →
  tryIndex = false ∨ skipPackageJson = true →
  ∃ r, tryCleanFsResolve_with env resolveEntry file options tryIndex
         skipPackageJson = Ok r.
Proof.
  intros Hreal Hskip. rewrite tryCleanFsResolve_phases.
  assert (∃ fileResult,
            tryResolveRealFileOrType env file (preserveSymlinks options)
            = Ok fileResult) as [fileResult ->].
  { unfold tryResolveRealFileOrType.
    destruct (tryStatSync env file) as [[]|]; try by eexists.
    destruct (getRealPath_returns options file Hreal) as [q ->]. by eexists. }
  cbn [mbind result_bind].
  repeat apply or_else_returns.
  - destruct fileResult as [[]|]; by eexists.
  - by apply siblingProbes_returns.
  - destruct Hskip as [-> | ->]; [by eexists|].
    destruct (tryIndex && _); [|by eexists]. cbn [negb mbind result_bind].
    by apply indexProbes_returns.
Qed.

(** X2. When resolving symbolic links cannot fail (they are preserved, or
    [safeRealpathSync] returns for every path) and no package manifest is
    consulted ([tryIndex] is off or [skipPackageJson] is on),
    [tryFsResolve] returns: it does not throw. *)
Theorem tryFsResolve_never_throws (depth : nat) (fsPath : string)
    (options : InternalResolveOptions) (tryIndex skipPackageJson : bool) :
  realpathNeverFails env options →
  tryIndex = false ∨ skipPackageJson = true →
  ∃ r, tryFsResolve env depth fsPath options tryIndex skipPackageJson = Ok r.
Proof.
  intros Hreal Hskip. unfold tryFsResolve, tryFsResolve_with.
  apply or_else_returns.
  - destruct (_ && _); [|by eexists].
    destruct (_ || _); [|by eexists].
    destruct (tryCleanFsResolve_with_returns
                (resolvePackageEntry_nested env depth) options
                (if JS.indexOf fsPath "#" <? JS.indexOf fsPath "?"
                 then JS.slice fsPath 0 (Some (JS.indexOf fsPath "?"))
                 else fsPath) tryIndex skipPackageJson Hreal Hskip)
      as [r ->].
    cbn [mbind result_bind]. destruct (JS.truthy r); by eexists.
  - destruct (splitFileAndPostfix fsPath) as [file postfix].
    destruct (tryCleanFsResolve_with_returns
                (resolvePackageEntry_nested env depth) options file tryIndex
                skipPackageJson Hreal Hskip) as [r ->].
    cbn [mbind result_bind]. destruct (JS.truthy r); by eexists.
Qed.

End NoThrow.

Section NonEmpty.
Context (env : Env).

Lemma or_else_nonempty (first next : result (option string)) (r : string) :
  first orelse next = Ok (Some r) →
  (next = Ok (Some r) → r ≠ EmptyString) → r ≠ EmptyString.
Proof.
  intros [(r' & _ & Hr & [= <-]) | [(e & _ & [=]) | [_ Hnext]]]%or_else_cases
    Hrest; [by apply truthy_nonempty | by apply Hrest].
Qed.

Lemma indexProbes_nonempty dirPath options r :
  indexProbes env dirPath options = Ok (Some r) → r ≠ EmptyString.
Proof.
  unfold indexProbes. intros H.
  apply (or_else_nonempty _ _ _ H). clear H. intros H.
  by apply (or_else_nonempty _ _ _ H).
Qed.

Lemma tryCleanFsResolve_with_nonempty resolveEntry file options tryIndex
    skipPackageJson r :
  (∀ d pkg o s, resolveEntry d pkg o = Ok (Some s) → s ≠ EmptyString) →
  tryCleanFsResolve_with env resolveEntry file options tryIndex
    skipPackageJson = Ok (Some r) →
  r ≠ EmptyString.
Proof.
  intros Hentry. rewrite tryCleanFsResolve_phases.
  destruct (tryResolveRealFileOrType _ _ _) as [fileResult|]; [|done].
  cbn [mbind result_bind]. intros H.
  apply (or_else_nonempty _ _ _ H). clear H. intros H.
  apply (or_else_nonempty _ _ _ H). clear H.
  destruct (tryIndex && _); [|done].
  destruct (negb skipPackageJson); cbn [mbind result_bind];
    [|apply indexProbes_nonempty].
  destruct (existsSync env _); cbn [try_catch mbind result_bind];
    [|apply indexProbes_nonempty].
  unfold manifestEntry.
  destruct (if negb (preserveSymlinks options) then _ else _) as [p|e];
    cbn [try_catch mbind result_bind].
  - destruct (loadPackageData env p) as [pkg|e];
      cbn [try_catch mbind result_bind].
    + destruct (resolveEntry file pkg options) as [s|e] eqn:Hs;
        cbn [try_catch mbind result_bind].
      * intros [= ->]. by eapply Hentry.
      * destruct (_ && _); [done|]. apply indexProbes_nonempty.
    + destruct (_ && _); [done|]. apply indexProbes_nonempty.
  - destruct (_ && _); [done|]. apply indexProbes_nonempty.
Qed.

Lemma resolvePackageEntry_with_nonempty resolveEntry id_ pkg options r :
  (resolvePackageEntry_with env resolveEntry id_ pkg options).1 = Ok (Some r) →
  r ≠ EmptyString.
Proof.
  unfold resolvePackageEntry_with.
  destruct (splitFileAndPostfix id_) as [idWithoutPostfix postfix].
  destruct (JS.truthy (getResolvedCache env pkg "." options)) eqn:Hc.
  - intros [= <-]. apply truthy_nonempty, truthy_append.
    by rewrite <- truthy_template.
  - destruct (resolvePackageEntry_try _ _ _ _) as [res|]; [|done].
    destruct (JS.truthy res) eqn:Hres; [|done].
    intros [= <-]. apply truthy_nonempty, truthy_append.
    by rewrite <- truthy_template.
Qed.

Lemma resolvePackageEntry_nested_nonempty depth d pkg o s :
  resolvePackageEntry_nested env depth d pkg o = Ok (Some s) → s ≠ EmptyString.
Proof.
  destruct depth as [|n]; [done|]. simpl.
  apply resolvePackageEntry_with_nonempty.
Qed.

Lemma tryCleanFsResolve_nonempty depth file options tryIndex skipPackageJson
    r :
  tryCleanFsResolve env depth file options tryIndex skipPackageJson
  = Ok (Some r) →
  r ≠ EmptyString.
Proof.
  apply tryCleanFsResolve_with_nonempty.
  apply resolvePackageEntry_nested_nonempty.
Qed.

(** For a path with neither [?] nor [#], [tryFsResolve] is
    [tryCleanFsResolve]. *)
Lemma tryFsResolve_bare depth file options tryIndex skipPackageJson :
  isBare file →
  tryFsResolve env depth file options tryIndex skipPackageJson
  = tryCleanFsResolve env depth file options tryIndex skipPackageJson.
Proof.
  intros Hbare. rewrite tryFsResolve_split.
  - rewrite splitFileAndPostfix_bare_id by done. unfold reattach. simpl.
    destruct (tryCleanFsResolve env depth file options tryIndex
                skipPackageJson) as [[r|]|e] eqn:Hres; [|done..].
    cbn [mbind result_bind].
    pose proof (tryCleanFsResolve_nonempty _ _ _ _ _ _ Hres) as Hr.
    apply truthy_Some in Hr. rewrite Hr. simpl. by rewrite append_empty_r.
  - unfold hashIsFileName. destruct Hbare as [_ Hhash].
    unfold JS.includes in Hhash. by rewrite Hhash.
Qed.

Lemma resolveDeepImport_nonempty depth id_ pkg options r :
  (resolveDeepImport env depth id_ pkg options).1 = Ok (Some r) →
  r ≠ EmptyString.
Proof.
  unfold resolveDeepImport, resolveDeepImport_with.
  destruct (JS.truthy (getResolvedCache env pkg id_ options)) eqn:Hc.
  { simpl. intros [= Heq]. rewrite Heq in Hc. by apply truthy_nonempty. }
  destruct (resolveDeepImport_relativeId _ _ _ _) as [[relativeId|]|];
    [|by intros [= <-]|done].
  destruct (JS.truthy relativeId); [|done].
  destruct (tryFsResolve_with _ _ _ _ _ _) as [resolved|] eqn:Hres; [|done].
  destruct (JS.truthy resolved) eqn:Ht; [|done]. simpl.
  intros [= ->]. by apply truthy_nonempty.
Qed.

(** X3. A path returned by [tryCleanFsResolve], [tryFsResolve],
    [resolvePackageEntry] or [resolveDeepImport] is never the empty
    string: every one of them returns a truthy path, [undefined], or
    throws. *)
Theorem resolved_paths_nonempty (depth : nat)
    (options : InternalResolveOptions) :
  (∀ file tryIndex skipPackageJson r,
     tryCleanFsResolve env depth file options tryIndex skipPackageJson
     = Ok (Some r) → r ≠ EmptyString)
  ∧ (∀ fsPath tryIndex skipPackageJson r,
       tryFsResolve env depth fsPath options tryIndex skipPackageJson
       = Ok (Some r) → r ≠ EmptyString)
  ∧ (∀ id_ pkg r,
       (resolvePackageEntry env depth id_ pkg options).1 = Ok (Some r) →
       r ≠ EmptyString)
  ∧ (∀ id_ pkg r,
       (resolveDeepImport env depth id_ pkg options).1 = Ok (Some r) →
       r ≠ EmptyString).
Proof.
  split; [|split; [|split]].
  - intros. by eapply tryCleanFsResolve_nonempty.
  - intros. by eapply tryFsResolve_truthy.
  - intros. by eapply resolvePackageEntry_with_nonempty.
  - intros. by eapply resolveDeepImport_nonempty.
Qed.

End NonEmpty.

Section Files.
Context (env : Env).

(** X4. A path that is a file resolves to its real path before any other
    probe, whatever the extensions, the prefix and the flags are; for a
    path with neither [?] nor [#], [tryFsResolve] gives the same. An error
    of the real-path lookup is thrown as it is. *)
Theorem tryCleanFsResolve_existing_file (depth : nat) (file : string)
    (options : InternalResolveOptions) (tryIndex skipPackageJson : bool) :
  tryStatSync env file = Some IsFile →
  (∀ r, getRealPath env file (preserveSymlinks options) = Ok r →
        r ≠ EmptyString →
        tryCleanFsResolve env depth file options tryIndex skipPackageJson
        = Ok (Some r)
        ∧ (isBare file →
           tryFsResolve env depth file options tryIndex skipPackageJson
           = Ok (Some r)))
  ∧ (∀ e, getRealPath env file (preserveSymlinks options) = Throw e →
          tryCleanFsResolve env depth file options tryIndex skipPackageJson
          = Throw e).
Proof.
  intros Hstat.
  assert (∀ r, getRealPath env file (preserveSymlinks options) = Ok r →
               r ≠ EmptyString →
               tryCleanFsResolve env depth file options tryIndex
                 skipPackageJson = Ok (Some r)) as Hclean.
  { intros r Hreal Hr. unfold tryCleanFsResolve, tryCleanFsResolve_with,
      tryResolveRealFileOrType.
    rewrite Hstat, Hreal. cbn [mbind result_bind].
    apply or_else_truthy; [done | by apply truthy_Some]. }
  split.
  - intros r Hreal Hr. split; [by apply Hclean|].
    intros Hbare. rewrite tryFsResolve_bare by done. by apply Hclean.
  - intros e Hreal. unfold tryCleanFsResolve, tryCleanFsResolve_with,
      tryResolveRealFileOrType.
    by rewrite Hstat, Hreal.
Qed.

(** X5. When the path is neither a file nor a directory and its parent is
    no directory, [tryCleanFsResolve] returns [undefined]: nothing is
    probed and nothing is thrown. *)
Theorem tryCleanFsResolve_missing_directory (depth : nat) (file : string)
    (options : InternalResolveOptions) (tryIndex skipPackageJson : bool) :
  tryStatSync env file ≠ Some IsFile →
  tryStatSync env file ≠ Some IsDirectory →
  isDirectory env (path.dirname file) = false →
  tryCleanFsResolve env depth file options tryIndex skipPackageJson = Ok None
  ∧ (isBare file →
     tryFsResolve env depth file options tryIndex skipPackageJson = Ok None).
Proof.
  intros Hfile Hdir Hparent.
  assert (tryCleanFsResolve env depth file options tryIndex skipPackageJson
          = Ok None) as Hclean.
  { unfold tryCleanFsResolve. rewrite tryCleanFsResolve_phases.
    unfold tryResolveRealFileOrType, siblingProbes. rewrite Hparent.
    destruct (tryStatSync env file) as [[]|]; try done;
      cbn [mbind result_bind isDirectoryResult];
      rewrite andb_false_r; by destruct (_ || _ || _). }
  split; [done|]. intros Hbare. by rewrite tryFsResolve_bare.
Qed.

(** X6. When [file] is no file itself, is no compiled-output name, and its
    parent directory exists, a file found by appending a configured
    extension is the result, before the prefix probes and before the
    directory handling: with [lib.js] beside the directory [lib], the
    result is [lib.js], whatever manifest or index file [lib] holds. *)
Theorem tryCleanFsResolve_extension_before_directory (depth : nat)
    (file : string) (options : InternalResolveOptions)
    (tryIndex skipPackageJson : bool) (r : string) :
  tryStatSync env file ≠ Some IsFile →
  isPossibleTsOutput file = false →
  isDirectory env (path.dirname file) = true →
  tryResolveRealFileWithExtensions env file (extensions options)
    (preserveSymlinks options) = Ok (Some r) →
  tryCleanFsResolve env depth file options tryIndex skipPackageJson
  = Ok (Some r).
Proof.
  intros Hfile Hts Hparent Hext.
  assert (r ≠ EmptyString) as Hr.
  { apply tryResolveRealFileWithExtensions_cases in Hext
      as [[_ [=]] | (_ & _ & _ & _ & _ & _ & [(r' & [= <-] & Hr) | (e & [=])])].
    done. }
  assert (extensions options ≠ []) as Hne.
  { intros Hnil. by rewrite Hnil in Hext. }
  unfold tryCleanFsResolve. rewrite tryCleanFsResolve_phases.
  assert (∃ fileResult,
            tryResolveRealFileOrType env file (preserveSymlinks options)
            = Ok fileResult
            ∧ match fileResult with
              | Some (FileResult _) => False
              | _ => True
              end) as (fileResult & -> & HfileResult).
  { unfold tryResolveRealFileOrType.
    destruct (tryStatSync env file) as [[]|]; try done; by eexists. }
  cbn [mbind result_bind].
  erewrite (or_else_falsy _ _ None); [|by destruct fileResult as [[]|] | done].
  apply or_else_truthy; [|by apply truthy_Some].
  unfold siblingProbes. rewrite Hts, Hparent.
  rewrite (bool_decide_eq_false_2 _ Hne). cbn [orb negb].
  erewrite (or_else_falsy (Ok None)); [|done..].
  apply or_else_truthy; [done | by apply truthy_Some].
Qed.

End Files.

Section Prefix.
Context (env : Env).

(** X7. With a prefix configured, when [file] is no file, is no
    compiled-output name, its parent directory exists and no configured
    extension finds a file, the prefixed sibling (the parent directory,
    the prefix, the last component) is probed, alone and then with the
    extensions, and the first of these that is a file is the result. *)
Theorem tryCleanFsResolve_prefixed_sibling (depth : nat) (file : string)
    (options : InternalResolveOptions) (tryIndex skipPackageJson : bool)
    (prefix r : string) :
  let prefixed :=
    path.dirname file +:+ "/" +:+ prefix +:+ path.basename file in
  tryStatSync env file ≠ Some IsFile →
  isPossibleTsOutput file = false →
  isDirectory env (path.dirname file) = true →
  tryPrefix options = Some prefix → prefix ≠ EmptyString →
  Forall (probeMisses env file (preserveSymlinks options))
    (extensions options) →
  r ≠ EmptyString →
  tryResolveRealFile env prefixed (preserveSymlinks options) = Ok (Some r)
  ∨ (∃ res, tryResolveRealFile env prefixed (preserveSymlinks options)
            = Ok res
            ∧ JS.truthy res = false)
    ∧ tryResolveRealFileWithExtensions env prefixed (extensions options)
        (preserveSymlinks options) = Ok (Some r) →
  tryCleanFsResolve env depth file options tryIndex skipPackageJson
  = Ok (Some r).
Proof.
  intros prefixed Hfile Hts Hparent Hprefix Hp Hmiss Hr Hfound.
  apply truthy_Some in Hr. apply truthy_Some in Hp.
  unfold tryCleanFsResolve. rewrite tryCleanFsResolve_phases.
  assert (∃ fileResult,
            tryResolveRealFileOrType env file (preserveSymlinks options)
            = Ok fileResult
            ∧ match fileResult with
              | Some (FileResult _) => False
              | _ => True
              end) as (fileResult & -> & HfileResult).
  { unfold tryResolveRealFileOrType.
    destruct (tryStatSync env file) as [[]|]; try done; by eexists. }
  cbn [mbind result_bind].
  erewrite (or_else_falsy _ _ None); [|by destruct fileResult as [[]|] | done].
  apply or_else_truthy; [|done].
  unfold siblingProbes. rewrite Hts, Hparent, Hprefix, Hp.
  rewrite orb_true_r. cbn [template default]. fold prefixed.
  erewrite (or_else_falsy (Ok None)); [|done..].
  erewrite (or_else_falsy _ _ None);
    [|by apply tryResolveRealFileWithExtensions_cases; left | done].
  destruct Hfound as [Hfound | [(res & Hres & Hfalsy) Hfound]].
  - by apply or_else_truthy.
  - by erewrite or_else_falsy.
Qed.

End Prefix.

(** ** Directories *)

Section Directories.
Context (env : Env).

(** For a directory beside which nothing is found, the result is the one
    of the last phase. *)
Lemma tryCleanFsResolve_with_directory resolveEntry file options tryIndex
    skipPackageJson :
  tryStatSync env file = Some IsDirectory →
  (∃ res, siblingProbes env file options = Ok res ∧ JS.truthy res = false) →
  tryCleanFsResolve_with env resolveEntry file options tryIndex
    skipPackageJson
  = if tryIndex then
      returned ←
        (if negb skipPackageJson then
           try_catch
             (if existsSync env (file +:+ "/package.json") then
                r ← manifestEntry env resolveEntry file options; Ok (Some r)
              else Ok None)
             (λ e,
                if bool_decide (code e ≠ Some ERR_RESOLVE_PACKAGE_ENTRY_FAIL)
                   && bool_decide (code e ≠ Some "ENOENT")
                then Throw e else Ok None)
         else Ok None);
      match returned with
      | Some r => Ok r
      | None => indexProbes env file options
      end
    else Ok None.
Proof.
  intros Hstat (res & Hsib & Hres). rewrite tryCleanFsResolve_phases.
  unfold tryResolveRealFileOrType. rewrite Hstat, Hsib.
  cbn [mbind result_bind isDirectoryResult].
  erewrite (or_else_falsy (Ok None)); [|done..].
  erewrite (or_else_falsy (Ok res)); [|done..].
  by rewrite andb_true_r.
Qed.

(** X8. For a directory beside which nothing is found: without [tryIndex]
    the result is [undefined]; with [skipPackageJson], or without a
    manifest in the directory, it is the index file of the directory;
    otherwise it is the package entry of the manifest, where an error
    with the code [ERR_RESOLVE_PACKAGE_ENTRY_FAIL] or [ENOENT] is dropped
    and the index file is taken instead, and any other error is thrown
    again. *)
Theorem tryCleanFsResolve_directory (depth : nat) (file : string)
    (options : InternalResolveOptions) (tryIndex skipPackageJson : bool) :
  tryStatSync env file = Some IsDirectory →
  (∃ res, siblingProbes env file options = Ok res ∧ JS.truthy res = false) →
  tryCleanFsResolve env depth file options tryIndex skipPackageJson
  = if negb tryIndex then Ok None
    else if skipPackageJson || negb (existsSync env (file +:+ "/package.json"))
    then indexProbes env file options
    else
      match manifestEntry env (resolvePackageEntry_nested env depth) file
              options with
      | Ok r => Ok r
      | Throw e =>
          if bool_decide (code e = Some ERR_RESOLVE_PACKAGE_ENTRY_FAIL)
             || bool_decide (code e = Some "ENOENT")
          then indexProbes env file options
          else Throw e
      end.
Proof.
  intros Hstat Hsib. unfold tryCleanFsResolve.
  rewrite tryCleanFsResolve_with_directory by done.
  destruct tryIndex; [|done]. cbn [negb].
  destruct skipPackageJson; [done|]. cbn [negb orb].
  destruct (existsSync env _); [|done]. cbn [negb].
  destruct (manifestEntry env _ file options) as [r|e];
    cbn [try_catch mbind result_bind]; [done|].
  destruct (decide (code e = Some ERR_RESOLVE_PACKAGE_ENTRY_FAIL)) as [He|He].
  { rewrite (bool_decide_eq_false_2 (code e ≠ _)) by (by intros ?).
    by rewrite (bool_decide_eq_true_2 _ He). }
  rewrite (bool_decide_eq_true_2 (code e ≠ Some ERR_RESOLVE_PACKAGE_ENTRY_FAIL))
    by done.
  rewrite (bool_decide_eq_false_2 _ He). cbn [andb orb].
  destruct (decide (code e = Some "ENOENT")) as [He'|He'].
  { rewrite (bool_decide_eq_false_2 (code e ≠ _)) by (by intros ?).
    by rewrite (bool_decide_eq_true_2 _ He'). }
  rewrite (bool_decide_eq_true_2 (code e ≠ Some "ENOENT")) by done.
  by rewrite (bool_decide_eq_false_2 _ He').
Qed.

Lemma resolvePackageEntry_with_code resolveEntry id_ pkg options e :
  (resolvePackageEntry_with env resolveEntry id_ pkg options).1 = Throw e →
  code e = Some ERR_RESOLVE_PACKAGE_ENTRY_FAIL.
Proof.
  unfold resolvePackageEntry_with.
  destruct (splitFileAndPostfix id_) as [idWithoutPostfix postfix].
  destruct (JS.truthy _); [done|].
  destruct (resolvePackageEntry_try _ _ _ _) as [res|e0].
  - destruct (JS.truthy res); [done|]. by intros [= <-].
  - by intros [= <-].
Qed.

(** X9. For a directory whose manifest exists and loads, a failure to
    resolve the package entry never leaves [tryCleanFsResolve]: the result
    is the package entry when it resolves, and the index file of the
    directory (or [undefined]) when it does not. *)
Theorem tryCleanFsResolve_entry_failure_falls_back (depth : nat)
    (file : string) (options : InternalResolveOptions)
    (pkgPath : string) (pkg : PackageData) :
  tryStatSync env file = Some IsDirectory →
  (∃ res, siblingProbes env file options = Ok res ∧ JS.truthy res = false) →
  existsSync env (file +:+ "/package.json") = true →
  (if negb (preserveSymlinks options)
   then safeRealpathSync env (file +:+ "/package.json")
   else Ok (file +:+ "/package.json")) = Ok pkgPath →
  loadPackageData env pkgPath = Ok pkg →
  tryCleanFsResolve env (S depth) file options true false
  = match (resolvePackageEntry env depth file pkg options).1 with
    | Ok r => Ok r
    | Throw _ => indexProbes env file options
    end.
Proof.
  intros Hstat Hsib Hexists Hreal Hload.
  unfold tryCleanFsResolve.
  rewrite tryCleanFsResolve_with_directory by done.
  rewrite Hexists. cbn [negb].
  unfold manifestEntry. rewrite Hreal. cbn [mbind result_bind].
  rewrite Hload. cbn [mbind result_bind resolvePackageEntry_nested].
  fold (resolvePackageEntry env depth).
  destruct (resolvePackageEntry env depth file pkg options).1 as [r|e] eqn:Hr;
    cbn [try_catch mbind result_bind]; [done|].
  apply resolvePackageEntry_with_code in Hr. rewrite Hr.
  by rewrite bool_decide_eq_false_2 by (by intros ?).
Qed.

End Directories.

(** ** The shape of a resolved path *)

Section Shape.
Context (env : Env).

Lemma reattach_Some depth options tryIndex skipPackageJson file postfix r :
  reattach env depth options tryIndex skipPackageJson file postfix
  = Ok (Some r) →
  ∃ res, tryCleanFsResolve env depth file options tryIndex skipPackageJson
         = Ok (Some res)
         ∧ r = res +:+ postfix.
Proof.
  unfold reattach.
  destruct (tryCleanFsResolve _ _ _ _ _ _) as [res|]; [|done].
  cbn [mbind result_bind]. destruct (JS.truthy res) eqn:Hres; [|done].
  intros [= <-]. exists (template res). by rewrite <- truthy_template.
Qed.

(** X10. A path returned by [tryFsResolve] is the resolution by
    [tryCleanFsResolve] of a prefix of the input, followed by the rest of
    the input unchanged, and that rest is empty or starts with [?] or
    [#]. *)
Theorem tryFsResolve_result_shape (depth : nat) (fsPath : string)
    (options : InternalResolveOptions) (tryIndex skipPackageJson : bool)
    (r : string) :
  tryFsResolve env depth fsPath options tryIndex skipPackageJson
  = Ok (Some r) →
  ∃ file rest res,
    fsPath = file +:+ rest
    ∧ isPostfix rest
    ∧ tryCleanFsResolve env depth file options tryIndex skipPackageJson
      = Ok (Some res)
    ∧ r = res +:+ rest.
Proof.
  destruct (splitFileAndPostfix_spec fsPath)
    as (file & postfix & Hsplit & Hpath & _ & Hpost).
  assert (reattach env depth options tryIndex skipPackageJson
            (splitFileAndPostfix fsPath).1 (splitFileAndPostfix fsPath).2
          = Ok (Some r) →
          ∃ file rest res,
            fsPath = file +:+ rest ∧ isPostfix rest
            ∧ tryCleanFsResolve env depth file options tryIndex
                skipPackageJson = Ok (Some res)
            ∧ r = res +:+ rest) as Hplain.
  { rewrite Hsplit. simpl. intros (res & Hres & ->)%reattach_Some.
    by exists file, postfix, res. }
  destruct (hashIsFileName fsPath) eqn:Hhash.
  - rewrite tryFsResolve_literal by done.
    unfold hashIsFileName in Hhash.
    apply andb_true_iff in Hhash as [[Hh _]%andb_true_iff Hq].
    apply Z.leb_le in Hh.
    assert (JS.indexOf fsPath "?" < 0
            ∨ JS.indexOf fsPath "#" < JS.indexOf fsPath "?") as Hq'.
    { apply orb_true_iff in Hq as [?%Z.ltb_lt | ?%Z.ltb_lt]; auto. }
    destruct (hash_literal fsPath Hh Hq') as (Hlit & _ & _ & Hrem).
    destruct (tryCleanFsResolve _ _ _ _ _ _) as [res|] eqn:Hres; [|done].
    destruct (JS.truthy res) eqn:Ht; [|done].
    intros [= <-]. eexists _, _, (template res).
    split; [exact Hlit|]. split.
    { destruct Hrem as [-> | ?]; [by left | right; by left]. }
    by rewrite <- truthy_template.
  - by rewrite tryFsResolve_split.
Qed.

End Shape.

Section QueryFirst.
Context (env : Env).

(** X11. When the path holds a [?] and no [#] before it, [tryFsResolve]
    reads the path in one way only, inside [node_modules] too: the file is
    the part before the first [?], and the rest, from that [?] on, is
    reattached to a truthy result. *)
Theorem tryFsResolve_query_before_hash (depth : nat) (fsPath : string)
    (options : InternalResolveOptions) (tryIndex skipPackageJson : bool) :
  let hashIndex := JS.indexOf fsPath "#" in
  let queryIndex := JS.indexOf fsPath "?" in
  0 ≤ queryIndex → hashIndex < 0 ∨ queryIndex < hashIndex →
  splitFileAndPostfix fsPath
  = (JS.slice fsPath 0 (Some queryIndex), JS.slice fsPath queryIndex None)
  ∧ tryFsResolve env depth fsPath options tryIndex skipPackageJson
    = reattach env depth options tryIndex skipPackageJson
        (JS.slice fsPath 0 (Some queryIndex))
        (JS.slice fsPath queryIndex None).
Proof.
  intros hashIndex queryIndex Hq Hh.
  assert (hashIsFileName fsPath = false) as Hno.
  { unfold hashIsFileName. fold hashIndex queryIndex.
    destruct (Z.leb_spec 0 hashIndex); [|done].
    destruct (isInNodeModules fsPath); [|done]. cbn [andb].
    apply orb_false_iff. split; apply Z.ltb_ge; lia. }
  assert (splitFileAndPostfix fsPath
          = (JS.slice fsPath 0 (Some queryIndex),
             JS.slice fsPath queryIndex None)) as Hsplit.
  { subst hashIndex queryIndex.
    change "?" with (single "?") in *. change "#" with (single "#") in *.
    rewrite !indexOf_firstIndex in *.
    destruct (firstIndex "?" fsPath) as [q|] eqn:Hfq; [|lia].
    destruct (firstIndex_split _ _ _ Hfq) as (pre & post & -> & <- & Hpre).
    change (Z.of_nat (String.length pre)) with (JS.length pre).
    rewrite slice_prefix, slice_from_length.
    apply splitFileAndPostfix_bare.
    - apply isBare_firstIndex. split; [done|].
      rewrite firstIndex_app in Hh.
      destruct (firstIndex "#" pre) as [h|] eqn:Hfh; [|done].
      apply firstIndex_lt in Hfh. unfold JS.length in Hh. lia.
    - right. left. apply (startsWith_single _ _). by eexists. }
  split; [done|].
  by rewrite tryFsResolve_split, Hsplit.
Qed.

End QueryFirst.

(** ** The cache of a package descriptor *)

Section Cache.
Context (env : Env).

Lemma getResolvedCache_set pkg key entry options :
  getResolvedCache env (setResolvedCache env pkg key entry options) key options
  = Some entry.
Proof. unfold getResolvedCache, setResolvedCache. simpl. apply lookup_insert_eq. Qed.

Lemma getResolvedCache_set_ne pkg key key' entry options :
  key ≠ key' →
  getResolvedCache env (setResolvedCache env pkg key entry options) key' options
  = getResolvedCache env pkg key' options.
Proof.
  intros Hne. unfold getResolvedCache, setResolvedCache. simpl.
  apply lookup_insert_ne. congruence.
Qed.

Lemma setResolvedCache_id pkg key entry options :
  getResolvedCache env pkg key options = Some entry →
  setResolvedCache env pkg key entry options = pkg.
Proof.
  unfold getResolvedCache, setResolvedCache. intros Hget.
  rewrite insert_id by done. by destruct pkg.
Qed.

(** X12. [resolvePackageEntry] and the cache of the descriptor. When it
    returns a path, the path is a resolved entry followed by the postfix
    of the specifier, the descriptor afterwards holds that entry under
    [.], and a later call on that descriptor, with any specifier and any
    stack depth, in any environment that gives the options the same
    condition signature, returns the same entry with the postfix of its
    own specifier, leaving the descriptor as it is. When it throws, the
    descriptor is unchanged. *)
Theorem resolvePackageEntry_cache_round_trip (depth : nat) (id_ : string)
    (pkg pkg' : PackageData) (options : InternalResolveOptions)
    (r : result (option string)) :
  resolvePackageEntry env depth id_ pkg options = (r, pkg') →
  match r with
  | Ok (Some s) =>
      ∃ resolved,
        resolved ≠ EmptyString
        ∧ s = resolved +:+ (splitFileAndPostfix id_).2
        ∧ pkg' = setResolvedCache env pkg "." resolved options
        ∧ getResolvedCache env pkg' "." options = Some resolved
        ∧ ∀ env' depth' id',
            conditionSignature env' options = conditionSignature env options →
            resolvePackageEntry env' depth' id' pkg' options
            = (Ok (Some (resolved +:+ (splitFileAndPostfix id').2)), pkg')
  | _ => pkg' = pkg
  end.
Proof.
  unfold resolvePackageEntry at 1. unfold resolvePackageEntry_with.
  destruct (splitFileAndPostfix id_) as [idWithoutPostfix postfix]. simpl.
  assert (∀ resolved,
            JS.truthy (Some resolved) = true →
            getResolvedCache env pkg' "." options = Some resolved →
            ∀ env' depth' id',
              conditionSignature env' options = conditionSignature env options →
              resolvePackageEntry env' depth' id' pkg' options
              = (Ok (Some (resolved +:+ (splitFileAndPostfix id').2)), pkg'))
    as Hagain.
  { intros resolved Hr Hget env' depth' id' Hsig.
    unfold resolvePackageEntry, resolvePackageEntry_with.
    destruct (splitFileAndPostfix id') as [file' postfix']. simpl.
    unfold getResolvedCache in *. by rewrite Hsig, Hget, Hr. }
  destruct (JS.truthy (getResolvedCache env pkg "." options)) eqn:Hc.
  - intros [= <- <-]. pose proof (truthy_template _ Hc) as Hget.
    exists (template (getResolvedCache env pkg "." options)).
    split; [apply truthy_nonempty; by rewrite <- Hget|].
    split; [done|]. split; [by rewrite setResolvedCache_id|].
    split; [done|]. apply Hagain; [by rewrite <- Hget | done].
  - destruct (resolvePackageEntry_try _ _ _ _) as [res|];
      [|by intros [= <- <-]].
    destruct (JS.truthy res) eqn:Hres; [|by intros [= <- <-]].
    intros [= <- <-]. pose proof (truthy_template _ Hres) as Hget.
    exists (template res).
    split; [apply truthy_nonempty; by rewrite <- Hget|].
    split; [done|]. split; [done|].
    split; [apply getResolvedCache_set|].
    apply Hagain; [by rewrite <- Hget | apply getResolvedCache_set].
Qed.

(** X13. [resolveDeepImport] and the cache of the descriptor. When it
    returns a path (or the browser-external id), the descriptor afterwards
    holds it under the specifier, and a later call with that specifier,
    with any stack depth, in any environment that gives the options the
    same condition signature, returns it again, leaving the descriptor as
    it is. When it returns [undefined] or throws, the descriptor is
    unchanged. *)
Theorem resolveDeepImport_cache_round_trip (depth : nat) (id_ : string)
    (pkg pkg' : PackageData) (options : InternalResolveOptions)
    (r : result (option string)) :
  resolveDeepImport env depth id_ pkg options = (r, pkg') →
  match r with
  | Ok (Some s) =>
      s ≠ EmptyString
      ∧ pkg' = setResolvedCache env pkg id_ s options
      ∧ getResolvedCache env pkg' id_ options = Some s
      ∧ ∀ env' depth',
          conditionSignature env' options = conditionSignature env options →
          resolveDeepImport env' depth' id_ pkg' options = (Ok (Some s), pkg')
  | _ => pkg' = pkg
  end.
Proof.
  unfold resolveDeepImport at 1. unfold resolveDeepImport_with.
  assert (∀ s, JS.truthy (Some s) = true →
               getResolvedCache env pkg' id_ options = Some s →
               ∀ env' depth',
                 conditionSignature env' options
                 = conditionSignature env options →
                 resolveDeepImport env' depth' id_ pkg' options
                 = (Ok (Some s), pkg')) as Hagain.
  { intros s Hs Hget env' depth' Hsig.
    unfold resolveDeepImport, resolveDeepImport_with.
    unfold getResolvedCache in *. by rewrite Hsig, Hget, Hs. }
  destruct (JS.truthy (getResolvedCache env pkg id_ options)) eqn:Hc.
  - intros [= <- <-]. pose proof (truthy_template _ Hc) as Hget.
    rewrite Hget. rewrite Hget in Hc.
    split; [by apply truthy_nonempty|].
    split; [by rewrite setResolvedCache_id|]. split; [done|].
    by apply Hagain.
  - destruct (resolveDeepImport_relativeId _ _ _ _) as [[relativeId|]|e].
    + destruct (JS.truthy relativeId); [|by intros [= <- <-]].
      destruct (tryFsResolve_with _ _ _ _ _ _) as [resolved|e];
        [|by intros [= <- <-]].
      destruct (JS.truthy resolved) eqn:Hres; [|by intros [= <- <-]].
      intros [= <- <-]. pose proof (truthy_template _ Hres) as Hget.
      rewrite Hget. rewrite Hget in Hres.
      change (template (Some (template resolved))) with (template resolved).
      split; [by apply truthy_nonempty|]. split; [done|].
      split; [apply getResolvedCache_set|].
      apply Hagain; [done | apply getResolvedCache_set].
    + intros [= <- <-].
      split; [done|]. split; [done|].
      split; [apply getResolvedCache_set|].
      apply Hagain; [done | apply getResolvedCache_set].
    + by intros [= <- <-].
Qed.

End Cache.

Section EntryId.
Context (env : Env).

(** X14. [resolvePackageEntry] reads its specifier only for the postfix
    (and for the text of the error): two specifiers with the same postfix
    give the same path and the same descriptor, and when one throws, so
    does the other. *)
Theorem resolvePackageEntry_specifier_irrelevant (depth : nat)
    (id1 id2 : string) (pkg : PackageData) (options : InternalResolveOptions) :
  (splitFileAndPostfix id1).2 = (splitFileAndPostfix id2).2 →
  (∀ s pkg',
     resolvePackageEntry env depth id1 pkg options = (Ok (Some s), pkg') →
     resolvePackageEntry env depth id2 pkg options = (Ok (Some s), pkg'))
  ∧ (∀ e1,
       (resolvePackageEntry env depth id1 pkg options).1 = Throw e1 →
       ∃ e2, resolvePackageEntry env depth id2 pkg options = (Throw e2, pkg)).
Proof.
  unfold resolvePackageEntry, resolvePackageEntry_with.
  destruct (splitFileAndPostfix id1) as [file1 postfix1].
  destruct (splitFileAndPostfix id2) as [file2 postfix2].
  simpl. intros ->.
  destruct (JS.truthy _); [by split|].
  destruct (resolvePackageEntry_try _ _ _ _) as [res|e].
  - destruct (JS.truthy res); [by split|]. split; [done|].
    intros _ _. by eexists.
  - split; [done|]. intros _ _. by eexists.
Qed.

End EntryId.

(** ** The entry point of a manifest *)

Section Entry.
Context (env : Env).

Lemma mainFieldsLoop_yields depth dir_ data_ options before field after v
    entryPoint :
  Forall (mainFieldMisses env depth dir_ data_ options) before →
  mainFieldYields env depth dir_ data_ options field v →
  mainFieldsLoop env (resolvePackageEntry_nested env depth) dir_ data_ options
    (before ++ field :: after) entryPoint
  = Ok v.
Proof.
  intros Hbefore Hfield. revert entryPoint.
  induction Hbefore as [|f before Hf _ IH]; intros entryPoint; simpl.
  - unfold mainFieldYields in Hfield. destruct (bool_decide (field = "browser")).
    + destruct Hfield as [Hv Ht].
      unfold tryResolveBrowserEntry in Hv. rewrite Hv.
      cbn [mbind result_bind]. by rewrite Ht.
    + by destruct Hfield as (s & -> & ->).
  - unfold mainFieldMisses in Hf. destruct (bool_decide (f = "browser")).
    + destruct Hf as (v' & Hv & Ht).
      unfold tryResolveBrowserEntry in Hv. rewrite Hv.
      cbn [mbind result_bind]. rewrite Ht. apply IH.
    + rewrite Hf. apply IH.
Qed.

Lemma mainFieldsLoop_misses depth dir_ data_ options fields entryPoint :
  Forall (mainFieldMisses env depth dir_ data_ options) fields →
  JS.truthy entryPoint = false →
  ∃ v, mainFieldsLoop env (resolvePackageEntry_nested env depth) dir_ data_
         options fields entryPoint = Ok v
       ∧ JS.truthy v = false.
Proof.
  intros Hfields. revert entryPoint.
  induction Hfields as [|f fields Hf _ IH]; intros entryPoint Hep; simpl.
  - by exists entryPoint.
  - unfold mainFieldMisses in Hf. destruct (bool_decide (f = "browser")).
    + destruct Hf as (v' & Hv & Ht).
      unfold tryResolveBrowserEntry in Hv. rewrite Hv.
      cbn [mbind result_bind]. rewrite Ht. by apply IH.
    + rewrite Hf. by apply IH.
Qed.

(** X15. The entry point of a manifest is chosen in this order: the target
    of [.] in the export map, when the map gives one; else the first main
    field, in the configured order, that yields an entry (the [browser]
    field through [tryResolveBrowserEntry], another field by holding a
    string), where a field holding the empty string ends the search and
    [main] is taken; else [main]. *)
Theorem selectEntryPoint_priority (depth : nat) (dir_ : string)
    (data_ : PackageJson) (options : InternalResolveOptions) :
  let nested := resolvePackageEntry_nested env depth in
  let exportsMiss :=
    exports_truthy (exports data_) = false
    ∨ ∃ r, resolveExportsOrImports env data_ "." options TypeExports = Ok r
           ∧ JS.truthy r = false in
  (∀ e, exports_truthy (exports data_) = true →
        resolveExportsOrImports env data_ "." options TypeExports
        = Ok (Some e) →
        e ≠ EmptyString →
        selectEntryPoint env nested dir_ data_ options = Ok (Some e))
  ∧ (∀ before field after v,
       exportsMiss →
       mainFields options = before ++ field :: after →
       Forall (mainFieldMisses env depth dir_ data_ options) before →
       mainFieldYields env depth dir_ data_ options field v →
       selectEntryPoint env nested dir_ data_ options
       = Ok (if JS.truthy v then v else main data_))
  ∧ (exportsMiss →
     Forall (mainFieldMisses env depth dir_ data_ options)
       (mainFields options) →
     selectEntryPoint env nested dir_ data_ options = Ok (main data_)).
Proof.
  intros nested exportsMiss.
  assert (exportsMiss →
          ∃ r, (if exports_truthy (exports data_)
                then resolveExportsOrImports env data_ "." options TypeExports
                else Ok None) = Ok r
               ∧ JS.truthy r = false) as Hmiss.
  { unfold exportsMiss. intros [Hf | (r & Hr & Ht)].
    - rewrite Hf. by exists None.
    - destruct (exports_truthy _); [by exists r | by exists None]. }
  split; [|split].
  - intros e Hexports Hres He. unfold selectEntryPoint.
    rewrite Hexports, Hres. cbn [mbind result_bind].
    apply truthy_Some in He. rewrite He. cbn [negb mbind result_bind].
    by rewrite He.
  - intros before field after v [r [Hr Ht]]%Hmiss Hfields Hbefore Hfield.
    unfold selectEntryPoint. rewrite Hr. cbn [mbind result_bind].
    rewrite Ht, Hfields. cbn [negb]. subst nested.
    by rewrite (mainFieldsLoop_yields _ _ _ _ _ _ _ _ _ Hbefore Hfield).
  - intros [r [Hr Ht]]%Hmiss Hfields.
    unfold selectEntryPoint. rewrite Hr. cbn [mbind result_bind].
    rewrite Ht. cbn [negb]. subst nested.
    destruct (mainFieldsLoop_misses _ _ _ _ _ _ Hfields Ht) as (v & -> & Hv).
    cbn [mbind result_bind]. by rewrite Hv.
Qed.

(** X16. [tryResolveBrowserEntry] returns [undefined], the browser entry or
    the [module] field, and nothing else. Without a browser entry it
    returns [undefined]. For a [require], or when [module] is not among
    the main fields, is no string or equals the browser entry, it returns
    the browser entry, whatever the files are. Otherwise it resolves the
    browser entry and reads it: the browser entry when the content has
    ESM syntax, the [module] field when it has not, and [undefined] when
    the browser entry does not resolve. *)
Theorem tryResolveBrowserEntry_choice (depth : nat) (dir_ : string)
    (data_ : PackageJson) (options : InternalResolveOptions) :
  let browserEntry := browserEntryOf data_ in
  let chosen := tryResolveBrowserEntry env depth dir_ data_ options in
  let contested :=
    JS.list_includes (mainFields options) "module"
    && bool_decide (is_Some (module data_))
    && negb (bool_decide (module data_ = browserEntry)) in
  (∀ r, chosen = Ok r → r = None ∨ r = browserEntry ∨ r = module data_)
  ∧ (JS.truthy browserEntry = false → chosen = Ok None)
  ∧ (JS.truthy browserEntry = true →
     flag (isRequire options) = true ∨ contested = false →
     chosen = Ok browserEntry)
  ∧ (JS.truthy browserEntry = true →
     flag (isRequire options) = false → contested = true →
     (∀ resolved content,
        tryFsResolve env depth (path.join dir_ (template browserEntry))
          options true false = Ok (Some resolved) →
        readFileSync env resolved = Ok content →
        chosen = Ok (if hasESMSyntax env content then browserEntry
                     else module data_))
     ∧ (tryFsResolve env depth (path.join dir_ (template browserEntry))
          options true false = Ok None →
        chosen = Ok None)).
Proof.
  intros browserEntry chosen contested.
  subst chosen. unfold tryResolveBrowserEntry, tryResolveBrowserEntry_with.
  fold (browserEntryOf data_). fold browserEntry.
  fold (tryFsResolve env depth).
  set (heuristic := negb _ && _ && _ && _).
  assert (heuristic = negb (flag (isRequire options)) && contested) as ->.
  { subst heuristic contested. by rewrite !andb_assoc. }
  split; [|split; [|split]].
  - intros r. destruct (JS.truthy browserEntry); [|intros [= <-]; by left].
    destruct (negb _ && contested); [|intros [= <-]; right; by left].
    destruct (tryFsResolve env depth _ _ _ _) as [resolved|]; [|done].
    cbn [mbind result_bind].
    destruct (JS.truthy resolved); [|intros [= <-]; by left].
    destruct (readFileSync env _) as [content|]; [|done].
    cbn [mbind result_bind].
    destruct (hasESMSyntax env content); intros [= <-]; auto.
  - by intros ->.
  - intros -> [Hreq | Hcont]; [by rewrite Hreq|].
    by rewrite Hcont, andb_false_r.
  - intros -> Hreq Hcont. rewrite Hreq, Hcont. cbn [negb andb]. split.
    + intros resolved content Hres Hread. rewrite Hres.
      cbn [mbind result_bind].
      pose proof (tryFsResolve_truthy _ _ _ _ _ _ _ Hres) as Hr.
      apply truthy_Some in Hr. rewrite Hr.
      change (template (Some resolved)) with resolved.
      rewrite Hread. cbn [mbind result_bind].
      by destruct (hasESMSyntax env content).
    + by intros ->.
Qed.

End Entry.

Section ExportsDirectory.
Context (env : Env).

(** X17. With an export map, a subpath whose target is a directory
    resolves to [undefined], on a cache miss, when nothing is found beside
    the directory: neither the manifest nor the index file of the
    directory is tried, and the descriptor is unchanged. *)
Theorem resolveDeepImport_exports_no_index (depth : nat) (id_ : string)
    (pkg : PackageData) (options : InternalResolveOptions) (e : string) :
  let file := (splitFileAndPostfix id_).1 in
  let postfix := (splitFileAndPostfix id_).2 in
  let target := path.join (dir pkg) (e +:+ postfix) in
  JS.truthy (getResolvedCache env pkg id_ options) = false →
  exports_is_plain_object (exports (data pkg)) = true →
  resolveExportsOrImports env (data pkg) file options TypeExports
  = Ok (Some e) →
  e ≠ EmptyString →
  isBare target →
  tryStatSync env target = Some IsDirectory →
  (∃ res, siblingProbes env target options = Ok res ∧ JS.truthy res = false) →
  resolveDeepImport env depth id_ pkg options = (Ok None, pkg).
Proof.
  intros file postfix target Hmiss Hobj Hexp He Hbare Hstat Hsib.
  assert (exports_truthy (exports (data pkg)) = true) as Htruthy.
  { by destruct (exports (data pkg)) as [[]|]. }
  unfold resolveDeepImport, resolveDeepImport_with,
    resolveDeepImport_relativeId.
  rewrite Hmiss, Htruthy, Hobj.
  subst file postfix target.
  destruct (splitFileAndPostfix id_) as [file postfix]. simpl in *.
  rewrite Hexp. cbn [mbind result_bind].
  assert (JS.truthy (Some (e +:+ postfix)) = true) as Hrel.
  { apply truthy_append. by apply truthy_Some. }
  rewrite Hrel. cbn [negb]. rewrite Hrel.
  change (template (Some (e +:+ postfix))) with (e +:+ postfix).
  fold (tryFsResolve env depth).
  rewrite tryFsResolve_bare by done.
  unfold tryCleanFsResolve.
  rewrite tryCleanFsResolve_with_directory by done.
  done.
Qed.

End ExportsDirectory.

Section Sass.
Context (env : Env).

(** X18. When the first main field is [sass] and the extension of an entry
    candidate is not among the configured extensions, the candidate is
    dropped: the package directory itself is probed, with
    [skipPackageJson] on, whatever the candidate and the browser table
    are. When that directory exists and nothing is found beside it, the
    result is its index file in a configured extension. *)
Theorem probeEntry_sass (depth : nat) (dir_ : string) (data_ : PackageJson)
    (options : InternalResolveOptions) (entry : string) :
  let pkgDir := path.join dir_ EmptyString in
  head (mainFields options) = Some "sass" →
  JS.list_includes (extensions options) (path.extname entry) = false →
  entryCandidate data_ options entry = (EmptyString, true)
  ∧ probeEntry env (resolvePackageEntry_nested env depth) dir_ data_ options
      entry
    = tryFsResolve env depth pkgDir options true true
  ∧ (isBare pkgDir →
     tryStatSync env pkgDir = Some IsDirectory →
     (∃ res, siblingProbes env pkgDir options = Ok res
             ∧ JS.truthy res = false) →
     probeEntry env (resolvePackageEntry_nested env depth) dir_ data_ options
       entry
     = indexProbes env pkgDir options).
Proof.
  intros pkgDir Hsass Hext.
  assert (entryCandidate data_ options entry = (EmptyString, true)) as Hc.
  { unfold entryCandidate. rewrite Hsass, Hext.
    by rewrite bool_decide_eq_true_2. }
  assert (probeEntry env (resolvePackageEntry_nested env depth) dir_ data_
            options entry
          = tryFsResolve env depth pkgDir options true true) as Hprobe.
  { unfold probeEntry. by rewrite Hc. }
  split; [done|]. split; [done|].
  intros Hbare Hstat Hsib. rewrite Hprobe, tryFsResolve_bare by done.
  unfold tryCleanFsResolve.
  by rewrite tryCleanFsResolve_with_directory.
Qed.

End Sass.

(** ** The result of the orchestrator *)

Section RootImport.
Context (env : Env).

Lemma resolvePackageEntry_with_defined resolveEntry id_ pkg options :
  (resolvePackageEntry_with env resolveEntry id_ pkg options).1 ≠ Ok None.
Proof.
  unfold resolvePackageEntry_with.
  destruct (splitFileAndPostfix id_) as [idWithoutPostfix postfix].
  destruct (JS.truthy _); [done|].
  destruct (resolvePackageEntry_try _ _ _ _) as [res|e]; [|done].
  by destruct (JS.truthy res).
Qed.

(** X19. For a specifier without subpath whose package is found,
    [tryNodeResolve] never returns [undefined]: it returns the id built
    from the path that [resolvePackageEntry] gives, or throws the error of
    [resolvePackageEntry], which has the code
    [ERR_RESOLVE_PACKAGE_ENTRY_FAIL]. *)
Theorem tryNodeResolve_root_import_defined (depth : nat) (id_ : string)
    (importer : option string) (options : InternalResolveOptions)
    (depsOptimizer : option DepsOptimizer) (externalize : option bool)
    (pkg : PackageData) :
  deepImportRE_exec env id_ = None →
  tryNodeResolve_pkg env id_ importer options = Some pkg →
  match (tryNodeResolve env depth id_ importer options depsOptimizer
           externalize).1 with
  | Ok (Some r) =>
      ∃ s, (resolvePackageEntry env depth id_ pkg options).1 = Ok (Some s)
           ∧ s ≠ EmptyString
           ∧ r = tryNodeResolve_finish env id_ importer options depsOptimizer
                   externalize pkg s
  | Ok None => False
  | Throw e =>
      (resolvePackageEntry env depth id_ pkg options).1 = Throw e
      ∧ code e = Some ERR_RESOLVE_PACKAGE_ENTRY_FAIL
  end.
Proof.
  intros Hdeep Hpkg. unfold tryNodeResolve, tryNodeResolve_inPkg.
  rewrite Hpkg, Hdeep.
  pose proof (resolvePackageEntry_with_defined
                (resolvePackageEntry_nested env depth) id_ pkg options) as Hdef.
  pose proof (resolvePackageEntry_with_nonempty env
                (resolvePackageEntry_nested env depth) id_ pkg options) as Hne.
  pose proof (resolvePackageEntry_with_code env
                (resolvePackageEntry_nested env depth) id_ pkg options) as Hcode.
  fold (resolvePackageEntry env depth) in Hdef, Hne, Hcode.
  destruct (resolvePackageEntry env depth id_ pkg options) as [[[s|]|e] pkg'];
    simpl in *; [|done|by split; [|apply Hcode]].
  specialize (Hne s eq_refl). apply truthy_Some in Hne as Ht. rewrite Ht.
  simpl. by exists s.
Qed.

End RootImport.

Section DeepImport.
Context (env : Env).

(** X20. For a specifier with a subpath whose package is found,
    [tryNodeResolve] hands the subpath to [resolveDeepImport], as [.]
    followed by what comes after the package name in the specifier, the
    postfix included. It throws what [resolveDeepImport] throws, returns
    [undefined] when that does, and otherwise returns the id built from
    its path; the descriptor afterwards is the one [resolveDeepImport]
    leaves. *)
Theorem tryNodeResolve_deep_import (depth : nat) (id_ pkgId rest : string)
    (importer : option string) (options : InternalResolveOptions)
    (depsOptimizer : option DepsOptimizer) (externalize : option bool)
    (pkg : PackageData) :
  deepImportRE_exec env id_ = Some pkgId →
  id_ = pkgId +:+ rest →
  tryNodeResolve_pkg env id_ importer options = Some pkg →
  let deep := resolveDeepImport env depth ("." +:+ rest) pkg options in
  tryNodeResolve env depth id_ importer options depsOptimizer externalize
  = (match deep.1 with
     | Ok (Some s) =>
         Ok (Some (tryNodeResolve_finish env id_ importer options
                     depsOptimizer externalize pkg s))
     | Ok None => Ok None
     | Throw e => Throw e
     end,
     Some deep.2).
Proof.
  intros Hdeep Hid Hpkg deep.
  unfold tryNodeResolve, tryNodeResolve_inPkg, tryNodeResolve_pkgId.
  rewrite Hpkg, Hdeep.
  assert (JS.slice id_ (JS.length pkgId) None = rest) as ->.
  { rewrite Hid. apply slice_from_length. }
  fold deep.
  pose proof (resolveDeepImport_nonempty env depth ("." +:+ rest) pkg
                options) as Hne.
  fold deep in Hne.
  destruct deep as [[[s|]|e] pkg']; simpl in *; [|done..].
  specialize (Hne s eq_refl). apply truthy_Some in Hne. by rewrite Hne.
Qed.

End DeepImport.

Section IndexOf.


Lemma indexOf_from_range (s pat : string) (i : Z) :
  JS.indexOf_from s pat i = -1 ∨ i ≤ JS.indexOf_from s pat i.
Proof.
  revert i; induction s as [|x s IH]; intros i;
    rewrite indexOf_from_unfold; destruct (JS.startsWith _ pat);
    [right; lia | by left | right; lia |].
  destruct (IH (i + 1)); [by left | right; lia].
Qed.



End IndexOf.

Section Finish.
Context (env : Env).


(** X22. The tail of [tryNodeResolve]. The result is marked external
    exactly when [idOnly] is off, externalization is asked for and
    [canExternalizeFile] allows the resolved path; [moduleSideEffects] is
    set exactly in the build or externalizing mode with [idOnly] off; with
    [idOnly] the result carries neither. A result that is not external
    has the resolved path itself as id in the build mode, without
    optimizer, for a path outside [node_modules] and during the scan. *)
Theorem tryNodeResolve_finish_flags (id_ : string) (importer : option string)
    (options : InternalResolveOptions) (depsOptimizer : option DepsOptimizer)
    (externalize : option bool) (pkg : PackageData) (resolved : string) :
  let r := tryNodeResolve_finish env id_ importer options depsOptimizer
             externalize pkg resolved in
  let build :=
    negb (flag (idOnly options))
    && ((negb (flag (scan options)) && isBuild options) || flag externalize) in
  (external r = Some true
   ↔ flag (idOnly options) = false ∧ flag externalize = true
     ∧ canExternalizeFile env resolved = true)
  ∧ (external r ≠ Some true → external r = None)
  ∧ moduleSideEffects r
    = (if build then Some (hasSideEffects pkg resolved) else None)
  ∧ (flag (idOnly options) = true →
     moduleSideEffects r = None ∧ external r = None)
  ∧ (external r ≠ Some true →
     build = true ∨ depsOptimizer = None ∨ isInNodeModules resolved = false
     ∨ flag (scan options) = true →
     id r = resolved).
Proof.
  intros r build. subst r. unfold tryNodeResolve_finish. fold build.
  assert (∀ s, external {| id := s; moduleSideEffects := None;
                           external := None |} = None) as Hplain by done.
  destruct build eqn:Hbuild.
  - unfold processResult. cbn [id].
    subst build. apply andb_true_iff in Hbuild as [HidOnly Hmode].
    apply negb_true_iff in HidOnly. rewrite HidOnly.
    destruct (flag externalize) eqn:Hext; cbn [negb].
    + destruct (canExternalizeFile env resolved) eqn:Hcan; cbn [negb].
      * cbn [external moduleSideEffects id].
        split; [done|]. split; [done|]. split; [done|]. split; [done|]. done.
      * cbn [external moduleSideEffects id].
        split; [split; [done | by intros (_ & _ & [=])]|].
        split; [done|]. split; [done|]. split; [done|]. done.
    + cbn [external moduleSideEffects id].
      split; [split; [done | by intros (_ & [=] & _)]|].
      split; [done|]. split; [done|]. split; [done|]. done.
  - assert (flag (idOnly options) = false → flag externalize = false) as Hext.
    { intros HidOnly. subst build. rewrite HidOnly in Hbuild.
      cbn [negb andb] in Hbuild. by apply orb_false_iff in Hbuild as [_ ?]. }
    set (r := match depsOptimizer with None => _ | Some _ => _ end).
    assert (external r = None ∧ moduleSideEffects r = None) as [He Hm].
    { subst r. destruct depsOptimizer as [optimizer|]; [|done]. cbv zeta.
      repeat match goal with
             | |- context [if ?b then _ else _] => destruct b
             end; done. }
    rewrite He, Hm.
    split; [split; [done | intros (HidOnly & Hx & _); by rewrite Hext in Hx]|].
    split; [done|]. split; [done|]. split; [done|].
    intros _ [[=] | [-> | [Hnm | Hscan]]]; [done| |]; subst r;
      destruct depsOptimizer as [optimizer|]; try done.
    + by rewrite Hnm.
    + by rewrite Hscan, orb_true_r.
Qed.

(** X23. For a package listed in [dedupe], the base directory is the
    project root, whatever the importer is; without optimizer the result
    of [tryNodeResolve] is the one without importer, and the package is
    never reported as an optional peer dependency. *)
Theorem tryNodeResolve_dedupe (depth : nat) (id_ : string)
    (importer : option string) (options : InternalResolveOptions)
    (externalize : option bool) :
  JS.list_includes (dedupe options) (tryNodeResolve_pkgId env id_) = true →
  tryNodeResolve_basedir env id_ importer options = root options
  ∧ tryNodeResolve env depth id_ importer options None externalize
    = tryNodeResolve env depth id_ None options None externalize
  ∧ tryNodeResolve_noPkg env id_ importer options = None.
Proof.
  intros Hdedupe.
  assert (∀ importer', tryNodeResolve_basedir env id_ importer' options
                       = root options) as Hbase.
  { intros importer'. unfold tryNodeResolve_basedir. by rewrite Hdedupe. }
  split; [apply Hbase|]. split.
  - unfold tryNodeResolve, tryNodeResolve_pkg, tryNodeResolve_selfPkg,
      tryNodeResolve_noPkg, tryNodeResolve_inPkg.
    rewrite !Hbase. done.
  - unfold tryNodeResolve_noPkg. rewrite Hbase.
    by rewrite bool_decide_eq_false_2 by (by intros ?).
Qed.

End Finish.

Section Placeholder.
Context (env : Env).

(** X24. The placeholder condition never reaches the export-map lookup:
    unless it is itself one of [production], [development], [import] and
    [require], it does not occur in the result of [getConditions]. *)
Theorem getConditions_no_placeholder (conditions : list string)
    (isProduction : bool) (isRequire : option bool) :
  DEV_PROD_CONDITION env ∉ ["production"; "development"; "import"; "require"] →
  DEV_PROD_CONDITION env ∉ getConditions env conditions isProduction isRequire.
Proof.
  intros Hname Hin. apply Hname. rewrite !elem_of_cons.
  unfold getConditions in Hin.
  assert (DEV_PROD_CONDITION env
          ∈ (λ condition : string,
               if bool_decide (condition = DEV_PROD_CONDITION env)
               then (if isProduction then "production" else "development")
               else condition) <$> conditions
          → DEV_PROD_CONDITION env = "production"
            ∨ DEV_PROD_CONDITION env = "development") as Hmap.
  { intros (c & Hc & _)%list_elem_of_fmap.
    case_bool_decide; [|done]. destruct isProduction; auto. }
  destruct (flag isRequire); apply elem_of_app in Hin as [Hin | Hin];
    try (apply Hmap in Hin; tauto);
    apply list_elem_of_singleton in Hin; tauto.
Qed.

End Placeholder.

(** ** Suffixes and dotfiles *)

Section Suffix.

(** X25. For a suffix that is not empty, [equalWithoutSuffix] holds exactly
    when the key is the path followed by the suffix. For the empty suffix
    it holds only for the empty path, because [key.slice(0, -0)] is
    empty. *)
Theorem equalWithoutSuffix_cases (p key suffix : string) :
  (suffix ≠ EmptyString →
   (equalWithoutSuffix p key suffix = true ↔ key = p +:+ suffix))
  ∧ (equalWithoutSuffix p key EmptyString = true ↔ p = EmptyString).
Proof.
  split; [apply equalWithoutSuffix_spec|].
  unfold equalWithoutSuffix.
  assert (JS.endsWith key EmptyString = true) as ->.
  { apply endsWith_spec. exists key. by rewrite append_empty_r. }
  assert (JS.slice key 0 (Some (- JS.length EmptyString)) = EmptyString) as ->.
  { unfold JS.slice, JS.clamp, JS.length. simpl String.length.
    change (- Z.of_nat 0 <? 0) with false. change (0 <? 0) with false.
    cbv iota. rewrite !Z.min_l by lia. apply substring_zero_zero. }
  rewrite andb_true_l, bool_decide_eq_true. split; by intros ->.
Qed.

End Suffix.

Section DotFile.

Lemma lastChar_has_slash (d : string) :
  lastChar d = Some "/"%char → path.has_slash d = true.
Proof.
  induction d as [|c d IH]; [done|]. simpl.
  destruct (lastChar d) as [l|] eqn:Hl.
  - intros Hlast. rewrite IH by done. apply orb_true_r.
  - intros [= ->]. done.
Qed.

Lemma afterLastSlash_trailing (d : string) :
  d = EmptyString ∨ lastChar d = Some "/"%char →
  path.afterLastSlash d = EmptyString.
Proof.
  intros [-> | Hlast]; [done|].
  induction d as [|c d IH]; [done|]. simpl in *.
  destruct (lastChar d) as [l|] eqn:Hl.
  - rewrite IH by done. by rewrite lastChar_has_slash by congruence.
  - destruct d; [|by simpl in Hl; destruct (lastChar d)].
    by simplify_eq.
Qed.

(** X26. A path whose last component is exactly [.js] passes the
    compiled-output test but has no extension for [path.extname]: the
    file name cut by [slice(0, -0)] is empty, and the typed-source swap
    probes the empty path, not a [.ts] file. *)
Theorem typed_source_swap_of_dotfile (d : string) :
  d = EmptyString ∨ lastChar d = Some "/"%char →
  let file := d +:+ ".js" in
  let fileExt := path.extname file in
  let fileName := JS.slice file 0 (Some (- JS.length fileExt)) in
  isPossibleTsOutput file = true
  ∧ fileExt = EmptyString
  ∧ fileName +:+ JS.replace fileExt "js" "ts" = EmptyString.
Proof.
  intros Hd file fileExt fileName.
  assert (fileExt = EmptyString) as Hext.
  { subst fileExt file. unfold path.extname, path.basename.
    rewrite stripTrailingSlashes_id by (by rewrite lastChar_app).
    rewrite afterLastSlash_app by done.
    by rewrite afterLastSlash_trailing. }
  split; [|split; [done|]].
  - unfold isPossibleTsOutput.
    assert (JS.endsWith file ".js" = true) as ->; [|done].
    apply endsWith_spec. by exists d.
  - subst fileName. rewrite Hext.
    unfold JS.slice, JS.clamp, JS.length. simpl String.length.
    change (- Z.of_nat 0 <? 0) with false. change (0 <? 0) with false.
    cbv iota. rewrite !Z.min_l by lia. by rewrite substring_zero_zero.
Qed.

End DotFile.

(** ** The further properties on sample files *)

(** With [skipPackageJson], resolving a dependency path with a [#] and a
    [?] returns. *)
Lemma tryFsResolve_never_throws_example :
  ∃ r, tryFsResolve (Sample.env hashFiles []) 1 "/proj/node_modules/pkg/a#b?x"
         Sample.options true true = Ok r.
Proof.
  apply (tryFsResolve_never_throws (Sample.env hashFiles []) 1
           "/proj/node_modules/pkg/a#b?x" Sample.options true true).
  - right. intros p. by exists p.
  - by right.
Defined.

(** The file [x.ts] resolves to itself, with [tryIndex] off and no call
    stack left. *)
Lemma tryCleanFsResolve_existing_file_example :
  tryCleanFsResolve (Sample.env swapFiles []) 0 "/proj/src/x.ts"
    Sample.options false false
  = Ok (Some "/proj/src/x.ts")
  ∧ tryFsResolve (Sample.env swapFiles []) 0 "/proj/src/x.ts"
      Sample.options false false
    = Ok (Some "/proj/src/x.ts").
Proof.
  destruct (proj1 (tryCleanFsResolve_existing_file (Sample.env swapFiles []) 0
                     "/proj/src/x.ts" Sample.options false false eq_refl)
              "/proj/src/x.ts" eq_refl ltac:(discriminate)) as [Hclean Hfs].
  split; [exact Hclean|]. apply Hfs. split; reflexivity.
Defined.

(** Nothing is found under the missing directory [/proj/lib]. *)
Lemma tryCleanFsResolve_missing_directory_example :
  tryCleanFsResolve (Sample.env swapFiles []) 1 "/proj/lib/x"
    Sample.options true false
  = Ok None.
Proof.
  apply (proj1 (tryCleanFsResolve_missing_directory (Sample.env swapFiles []) 1
                  "/proj/lib/x" Sample.options true false
                  ltac:(vm_compute; discriminate)
                  ltac:(vm_compute; discriminate) eq_refl)).
Defined.

(** With [lib.js] beside the directory [lib], which holds [index.js],
    the path [lib] resolves to [lib.js]. *)
Lemma tryCleanFsResolve_extension_before_directory_example :
  tryCleanFsResolve
    (Sample.env [("/proj", IsDirectory); ("/proj/lib", IsDirectory);
                 ("/proj/lib/index.js", IsFile); ("/proj/lib.js", IsFile)] [])
    1 "/proj/lib" Sample.options true false
  = Ok (Some "/proj/lib.js").
Proof.
  apply tryCleanFsResolve_extension_before_directory.
  - vm_compute. discriminate.
  - reflexivity.
  - reflexivity.
  - reflexivity.
Defined.

(** The Sass import [part] finds the partial [_part.scss]. *)
Lemma tryCleanFsResolve_prefixed_sibling_example :
  tryCleanFsResolve (Sample.env partialFiles []) 1 "/proj/src/part"
    partialOptions true false
  = Ok (Some "/proj/src/_part.scss").
Proof.
  apply (tryCleanFsResolve_prefixed_sibling (Sample.env partialFiles []) 1
           "/proj/src/part" partialOptions true false "_").
  - vm_compute. discriminate.
  - reflexivity.
  - reflexivity.
  - reflexivity.
  - discriminate.
  - repeat (apply Forall_cons; split; [exists None; split; reflexivity|]).
    constructor.
  - discriminate.
  - right. split; [exists None; split; reflexivity | reflexivity].
Defined.

(** With [skipPackageJson], the directory resolves to its index file. *)
Lemma tryCleanFsResolve_directory_example :
  tryCleanFsResolve (Sample.env dirFiles [brokenPackage]) 1
    "/proj/node_modules/broken" Sample.options true true
  = Ok (Some "/proj/node_modules/broken/index.js").
Proof.
  rewrite (tryCleanFsResolve_directory (Sample.env dirFiles [brokenPackage]) 1
             "/proj/node_modules/broken" Sample.options true true).
  - reflexivity.
  - reflexivity.
  - exists None. split; reflexivity.
Defined.

(** The manifest of [broken] names a missing [main]; the directory still
    resolves to its index file. *)
Lemma tryCleanFsResolve_entry_failure_falls_back_example :
  tryCleanFsResolve (Sample.env dirFiles [brokenPackage]) 2
    "/proj/node_modules/broken" Sample.options true false
  = Ok (Some "/proj/node_modules/broken/index.js").
Proof.
  rewrite (tryCleanFsResolve_entry_failure_falls_back
             (Sample.env dirFiles [brokenPackage]) 1
             "/proj/node_modules/broken" Sample.options
             "/proj/node_modules/broken/package.json" brokenPackage).
  - reflexivity.
  - reflexivity.
  - exists None. split; reflexivity.
  - reflexivity.
  - reflexivity.
  - reflexivity.
Defined.

(** [x.js?q#h] resolves to [x.ts?q#h]: the resolution of [x.js], then
    [?q#h]. *)
Lemma tryFsResolve_result_shape_example :
  ∃ file rest res,
    "/proj/src/x.js?q#h" = file +:+ rest
    ∧ isPostfix rest
    ∧ tryCleanFsResolve (Sample.env swapFiles []) 1 file Sample.options true
        false = Ok (Some res)
    ∧ "/proj/src/x.ts?q#h" = res +:+ rest.
Proof.
  apply (tryFsResolve_result_shape (Sample.env swapFiles []) 1
           "/proj/src/x.js?q#h" Sample.options true false).
  reflexivity.
Defined.

(** In [node_modules], [a?x#b.js] is the file [a] with the postfix
    [?x#b.js]. *)
Lemma tryFsResolve_query_before_hash_example :
  tryFsResolve (Sample.env hashFiles []) 1 "/proj/node_modules/pkg/a?x#b.js"
    Sample.options true false
  = Ok (Some "/proj/node_modules/pkg/a?x#b.js").
Proof.
  rewrite (proj2 (tryFsResolve_query_before_hash (Sample.env hashFiles []) 1
                    "/proj/node_modules/pkg/a?x#b.js" Sample.options true
                    false ltac:(vm_compute; discriminate)
                    (or_intror eq_refl))).
  reflexivity.
Defined.

(** After [pkg?inline] is resolved, [pkg#h] is answered from the cache,
    without files and without call stack. *)
Lemma resolvePackageEntry_cache_round_trip_example :
  resolvePackageEntry (Sample.env [] []) 0 "pkg#h"
    (resolvePackageEntry (Sample.env exportsFiles [exportsPackage]) 1
       "pkg?inline" exportsPackage Sample.options).2
    Sample.options
  = (Ok (Some "/proj/node_modules/pkg/index.js#h"),
     (resolvePackageEntry (Sample.env exportsFiles [exportsPackage]) 1
        "pkg?inline" exportsPackage Sample.options).2).
Proof.
  destruct (resolvePackageEntry_cache_round_trip
              (Sample.env exportsFiles [exportsPackage]) 1 "pkg?inline"
              exportsPackage
              (resolvePackageEntry (Sample.env exportsFiles [exportsPackage]) 1
                 "pkg?inline" exportsPackage Sample.options).2
              Sample.options
              (Ok (Some "/proj/node_modules/pkg/index.js?inline")) eq_refl)
    as (resolved & _ & _ & _ & Hget & Hagain).
  vm_compute in Hget. injection Hget as <-.
  exact (Hagain (Sample.env [] []) 0%nat "pkg#h" eq_refl).
Defined.

(** After [./sub] is resolved, it is answered from the cache, without
    files and without call stack. *)
Lemma resolveDeepImport_cache_round_trip_example :
  resolveDeepImport (Sample.env [] []) 0 "./sub"
    (resolveDeepImport (Sample.env exportsFiles [exportsPackage]) 1
       "./sub" exportsPackage Sample.options).2
    Sample.options
  = (Ok (Some "/proj/node_modules/pkg/src/sub.js"),
     (resolveDeepImport (Sample.env exportsFiles [exportsPackage]) 1
        "./sub" exportsPackage Sample.options).2).
Proof.
  destruct (resolveDeepImport_cache_round_trip
              (Sample.env exportsFiles [exportsPackage]) 1 "./sub"
              exportsPackage
              (resolveDeepImport (Sample.env exportsFiles [exportsPackage]) 1
                 "./sub" exportsPackage Sample.options).2
              Sample.options
              (Ok (Some "/proj/node_modules/pkg/src/sub.js")) eq_refl)
    as (_ & _ & _ & Hagain).
  exact (Hagain (Sample.env [] []) 0%nat eq_refl).
Defined.

(** The package directory as specifier gives what the package name
    gives. *)
Lemma resolvePackageEntry_specifier_irrelevant_example :
  resolvePackageEntry (Sample.env exportsFiles [exportsPackage]) 1
    "/proj/node_modules/pkg" exportsPackage Sample.options
  = resolvePackageEntry (Sample.env exportsFiles [exportsPackage]) 1
      "pkg" exportsPackage Sample.options.
Proof.
  apply (proj1 (resolvePackageEntry_specifier_irrelevant
                  (Sample.env exportsFiles [exportsPackage]) 1 "pkg"
                  "/proj/node_modules/pkg" exportsPackage Sample.options
                  eq_refl)).
  reflexivity.
Defined.

(** For a package with [browser], [module] and [main], the [browser]
    field comes first and yields the [module] entry, the browser entry
    having no ESM syntax. *)
Lemma selectEntryPoint_priority_example :
  selectEntryPoint (Sample.env dualFiles [dualPackage])
    (resolvePackageEntry_nested (Sample.env dualFiles [dualPackage]) 1)
    (dir dualPackage) (data dualPackage) Sample.options
  = Ok (Some "module.js").
Proof.
  apply (proj1 (proj2 (selectEntryPoint_priority
                         (Sample.env dualFiles [dualPackage]) 1
                         (dir dualPackage) (data dualPackage) Sample.options))
           [] "browser" ["module"; "jsnext:main"; "jsnext"]
           (Some "module.js")).
  - left. reflexivity.
  - reflexivity.
  - constructor.
  - split; reflexivity.
Defined.

(** The browser entry of [dual] has no ESM syntax: the [module] field is
    chosen. *)
Lemma tryResolveBrowserEntry_choice_example :
  tryResolveBrowserEntry (Sample.env dualFiles [dualPackage]) 1
    (dir dualPackage) (data dualPackage) Sample.options
  = Ok (Some "module.js").
Proof.
  apply (proj1 (proj2 (proj2 (proj2 (tryResolveBrowserEntry_choice
                                       (Sample.env dualFiles [dualPackage]) 1
                                       (dir dualPackage) (data dualPackage)
                                       Sample.options)))
                  eq_refl eq_refl eq_refl)
           "/proj/node_modules/dual/browser.js" EmptyString).
  - reflexivity.
  - reflexivity.
Defined.

(** The export map sends [./lib] to the directory [lib]; its
    [index.js] is not tried. *)
Lemma resolveDeepImport_exports_no_index_example :
  resolveDeepImport (Sample.env libFiles [libPackage]) 1 "./lib" libPackage
    Sample.options
  = (Ok None, libPackage).
Proof.
  apply (resolveDeepImport_exports_no_index (Sample.env libFiles [libPackage])
           1 "./lib" libPackage Sample.options "./lib").
  - reflexivity.
  - reflexivity.
  - reflexivity.
  - discriminate.
  - split; reflexivity.
  - reflexivity.
  - exists None. split; reflexivity.
Defined.

(** For Sass, the script entry [index.js] of [ui] gives way to
    [index.scss]. *)
Lemma probeEntry_sass_example :
  probeEntry (Sample.env sassFiles [sassPackage])
    (resolvePackageEntry_nested (Sample.env sassFiles [sassPackage]) 1)
    (dir sassPackage) (data sassPackage) partialOptions "index.js"
  = Ok (Some "/proj/node_modules/ui/index.scss").
Proof.
  rewrite (proj2 (proj2 (probeEntry_sass (Sample.env sassFiles [sassPackage]) 1
                           (dir sassPackage) (data sassPackage) partialOptions
                           "index.js" eq_refl eq_refl))).
  - reflexivity.
  - split; reflexivity.
  - reflexivity.
  - exists None. split; reflexivity.
Defined.

(** The specifier [pkg] resolves to the entry of the package. *)
Lemma tryNodeResolve_root_import_defined_example :
  ∃ s, (resolvePackageEntry (Sample.env exportsFiles [exportsPackage]) 1
          "pkg" exportsPackage Sample.options).1 = Ok (Some s)
       ∧ s ≠ EmptyString
       ∧ {| id := "/proj/node_modules/pkg/index.js";
            moduleSideEffects := None; external := None |}
         = tryNodeResolve_finish (Sample.env exportsFiles [exportsPackage])
             "pkg" None Sample.options None None exportsPackage s.
Proof.
  exact (tryNodeResolve_root_import_defined
           (Sample.env exportsFiles [exportsPackage]) 1 "pkg" None
           Sample.options None None exportsPackage eq_refl eq_refl).
Defined.

(** The deep import [pkg/sub?raw] resolves through the export map and
    keeps its postfix. *)
Lemma tryNodeResolve_deep_import_example :
  (tryNodeResolve (Sample.env exportsFiles [exportsPackage]) 1 "pkg/sub?raw"
     None Sample.options None None).1
  = Ok (Some {| id := "/proj/node_modules/pkg/src/sub.js?raw";
                moduleSideEffects := None; external := None |}).
Proof.
  rewrite (tryNodeResolve_deep_import
             (Sample.env exportsFiles [exportsPackage]) 1 "pkg/sub?raw" "pkg"
             "/sub?raw" None Sample.options None None exportsPackage
             eq_refl eq_refl eq_refl).
  reflexivity.
Defined.


(** The deduped [pkg] resolves from the root, whatever the importer. *)
Lemma tryNodeResolve_dedupe_example :
  tryNodeResolve (Sample.env exportsFiles [exportsPackage]) 1 "pkg"
    (Some "/elsewhere/src/main.js") dedupeOptions None None
  = tryNodeResolve (Sample.env exportsFiles [exportsPackage]) 1 "pkg"
      None dedupeOptions None None.
Proof.
  apply (proj1 (proj2 (tryNodeResolve_dedupe
                         (Sample.env exportsFiles [exportsPackage]) 1 "pkg"
                         (Some "/elsewhere/src/main.js") dedupeOptions None
                         eq_refl))).
Defined.

(** The placeholder [development|production] is replaced. *)
Lemma getConditions_no_placeholder_example :
  "development|production"
  ∉ getConditions (Sample.env [] []) ["module"; "development|production"]
      true None.
Proof.
  apply (getConditions_no_placeholder (Sample.env [] [])).
  intros Hin.
  repeat (apply elem_of_cons in Hin as [Hin | Hin]; [discriminate|]).
  by apply elem_of_nil in Hin.
Defined.

(** The file [/proj/src/.js]. *)
Lemma typed_source_swap_of_dotfile_example :
  isPossibleTsOutput "/proj/src/.js" = true
  ∧ path.extname "/proj/src/.js" = EmptyString
  ∧ JS.slice "/proj/src/.js" 0
      (Some (- JS.length (path.extname "/proj/src/.js")))
    +:+ JS.replace (path.extname "/proj/src/.js") "js" "ts"
    = EmptyString.
Proof.
  apply (typed_source_swap_of_dotfile "/proj/src/"). right. reflexivity.
Defined.
